(** * SparoBot: colour matching and dosage planning

    A shallow embedding of [js/chemistry.js] (the dosage planner) and
    [js/colorChart.js] (the colour matcher), with the properties the
    specification states about them.

    Numbers.  JavaScript numbers are IEEE doubles.  The dosage planner only
    adds, subtracts, multiplies, divides, compares and rounds, so it is
    modelled over the rationals [Q], where every definition runs; decimal
    literals ([7.2], [0.1]) denote the exact decimal.  The colour matcher
    needs [Math.pow], [Math.cbrt] and [Math.sqrt] and is modelled over the
    reals [R].  Rounding error, overflow and NaN are outside both models.

    Text.  Template literals are kept as lists of fragments: the literal
    pieces as strings, the interpolated numbers as numbers together with the
    conversion the source applies ([toFixed], [Math.round],
    [toLocaleString], default conversion). *)

From Stdlib Require Import QArith Qround Reals Lra Lia Ascii String List ZArith Bool.
From Stdlib Require Import Rpower R_sqrt Sorted.
From Stdlib Require Lqa.
From Stdlib Require Import DecimalString Permutation.
From stdpp Require Import gmap strings.
Import ListNotations.
Open Scope string_scope.

(** ** JavaScript built-ins shared by both files *)

Module JS.

(** [Array.prototype.sort(cmp)] is stable: elements that compare equal keep
    their order.  With a consistent comparator the result is the unique stable
    ordering, computed here by insertion from the right.  [gt a b] holds when
    [cmp(a, b) > 0], i.e. when [a] has to go after [b]. *)
Fixpoint sort_insert {A : Type} (gt : A -> A -> bool) (x : A) (l : list A) : list A :=
  match l with
  | [] => [x]
  | y :: l' => if gt x y then y :: sort_insert gt x l' else x :: l
  end.

Fixpoint Array_sort {A : Type} (gt : A -> A -> bool) (l : list A) : list A :=
  match l with
  | [] => []
  | x :: l' => sort_insert gt x (Array_sort gt l')
  end.

(** A piece of a template literal. *)
Inductive Frag : Type :=
| Lit (s : string)                (* literal text *)
| Num (q : Q)                     (* `${x}`: default number conversion *)
| Fixed (digits : nat) (q : Q)    (* `${x.toFixed(digits)}` *)
| Int (z : Z)                     (* `${Math.round(x)}`: an integer *)
| Locale (z : Z).                 (* `${Math.round(x).toLocaleString()}` *)

Definition Text : Type := list Frag.

(** The double-quote character inside a text. *)
Definition dquote : string := String "034"%char EmptyString.

(** [Math.round]: nearest integer, halves go up. *)
Definition Math_round (x : Q) : Z := Qfloor (x + 1 / 2).

(** [x < y] on numbers. *)
Definition Qltb (x y : Q) : bool := negb (Qle_bool y x).

(** Property access [o[k]] on an object literal.  An object literal inherits
    from [Object.prototype], so a key that is not an own property still
    yields a value when [Object.prototype] has a property of that name (a
    function, or for [__proto__] the prototype object itself: never
    [undefined], always truthy). *)
Definition Object_prototype_keys : list string :=
  [ "constructor"; "hasOwnProperty"; "isPrototypeOf"; "propertyIsEnumerable";
    "toLocaleString"; "toString"; "valueOf"; "__proto__";
    "__defineGetter__"; "__defineSetter__"; "__lookupGetter__";
    "__lookupSetter__" ].

Inductive Lookup (A : Type) : Type :=
| Own (a : A)      (* an own property of the literal *)
| Inherited        (* a property of Object.prototype *)
| Undefined.       (* undefined *)
Arguments Own {A} a.
Arguments Inherited {A}.
Arguments Undefined {A}.

Definition get {A : Type} (o : gmap string A) (k : string) : Lookup A :=
  match o !! k with
  | Some a => Own a
  | None => if existsb (String.eqb k) Object_prototype_keys then Inherited else Undefined
  end.

(** How a function call completes: it returns a value, or it throws the
    [TypeError] of reading a property of [undefined] or [null] (or of
    iterating [undefined]). *)
Inductive Completion (A : Type) : Type :=
| Normal (a : A)
| TypeError.
Arguments Normal {A} a.
Arguments TypeError {A}.

(** [String.prototype.toLowerCase] on ASCII text. *)
Definition lower_ascii (c : Ascii.ascii) : Ascii.ascii :=
  let n := Ascii.nat_of_ascii c in
  if andb (Nat.leb 65 n) (Nat.leb n 90) then Ascii.ascii_of_nat (n + 32) else c.

Fixpoint toLowerCase (s : string) : string :=
  match s with
  | EmptyString => EmptyString
  | String c s' => String (lower_ascii c) (toLowerCase s')
  end.

(** [Array.prototype.join(sep)] on an array of texts. *)
Fixpoint join (sep : string) (parts : list Text) : Text :=
  match parts with
  | [] => []
  | [t] => t
  | t :: rest => (t ++ Lit sep :: join sep rest)%list
  end.

End JS.

(** ** js/chemistry.js *)

Module Chemistry.
Import JS.
Open Scope Q_scope.

Record ParameterDef : Type := {
  p_name : string;
  p_unit : string;
  idealMin : Q;
  idealMax : Q;
  levels : list Q
}.

Definition P_freeChlorine : ParameterDef :=
  {| p_name := "Free Chlorine"; p_unit := "ppm"; idealMin := 3; idealMax := 5;
     levels := [0; 1; 2; 3; 5; 10] |}.
Definition P_totalChlorine : ParameterDef :=
  {| p_name := "Total Chlorine"; p_unit := "ppm"; idealMin := 3; idealMax := 5;
     levels := [0; 0.5; 1; 2; 5; 10] |}.
Definition P_bromine : ParameterDef :=
  {| p_name := "Total Bromine"; p_unit := "ppm"; idealMin := 4; idealMax := 6;
     levels := [0; 1; 2; 4; 10; 20] |}.
Definition P_pH : ParameterDef :=
  {| p_name := "pH"; p_unit := ""; idealMin := 7.2; idealMax := 7.8;
     levels := [6.4; 6.8; 7.2; 7.8; 8.4] |}.
Definition P_totalAlkalinity : ParameterDef :=
  {| p_name := "Total Alkalinity"; p_unit := "ppm"; idealMin := 80; idealMax := 120;
     levels := [0; 40; 80; 120; 180; 240] |}.
Definition P_totalHardness : ParameterDef :=
  {| p_name := "Calcium Hardness"; p_unit := "ppm"; idealMin := 175; idealMax := 250;
     levels := [0; 100; 200; 400; 800] |}.
Definition P_cyanuricAcid : ParameterDef :=
  {| p_name := "Cyanuric Acid"; p_unit := "ppm"; idealMin := 30; idealMax := 50;
     levels := [0; 40; 70; 100; 150; 300] |}.

(** The table [PARAMETERS], keyed by parameter key. *)
Definition PARAMETERS : gmap string ParameterDef :=
  list_to_map
    [ ("freeChlorine", P_freeChlorine);
      ("totalChlorine", P_totalChlorine);
      ("bromine", P_bromine);
      ("pH", P_pH);
      ("totalAlkalinity", P_totalAlkalinity);
      ("totalHardness", P_totalHardness);
      ("cyanuricAcid", P_cyanuricAcid) ].

(** A [DOSAGES] entry.  The source names the last field [ppmPer] or [phPer]
    (pH rules); it is the change that [per10kGal] achieves in 10,000
    gallons. *)
Record Dosage : Type := {
  d_chemical : string;
  per10kGal : Q;
  d_unit : string;
  ppmPer : Q
}.
Definition phPer : Dosage -> Q := ppmPer.

Definition alkalinityUp : Dosage :=
  {| d_chemical := "Sodium Bicarbonate (Baking Soda)"; per10kGal := 1.5;
     d_unit := "lbs"; ppmPer := 10 |}.
Definition phUp : Dosage :=
  {| d_chemical := "Soda Ash (Sodium Carbonate)"; per10kGal := 6;
     d_unit := "oz"; ppmPer := 0.2 |}.
Definition phDown : Dosage :=
  {| d_chemical := "Sodium Bisulfate (pH Decreaser)"; per10kGal := 12;
     d_unit := "oz"; ppmPer := 0.2 |}.
Definition chlorineUp : Dosage :=
  {| d_chemical := "Sodium Dichlor (56% Chlorine Granules)"; per10kGal := 2;
     d_unit := "oz"; ppmPer := 1.5 |}.
Definition bromineUp : Dosage :=
  {| d_chemical := "Sodium Bromide + MPS Shock"; per10kGal := 2;
     d_unit := "oz"; ppmPer := 2 |}.
Definition hardnessUp : Dosage :=
  {| d_chemical := "Calcium Chloride"; per10kGal := 1.25;
     d_unit := "lbs"; ppmPer := 10 |}.
Definition cyaUp : Dosage :=
  {| d_chemical := "Cyanuric Acid (Stabilizer)"; per10kGal := 1;
     d_unit := "lbs"; ppmPer := 12 |}.

Definition DOSAGES : gmap string Dosage :=
  list_to_map
    [ ("alkalinityUp", alkalinityUp); ("phUp", phUp); ("phDown", phDown);
      ("chlorineUp", chlorineUp); ("bromineUp", bromineUp);
      ("hardnessUp", hardnessUp); ("cyaUp", cyaUp) ].

Inductive Status : Type := unknown | low | high | ok.

(** For an inherited key [param] is truthy but has no [idealMin] and no
    [idealMax]: both comparisons are against [undefined] and are false. *)
Definition getStatus (paramKey : string) (value : Q) : Status :=
  match get PARAMETERS paramKey with
  | Undefined => unknown
  | Inherited => ok
  | Own param =>
      if Qltb value (idealMin param) then low
      else if Qltb (idealMax param) value then high
      else ok
  end.

(** The string that a status is in the source. *)
Definition Status_toString (s : Status) : string :=
  match s with
  | unknown => "unknown"
  | low => "low"
  | high => "high"
  | ok => "ok"
  end.

(** The argument is any value: [Some s] is the string [s], [None] a value
    that is not a string.  The switch compares with [===], so every value
    other than the three strings takes the default branch. *)
Definition getStatusLabel (status : option string) : string :=
  match status with
  | Some s =>
      if String.eqb s "low" then "LOW"
      else if String.eqb s "high" then "HIGH"
      else if String.eqb s "ok" then "OK"
      else "?"
  | None => "?"
  end.

Definition formatAmount (value : Q) (unit : string) : Text :=
  if String.eqb unit "oz" then
    if Qltb value 0.5 then [Int (Math_round (value * 6)); Lit " teaspoons"]
    else if Qltb value 1 then [Fixed 1 (value * 2); Lit " tablespoons"]
    else if Qltb value 4 then [Fixed 1 value; Lit " oz"]
    else [Fixed 1 value; Lit " oz ("; Fixed 2 (value / 16); Lit " lbs)"]
  else if String.eqb unit "lbs" then
    if Qltb value 0.03 then [Int (Math_round (value * 96)); Lit " teaspoons"]
    else if Qltb value 0.0625 then [Fixed 1 (value * 32); Lit " tablespoons"]
    else if Qltb value 0.25 then [Fixed 1 (value * 16); Lit " oz"]
    else [Fixed 2 value; Lit " lbs ("; Fixed 1 (value * 16); Lit " oz)"]
  else [Fixed 2 value; Lit " "; Lit unit].

(** One treatment step.  [amt] is not a property of the source object: it
    records the branch's local [amt], the raw quantity that the branch hands
    to [formatAmount] and prints in the last line of [calcBreakdown]
    ([None] in the branches that prescribe no chemical quantity). *)
Record Correction : Type := {
  order : Z;
  parameter : string;
  action : Text;
  chemical : string;
  amount : Text;
  waitMinutes : Z;
  reason : Text;
  calcBreakdown : list Text;
  notes : Text;
  amt : option Q
}.


Section Planner.

(** The arguments of [calculateCorrections].  [readings] is the caller's
    panel, an object with one numeric property per measured parameter (no
    key the function reads is a property name of [Object.prototype], so the
    own properties decide); [sanitizerType] is the string the caller passes
    (an omitted argument takes the default ['chlorine']). *)
Variable readings : gmap string Q.
Variable volumeGallons : Q.
Variable sanitizerType : string.

Definition scale : Q := volumeGallons / 10000.
Definition volLabel : Frag := Locale (Math_round volumeGallons).

(* Step 1: Total Alkalinity *)
Definition step_totalAlkalinity : list Correction :=
  match readings !! "totalAlkalinity" with
  | None => []
  | Some val =>
      let p := P_totalAlkalinity in
      let target := (idealMin p + idealMax p) / 2 in
      if Qltb val (idealMin p) then
        let ppmNeeded := target - val in
        let d := alkalinityUp in
        let amt := (ppmNeeded / ppmPer d) * per10kGal d * scale in
        [ {| order := 1;
             parameter := "Total Alkalinity";
             action := [Lit "Raise from "; Num val; Lit " to ~"; Int (Math_round target); Lit " ppm"];
             chemical := d_chemical d;
             amount := formatAmount amt (d_unit d);
             waitMinutes := 20;
             calcBreakdown :=
               [ [Lit "Target: "; Int (Math_round target); Lit " ppm (midpoint of ";
                  Num (idealMin p); Lit "–"; Num (idealMax p); Lit " ideal range)"];
                 [Lit "Raise by: "; Num ppmNeeded; Lit " ppm"];
                 [Lit "Dosage rate: "; Num (per10kGal d); Lit " lbs per "; Num (ppmPer d);
                  Lit " ppm per 10,000 gal"];
                 [Lit "Your spa ("; volLabel; Lit " gal): ("; Num ppmNeeded; Lit " ÷ ";
                  Num (ppmPer d); Lit ") × "; Num (per10kGal d); Lit " × "; Fixed 4 scale;
                  Lit " = "; Fixed 3 amt; Lit " lbs"] ];
             reason := [Lit "Total Alkalinity is your pH buffering system. If TA is low, pH will swing wildly and won't hold after adjustment. Stabilizing the buffer first ensures all subsequent pH changes stick."];
             notes := [Lit "Add slowly with pump running. Retest after 20 minutes."];
             amt := Some amt |} ]
      else if Qltb (idealMax p) val then
        let excess := val - idealMax p in
        let amt := excess * 0.1 * scale in
        [ {| order := 1;
             parameter := "Total Alkalinity";
             action := [Lit "Lower from "; Num val; Lit " to ~"; Num (idealMax p); Lit " ppm"];
             chemical := "Sodium Bisulfate (pH Decreaser)";
             amount := formatAmount amt "oz";
             waitMinutes := 20;
             calcBreakdown :=
               [ [Lit "Target: ≤"; Num (idealMax p); Lit " ppm (top of ideal range)"];
                 [Lit "Excess: "; Num excess; Lit " ppm over maximum"];
                 [Lit "Approximate rate: 0.1 oz per 1 ppm reduction per 10,000 gal"];
                 [Lit "Your spa ("; volLabel; Lit " gal): "; Num excess; Lit " × 0.1 × ";
                  Fixed 4 scale; Lit " = "; Fixed 2 amt; Lit " oz"] ];
             reason := [Lit "High alkalinity resists pH changes and tends to push pH upward. Lowering TA first prevents fighting against the buffer when adjusting pH in the next step."];
             notes := [Lit "Add pH decreaser. This will also lower pH. Aerate to raise pH back if needed."];
             amt := Some amt |} ]
      else []
  end.

(* Step 2: pH *)
Definition step_pH : list Correction :=
  match readings !! "pH" with
  | None => []
  | Some val =>
      let p := P_pH in
      let target := 7.5 in
      if Qltb val (idealMin p) then
        let phNeeded := target - val in
        let d := phUp in
        let amt := (phNeeded / phPer d) * per10kGal d * scale in
        [ {| order := 2;
             parameter := "pH";
             action := [Lit "Raise from "; Fixed 1 val; Lit " to ~"; Num target];
             chemical := d_chemical d;
             amount := formatAmount amt (d_unit d);
             waitMinutes := 20;
             calcBreakdown :=
               [ [Lit "Target: "; Num target; Lit " (center of "; Num (idealMin p); Lit "–";
                  Num (idealMax p); Lit " ideal range)"];
                 [Lit "Raise by: "; Fixed 1 phNeeded; Lit " pH units"];
                 [Lit "Dosage rate: "; Num (per10kGal d); Lit " oz per "; Num (phPer d);
                  Lit " pH per 10,000 gal"];
                 [Lit "Your spa ("; volLabel; Lit " gal): ("; Fixed 1 phNeeded; Lit " ÷ ";
                  Num (phPer d); Lit ") × "; Num (per10kGal d); Lit " × "; Fixed 4 scale;
                  Lit " = "; Fixed 2 amt; Lit " oz"] ];
             reason := [Lit "pH directly controls sanitizer strength. At pH 7.5, chlorine is about 50% active as hypochlorous acid. Below 7.2, water becomes corrosive and irritates skin. Adjusted after alkalinity so the buffer holds this change."];
             notes := [Lit "Add with pump running. Wait 20 min and retest."];
             amt := Some amt |} ]
      else if Qltb (idealMax p) val then
        let phNeeded := val - target in
        let d := phDown in
        let amt := (phNeeded / phPer d) * per10kGal d * scale in
        [ {| order := 2;
             parameter := "pH";
             action := [Lit "Lower from "; Fixed 1 val; Lit " to ~"; Num target];
             chemical := d_chemical d;
             amount := formatAmount amt (d_unit d);
             waitMinutes := 20;
             calcBreakdown :=
               [ [Lit "Target: "; Num target; Lit " (center of "; Num (idealMin p); Lit "–";
                  Num (idealMax p); Lit " ideal range)"];
                 [Lit "Lower by: "; Fixed 1 phNeeded; Lit " pH units"];
                 [Lit "Dosage rate: "; Num (per10kGal d); Lit " oz per "; Num (phPer d);
                  Lit " pH per 10,000 gal"];
                 [Lit "Your spa ("; volLabel; Lit " gal): ("; Fixed 1 phNeeded; Lit " ÷ ";
                  Num (phPer d); Lit ") × "; Num (per10kGal d); Lit " × "; Fixed 4 scale;
                  Lit " = "; Fixed 2 amt; Lit " oz"] ];
             reason := [Lit "High pH dramatically reduces sanitizer effectiveness — at pH 8.0, chlorine is only ~22% active. It also causes cloudy water and scale buildup. Adjusted after alkalinity so the buffer holds this change."];
             notes := [Lit "Add with pump running. Wait 20 min and retest."];
             amt := Some amt |} ]
      else []
  end.

(* Step 3: Calcium Hardness *)
Definition step_totalHardness : list Correction :=
  match readings !! "totalHardness" with
  | None => []
  | Some val =>
      let p := P_totalHardness in
      let target := (idealMin p + idealMax p) / 2 in
      if Qltb val (idealMin p) then
        let ppmNeeded := target - val in
        let d := hardnessUp in
        let amt := (ppmNeeded / ppmPer d) * per10kGal d * scale in
        [ {| order := 3;
             parameter := "Calcium Hardness";
             action := [Lit "Raise from "; Num val; Lit " to ~"; Int (Math_round target); Lit " ppm"];
             chemical := d_chemical d;
             amount := formatAmount amt (d_unit d);
             waitMinutes := 20;
             calcBreakdown :=
               [ [Lit "Target: "; Int (Math_round target); Lit " ppm (midpoint of ";
                  Num (idealMin p); Lit "–"; Num (idealMax p); Lit " ideal range)"];
                 [Lit "Raise by: "; Num ppmNeeded; Lit " ppm"];
                 [Lit "Dosage rate: "; Num (per10kGal d); Lit " lbs per "; Num (ppmPer d);
                  Lit " ppm per 10,000 gal"];
                 [Lit "Your spa ("; volLabel; Lit " gal): ("; Num ppmNeeded; Lit " ÷ ";
                  Num (ppmPer d); Lit ") × "; Num (per10kGal d); Lit " × "; Fixed 4 scale;
                  Lit " = "; Fixed 3 amt; Lit " lbs"] ];
             reason := [Lit "Low calcium makes water "; Lit dquote; Lit "aggressive"; Lit dquote; Lit " — it dissolves minerals from grout, plaster, metal fittings, and heater elements to satisfy its mineral demand. Corrected before sanitizer since corrosive water degrades chlorine faster."];
             notes := [Lit "Pre-dissolve in warm water before adding to spa."];
             amt := Some amt |} ]
      else if Qltb (idealMax p) val then
        let pct := Math_round ((1 - idealMax p / val) * 100) in
        [ {| order := 3;
             parameter := "Calcium Hardness";
             action := [Lit "Lower from "; Num val; Lit " ppm (too high)"];
             chemical := "Partial Water Replacement";
             amount := [Lit "Drain ~"; Int pct; Lit "% and refill with fresh water"];
             waitMinutes := 60;
             calcBreakdown :=
               [ [Lit "Current: "; Num val; Lit " ppm (maximum: "; Num (idealMax p); Lit " ppm)"];
                 [Lit "Dilution needed: ~"; Int pct; Lit "% water replacement"];
                 [Lit "Formula: 1 − ("; Num (idealMax p); Lit " ÷ "; Num val; Lit ") = ";
                  Fixed 2 (1 - idealMax p / val); Lit " ≈ "; Int pct; Lit "%"] ];
             reason := [Lit "High calcium causes white scale deposits on surfaces, jets, and heater elements. There is no chemical that removes dissolved calcium — dilution with fresh water is the only solution."];
             notes := [Lit "Only way to lower calcium hardness is dilution."];
             amt := None |} ]
      else []
  end.

(* Step 4: Sanitizer *)
Definition sanKey : string :=
  if String.eqb sanitizerType "bromine" then "bromine" else "freeChlorine".

(** [sanKey] and [dKey] are always keys of their tables, so [p] and [d] are
    own properties; the other cases of the match cannot occur (lemmas
    [sanKey_own] and [dKey_own]). *)
Definition step_sanitizer : list Correction :=
  match readings !! sanKey with
  | None => []
  | Some val =>
      match get PARAMETERS sanKey with
      | Own p =>
          let target := (idealMin p + idealMax p) / 2 in
          if Qltb val (idealMin p) then
            let ppmNeeded := target - val in
            let dKey := if String.eqb sanitizerType "bromine" then "bromineUp" else "chlorineUp" in
            match get DOSAGES dKey with
            | Own d =>
                let amt := (ppmNeeded / ppmPer d) * per10kGal d * scale in
                [ {| order := 4;
                     parameter := p_name p;
                     action := [Lit "Raise from "; Num val; Lit " to ~"; Num target; Lit " ppm"];
                     chemical := d_chemical d;
                     amount := formatAmount amt (d_unit d);
                     waitMinutes := 15;
                     calcBreakdown :=
                       [ [Lit "Target: "; Num target; Lit " ppm (midpoint of "; Num (idealMin p);
                          Lit "–"; Num (idealMax p); Lit " ideal range)"];
                         [Lit "Raise by: "; Num ppmNeeded; Lit " ppm"];
                         [Lit "Dosage rate: "; Num (per10kGal d); Lit " oz per "; Num (ppmPer d);
                          Lit " ppm per 10,000 gal"];
                         [Lit "Your spa ("; volLabel; Lit " gal): ("; Num ppmNeeded; Lit " ÷ ";
                          Num (ppmPer d); Lit ") × "; Num (per10kGal d); Lit " × "; Fixed 4 scale;
                          Lit " = "; Fixed 2 amt; Lit " oz"] ];
                     reason := [Lit "Sanitizer is added after pH and alkalinity are correct because its effectiveness depends entirely on water balance. At the proper pH of 7.2–7.8, "; Lit (if String.eqb sanitizerType "bromine" then "bromine" else "chlorine"); Lit " works at maximum killing power against bacteria and algae."];
                     notes := [Lit "Add with pump running. Wait 15 min and retest. Don't enter spa until level is safe."];
                     amt := Some amt |} ]
            | _ => []
            end
          else if Qltb (idealMax p) val then
            [ {| order := 4;
                 parameter := p_name p;
                 action := [Lit (p_name p); Lit " is high at "; Num val; Lit " ppm"];
                 chemical := "Wait & Aerate";
                 amount := [Lit "Leave cover off, run jets"];
                 waitMinutes := 30;
                 calcBreakdown :=
                   [ [Lit "Current: "; Num val; Lit " ppm (maximum safe: "; Num (idealMax p);
                      Lit " ppm)"];
                     [Lit "No chemical dosage — natural dissipation through aeration"];
                     [Lit "Running jets with cover off accelerates the process"] ];
                 reason := [Lit "High "; Lit (toLowerCase (p_name p)); Lit " levels dissipate naturally through aeration and UV exposure. No chemical neutralizer is needed — time and air circulation bring levels down safely."];
                 notes := [Lit "Do not use spa until "; Lit (toLowerCase (p_name p));
                           Lit " drops below "; Num (idealMax p); Lit " ppm."];
                 amt := None |} ]
          else []
      | _ => []
      end
  end.

(* Step 5: Cyanuric Acid (chlorine systems only) *)
Definition step_cyanuricAcid : list Correction :=
  if String.eqb sanitizerType "chlorine" then
    match readings !! "cyanuricAcid" with
    | None => []
    | Some val =>
        let p := P_cyanuricAcid in
        let target := (idealMin p + idealMax p) / 2 in
        if Qltb val (idealMin p) then
          let ppmNeeded := target - val in
          let d := cyaUp in
          let amt := (ppmNeeded / ppmPer d) * per10kGal d * scale in
          [ {| order := 5;
               parameter := "Cyanuric Acid";
               action := [Lit "Raise from "; Num val; Lit " to ~"; Int (Math_round target); Lit " ppm"];
               chemical := d_chemical d;
               amount := formatAmount amt (d_unit d);
               waitMinutes := 30;
               calcBreakdown :=
                 [ [Lit "Target: "; Int (Math_round target); Lit " ppm (midpoint of ";
                    Num (idealMin p); Lit "–"; Num (idealMax p); Lit " ideal range)"];
                   [Lit "Raise by: "; Num ppmNeeded; Lit " ppm"];
                   [Lit "Dosage rate: "; Num (per10kGal d); Lit " lbs per "; Num (ppmPer d);
                    Lit " ppm per 10,000 gal"];
                   [Lit "Your spa ("; volLabel; Lit " gal): ("; Num ppmNeeded; Lit " ÷ ";
                    Num (ppmPer d); Lit ") × "; Num (per10kGal d); Lit " × "; Fixed 4 scale;
                    Lit " = "; Fixed 3 amt; Lit " lbs"] ];
               reason := [Lit "Cyanuric acid (CYA) forms a protective bond around chlorine molecules, shielding them from UV destruction. Without it, sunlight destroys ~90% of free chlorine within 2 hours. Done last because CYA dissolves very slowly (24+ hours for full effect)."];
               notes := [Lit "Dissolve in warm water. CYA is slow to dissolve; retest after 24 hours."];
               amt := Some amt |} ]
        else if Qltb (idealMax p) val then
          let pct := Math_round ((1 - idealMax p / val) * 100) in
          [ {| order := 5;
               parameter := "Cyanuric Acid";
               action := [Lit "CYA too high at "; Num val; Lit " ppm"];
               chemical := "Partial Water Replacement";
               amount := [Lit "Drain ~"; Int pct; Lit "% and refill"];
               waitMinutes := 60;
               calcBreakdown :=
                 [ [Lit "Current: "; Num val; Lit " ppm (maximum: "; Num (idealMax p); Lit " ppm)"];
                   [Lit "Dilution needed: ~"; Int pct; Lit "% water replacement"];
                   [Lit "Formula: 1 − ("; Num (idealMax p); Lit " ÷ "; Num val; Lit ") = ";
                    Fixed 2 (1 - idealMax p / val); Lit " ≈ "; Int pct; Lit "%"] ];
               reason := [Lit "Excess CYA "; Lit dquote; Lit "locks up"; Lit dquote; Lit " chlorine — it over-stabilizes the sanitizer so it can't effectively kill bacteria (called "; Lit dquote; Lit "chlorine lock"; Lit dquote; Lit "). Like calcium, CYA cannot be chemically removed; dilution is the only solution."];
               notes := [Lit "High CYA reduces sanitizer effectiveness. Dilution is the only fix."];
               amt := None |} ]
        else []
    end
  else [].

(** The five steps push onto [corrections] in this order; the array is then
    sorted with the comparator [(a, b) => a.order - b.order]. *)
Definition pushed : list Correction :=
  step_totalAlkalinity ++ step_pH ++ step_totalHardness ++ step_sanitizer
    ++ step_cyanuricAcid.

Definition calculateCorrections : list Correction :=
  Array_sort (fun a b => (0 <? order a - order b)%Z) pushed.

End Planner.

(* Build a spoken summary of the test results *)
Definition paramsToRead (sanitizerType : string) : list string :=
  if String.eqb sanitizerType "bromine"
  then ["pH"; "totalAlkalinity"; "totalHardness"; "bromine"]
  else ["pH"; "totalAlkalinity"; "totalHardness"; "freeChlorine"; "cyanuricAcid"].

Definition statusWord (status : Status) : string :=
  match status with
  | ok => "in the ideal range"
  | low => "low"
  | _ => "high"
  end.

(** One turn of the loop over [paramsToRead], on the array [lines].  Every
    key of [paramsToRead] is a key of [PARAMETERS], so [param] is an own
    property; the other cases of the match cannot occur. *)
Definition speech_turn (readings : gmap string Q) (lines : list Text) (key : string)
  : list Text :=
  match readings !! key with
  | None => lines                                 (* continue *)
  | Some val =>
      match get PARAMETERS key with
      | Own param =>
          let status := getStatus key val in
          if String.eqb key "pH" then
            (lines ++ [[Lit "pH is "; Fixed 1 val; Lit ", which is ";
                        Lit (statusWord status); Lit "."]])%list
          else
            (lines ++ [[Lit (p_name param); Lit " is "; Num val; Lit " ";
                        Lit (p_unit param); Lit ", which is ";
                        Lit (statusWord status); Lit "."]])%list
      | _ => lines
      end
  end.

Definition speech_lines (readings : gmap string Q) (sanitizerType : string)
  : list Text :=
  fold_left (speech_turn readings) (paramsToRead sanitizerType)
    [[Lit "Here are your spa water test results."]].

Definition buildSpeechScript (readings : gmap string Q) (sanitizerType : string)
  : Text :=
  join " " (speech_lines readings sanitizerType).

End Chemistry.

(** ** js/app.js: the callers of the planner *)

Module App.
Import JS Chemistry.
Open Scope Q_scope.

(** [getVolumeInGallons], as a function of [state.volume] and
    [state.volumeUnit]. *)
Definition getVolumeInGallons (volume : Q) (volumeUnit : string) : Q :=
  if String.eqb volumeUnit "liters" then volume * 0.264172 else volume.

(** [getAnalysisParams], as a function of [state.sanitizerType]. *)
Definition getAnalysisParams (sanitizerType : string) : list string :=
  if String.eqb sanitizerType "bromine"
  then ["bromine"; "pH"; "totalAlkalinity"; "totalHardness"]
  else ["freeChlorine"; "pH"; "totalAlkalinity"; "totalHardness"; "cyanuricAcid"].

(** The test [allOk] of [renderResults]:
    [params.every(k => readings[k] === undefined || getStatus(k, readings[k]) === 'ok')]. *)
Definition allOk (params : list string) (readings : gmap string Q) : bool :=
  forallb
    (fun k => match readings !! k with
              | None => true
              | Some val => match getStatus k val with ok => true | _ => false end
              end)
    params.

(** [array.slice(-n)]: the last [n] elements. *)
Definition slice_last {A : Type} (n : nat) (l : list A) : list A :=
  skipn (length l - n) l.

(** [saveHistory] on [state.history]: keep the last 50 entries (the result
    is also what is written to local storage). *)
Definition saveHistory {A : Type} (history : list A) : list A :=
  if Nat.ltb 50 (length history) then slice_last 50 history else history.

(** The click handler of the save button: push the entry, then
    [saveHistory]. *)
Definition saveResults {A : Type} (history : list A) (entry : A) : list A :=
  saveHistory (history ++ [entry])%list.

End App.

(** ** js/calendar.js *)

Module Calendar.
Import JS Chemistry.
Open Scope Z_scope.

(** [n.toString()] for an integer. *)
Definition toString (n : Z) : string := NilZero.string_of_int (Z.to_int n).

(** [s.padStart(2, '0')]. *)
Definition padStart2 (s : string) : string :=
  match String.length s with
  | O => "00"
  | S O => "0" ++ s
  | _ => s
  end.

Definition pad (n : Z) : string := padStart2 (toString n).

Definition backslash : string := String "092"%char EmptyString.
Definition LF : ascii := "010"%char.
Definition CRLF : string := String "013"%char (String "010"%char EmptyString).

(** [s.replace(/c/g, repl)] for a pattern of one character. *)
Fixpoint replaceAll (c : ascii) (repl : string) (s : string) : string :=
  match s with
  | EmptyString => EmptyString
  | String a s' =>
      if Ascii.eqb a c then repl ++ replaceAll c repl s'
      else String a (replaceAll c repl s')
  end.

Definition escapeICS (text : string) : string :=
  replaceAll LF (backslash ++ "n")
    (replaceAll ","%char (backslash ++ ",")
       (replaceAll ";"%char (backslash ++ ";")
          (replaceAll "092"%char (backslash ++ backslash) text))).

Section Environment.

(** A [Date] is its time value in milliseconds.  Its local-time getters
    depend on the time zone of the environment.  [uid i] is what the call
    number [i] of [uid()] returns (it reads the clock and the random
    generator).  [render] is the string a fragment text stands for. *)
Variables getFullYear getMonth getDate getHours getMinutes : Z -> Z.
Variable uid : nat -> string.
Variable render : Text -> string.

Definition formatDate (date : Z) : string :=
  toString (getFullYear date) ++ pad (getMonth date + 1) ++ pad (getDate date)
    ++ "T" ++ pad (getHours date) ++ pad (getMinutes date) ++ "00".

(* Generate a single ICS event; [u] is the result of its call of uid() *)
Definition makeEvent (u : string) (title : string) (startDate : Z)
    (durationMinutes : Z) (description : string) (alarmMinutes : Z) : string :=
  let endDate := startDate + durationMinutes * 60000 in
  String.concat CRLF
    [ "BEGIN:VEVENT";
      "UID:" ++ u;
      "DTSTART:" ++ formatDate startDate;
      "DTEND:" ++ formatDate endDate;
      "SUMMARY:" ++ escapeICS title;
      "DESCRIPTION:" ++ escapeICS description;
      "BEGIN:VALARM";
      "TRIGGER:-PT" ++ toString alarmMinutes ++ "M";
      "ACTION:DISPLAY";
      "DESCRIPTION:" ++ escapeICS title;
      "END:VALARM";
      "END:VEVENT" ].

(** The text of one event of a correction, number [i] (from 0). *)
Definition correctionTitle (c : Correction) : string := "Spa: " ++ render (action c).

Definition correctionDescription (c : Correction) (i : nat) : string :=
  String.concat (backslash ++ "n")
    [ "Step " ++ toString (Z.of_nat i + 1) ++ ": " ++ parameter c;
      "Chemical: " ++ chemical c;
      "Amount: " ++ render (amount c);
      "Notes: " ++ render (notes c) ].

(** One call of the callback of [corrections.map], on the state
    [(currentTime, i, events so far)]. *)
Definition event_turn (st : Z * nat * list string) (c : Correction)
  : Z * nat * list string :=
  let '(currentTime, i, events) := st in
  let event :=
    makeEvent (uid i) (correctionTitle c) currentTime (waitMinutes c)
      (correctionDescription c i) 15 in
  (currentTime + waitMinutes c * 60000, S i, (events ++ [event])%list).

(** [startTime || new Date(Date.now() + 30 * 60000)]: a Date is truthy. *)
Definition startOf (startTime : option Z) (now : Z) : Z :=
  match startTime with
  | Some t => t
  | None => now + 30 * 60000
  end.

(** The array [events] after the final push. *)
Definition generateICS_events (corrections : list Correction)
    (startTime : option Z) (now : Z) : list string :=
  let start := startOf startTime now in
  let '(currentTime, i, events) :=
    fold_left event_turn corrections (start, O, []) in
  (events ++
   [ makeEvent (uid i) "Spa: Retest Water" currentTime 15
       "All chemicals have been added. Retest your spa water to verify levels are in range."
       15 ])%list.

Definition generateICS (corrections : list Correction)
    (startTime : option Z) (now : Z) : string :=
  String.concat CRLF
    ([ "BEGIN:VCALENDAR"; "VERSION:2.0"; "PRODID:-//SparoBot//Water Test//EN";
       "CALSCALE:GREGORIAN" ]
     ++ generateICS_events corrections startTime now
     ++ [ "END:VCALENDAR" ])%list.

End Environment.

End Calendar.

(** ** js/colorChart.js *)

Module ColorChart.
Import JS.
Open Scope R_scope.

Record RefColor : Type := { value : R; r : R; g : R; b : R }.

Record Chart : Type := { name : string; key : string; colors : list RefColor }.

Definition rc (v r0 g0 b0 : R) : RefColor := {| value := v; r := r0; g := g0; b := b0 |}.

Definition C_freeChlorine : Chart :=
  {| name := "Free Chlorine"; key := "freeChlorine";
     colors := [ rc 0 255 248 240; rc 1 255 210 210; rc 2 255 170 170;
                 rc 3 245 130 145; rc 5 220 80 110; rc 10 190 40 80 ] |}.
Definition C_totalChlorine : Chart :=
  {| name := "Total Chlorine"; key := "totalChlorine";
     colors := [ rc 0 255 248 240; rc 0.5 255 225 220; rc 1 255 195 185;
                 rc 2 250 150 135; rc 5 225 95 80; rc 10 195 55 40 ] |}.
Definition C_bromine : Chart :=
  {| name := "Total Bromine"; key := "bromine";
     colors := [ rc 0 255 250 240; rc 1 255 225 210; rc 2 255 195 175;
                 rc 4 245 145 125; rc 10 220 90 70; rc 20 185 50 35 ] |}.
Definition C_pH : Chart :=
  {| name := "pH"; key := "pH";
     colors := [ rc 6.4 235 200 65; rc 6.8 225 180 55; rc 7.2 215 150 55;
                 rc 7.8 195 105 60; rc 8.4 165 65 85 ] |}.
Definition C_totalAlkalinity : Chart :=
  {| name := "Total Alkalinity"; key := "totalAlkalinity";
     colors := [ rc 0 225 210 55; rc 40 185 210 60; rc 80 110 190 75;
                 rc 120 60 160 70; rc 180 45 135 100; rc 240 40 110 135 ] |}.
Definition C_totalHardness : Chart :=
  {| name := "Calcium Hardness"; key := "totalHardness";
     colors := [ rc 0 55 170 135; rc 100 75 120 180; rc 200 110 90 170;
                 rc 400 155 60 130; rc 800 200 45 80 ] |}.
Definition C_cyanuricAcid : Chart :=
  {| name := "Cyanuric Acid"; key := "cyanuricAcid";
     colors := [ rc 0 235 220 195; rc 40 200 180 140; rc 70 175 155 115;
                 rc 100 145 125 90; rc 150 115 95 65; rc 300 80 65 45 ] |}.

Definition COLOR_CHARTS : gmap string Chart :=
  list_to_map
    [ ("freeChlorine", C_freeChlorine); ("totalChlorine", C_totalChlorine);
      ("bromine", C_bromine); ("pH", C_pH);
      ("totalAlkalinity", C_totalAlkalinity);
      ("totalHardness", C_totalHardness); ("cyanuricAcid", C_cyanuricAcid) ].

(** [Math.pow(x, y)] for a positive base [x] (the only use below). *)
Definition Math_pow (x y : R) : R := Rpower x y.

(** [Math.cbrt]: the real cube root. *)
Definition Math_cbrt (t : R) : R :=
  if Rlt_dec 0 t then Rpower t (/ 3)
  else if Rlt_dec t 0 then - Rpower (- t) (/ 3)
  else 0.

(** [Math.sqrt] for a non-negative argument (the only use below). *)
Definition Math_sqrt (x : R) : R := sqrt x.

(** [Math.round] on reals: [floor (x + 1/2)]. *)
Definition Math_roundR (x : R) : Z := Int_part (x + / 2).

Record Lab : Type := { lab_l : R; lab_a : R; lab_b : R }.

Definition linearize (c : R) : R :=
  if Rlt_dec 0.04045 c then Math_pow ((c + 0.055) / 1.055) 2.4 else c / 12.92.

Definition xRef : R := 0.95047.
Definition yRef : R := 1.0.
Definition zRef : R := 1.08883.

Definition f (t : R) : R :=
  if Rlt_dec 0.008856 t then Math_cbrt t else (t * 7.787) + 16 / 116.

(* sRGB (0-1) to CIELAB *)
Definition rgbToLab (r0 g0 b0 : R) : Lab :=
  let rL := linearize r0 in
  let gL := linearize g0 in
  let bL := linearize b0 in
  let x := rL * 0.4124564 + gL * 0.3575761 + bL * 0.1804375 in
  let y := rL * 0.2126729 + gL * 0.7151522 + bL * 0.0721750 in
  let z := rL * 0.0193339 + gL * 0.1191920 + bL * 0.9503041 in
  let fx := f (x / xRef) in
  let fy := f (y / yRef) in
  let fz := f (z / zRef) in
  {| lab_l := 116 * fy - 16;
     lab_a := 500 * (fx - fy);
     lab_b := 200 * (fy - fz) |}.

(* CIE76 Delta-E (Euclidean distance in Lab space) *)
Definition deltaE76 (lab1 lab2 : Lab) : R :=
  let dl := lab_l lab1 - lab_l lab2 in
  let da := lab_a lab1 - lab_a lab2 in
  let db := lab_b lab1 - lab_b lab2 in
  Math_sqrt (dl * dl + da * da + db * db).

(** The distance of a sample (already in Lab) to a reference colour. *)
Definition refDeltaE (sampledLab : Lab) (ref : RefColor) : R :=
  let refLab := rgbToLab (r ref / 255) (g ref / 255) (b ref / 255) in
  deltaE76 sampledLab refLab.

(** The result object of [matchColor]. *)
Record Match : Type := { m_value : R; m_deltaE : R; refColor : RefColor }.

(** One turn of the loop of [matchColor] on the pair
    [(bestMatch, bestDeltaE)]; the initial [(null, Infinity)] is [None]. *)
Definition matchColor_step (sampledLab : Lab) (best : option (RefColor * R))
    (ref : RefColor) : option (RefColor * R) :=
  let dE := refDeltaE sampledLab ref in
  match best with
  | None => Some (ref, dE)
  | Some (bestMatch, bestDeltaE) =>
      if Rlt_dec dE bestDeltaE then Some (ref, dE) else best
  end.

(* Match a sampled RGB color against a reference chart *)
Definition matchColor (sampledR sampledG sampledB : R) (chartKey : string)
  : Completion (option Match) :=
  match get COLOR_CHARTS chartKey with
  | Undefined => Normal None
  | Inherited => TypeError        (* chart.colors is undefined: not iterable *)
  | Own chart =>
      let sampledLab := rgbToLab (sampledR / 255) (sampledG / 255) (sampledB / 255) in
      match fold_left (matchColor_step sampledLab) (colors chart) None with
      | None => TypeError         (* bestMatch is null *)
      | Some (bestMatch, bestDeltaE) =>
          Normal (Some {| m_value := value bestMatch;
                          m_deltaE := bestDeltaE;
                          refColor := bestMatch |})
      end
  end.

Inductive Confidence : Type := High | Medium | Low.

(** The result object of [matchColorInterpolated]. *)
Record Interpolated : Type := { i_value : R; i_deltaE : R; confidence : Confidence }.

(** An element of [matches]: [{ ref, deltaE }]. *)
Definition Scored : Type := (RefColor * R)%type.

(** The comparator [(a, b) => a.deltaE - b.deltaE] is positive. *)
Definition byDeltaE (a0 b0 : Scored) : bool :=
  if Rlt_dec 0 (snd a0 - snd b0) then true else false.

(* Interpolated match: inverse-distance weighting between two closest matches *)
Definition matchColorInterpolated (sampledR sampledG sampledB : R) (chartKey : string)
  : Completion (option Interpolated) :=
  match get COLOR_CHARTS chartKey with
  | Undefined => Normal None
  | Inherited => TypeError        (* chart.colors is undefined: no .map *)
  | Own chart =>
      let sampledLab := rgbToLab (sampledR / 255) (sampledG / 255) (sampledB / 255) in
      let matches :=
        Array_sort byDeltaE
          (map (fun ref => (ref, refDeltaE sampledLab ref)) (colors chart)) in
      match matches with
      | [] => TypeError           (* m1 is undefined *)
      | m1 :: rest =>
          if Rlt_dec (snd m1) 1 then
            Normal (Some {| i_value := value (fst m1); i_deltaE := snd m1;
                            confidence := High |})
          else
            match rest with
            | [] => TypeError     (* m2 is undefined *)
            | m2 :: _ =>
                let w1 := 1 / Rmax (snd m1) 0.001 in
                let w2 := 1 / Rmax (snd m2) 0.001 in
                let v := (value (fst m1) * w1 + value (fst m2) * w2) / (w1 + w2) in
                let conf :=
                  if Rlt_dec (snd m1) 10 then High
                  else if Rlt_dec (snd m1) 25 then Medium else Low in
                Normal (Some {| i_value := IZR (Math_roundR (v * 10)) / 10;
                                i_deltaE := snd m1;
                                confidence := conf |})
            end
      end
  end.

(** Extract average color from a rectangular region of an image (via canvas).

    [canvas] is given by its integer [width] and [height], [ctx] by its
    method [getImageData], which returns the [data] array of the requested
    rectangle: four numbers (red, green, blue, alpha) per pixel.  The
    coordinates [x] and [y] are rationals; [sampleRadius] is an integer, as
    in the call of the application (12) and by default (15). *)
Record Rect : Type := { sx : Z; sy : Z; sw : Z; sh : Z }.

(** The rectangle the function asks [getImageData] for, or [None] where it
    returns [null] before asking. *)
Definition sampleRect (width height : Z) (x y : Q) (sampleRadius : Z) : option Rect :=
  let size := (sampleRadius * 2)%Z in
  let sx0 := Z.max 0 (Math_round (x - inject_Z sampleRadius)%Q) in
  let sy0 := Z.max 0 (Math_round (y - inject_Z sampleRadius)%Q) in
  let sw0 := Z.min size (width - sx0) in
  let sh0 := Z.min size (height - sy0) in
  if (sw0 <=? 0)%Z || (sh0 <=? 0)%Z then None
  else Some {| sx := sx0; sy := sy0; sw := sw0; sh := sh0 |}.

(** The loop [for (let i = 0; i < data.length; i += 4)] on the totals
    [(totalR, totalG, totalB)]; the length of an image data array is a
    multiple of 4. *)
Fixpoint sumChannels (data : list Z) (total : Z * Z * Z) : Z * Z * Z :=
  match data with
  | r0 :: g0 :: b0 :: _ :: rest =>
      let '(totalR, totalG, totalB) := total in
      sumChannels rest (totalR + r0, totalG + g0, totalB + b0)%Z
  | _ => total
  end.

Record Color : Type := { c_r : Z; c_g : Z; c_b : Z }.

Definition extractAverageColor (getImageData : Z -> Z -> Z -> Z -> list Z)
    (width height : Z) (x y : Q) (sampleRadius : Z) : option Color :=
  match sampleRect width height x y sampleRadius with
  | None => None
  | Some rect =>
      let data := getImageData (sx rect) (sy rect) (sw rect) (sh rect) in
      let pixelCount := (sw rect * sh rect)%Z in
      let '(totalR, totalG, totalB) := sumChannels data (0, 0, 0)%Z in
      Some {| c_r := Math_round (inject_Z totalR / inject_Z pixelCount)%Q;
              c_g := Math_round (inject_Z totalG / inject_Z pixelCount)%Q;
              c_b := Math_round (inject_Z totalB / inject_Z pixelCount)%Q |}
  end.

End ColorChart.

(** * Definitions used to state the properties *)

(** ** The dosage planner *)

Module PlannerSpec.
Import JS Chemistry.
Open Scope Q_scope.

(** Each step pushes nothing or one correction of its own tier. *)
Definition pushes (n : Z) (l : list Correction) : Prop :=
  l = [] \/ exists c, l = [c] /\ order c = n.

(** A reading outside the ideal band of a parameter. *)
Definition out_of_range (p : ParameterDef) (val : Q) : Prop :=
  val < idealMin p \/ idealMax p < val.

(** The parameter the sanitizer step works on. *)
Definition sanParam (st : string) : ParameterDef :=
  if String.eqb st "bromine" then P_bromine else P_freeChlorine.

(** The second raw quantity is [k] times the first; none stays none. *)
Definition scaled (k : Q) (a1 a2 : option Q) : Prop :=
  match a1, a2 with
  | Some x, Some y => y == k * x
  | None, None => True
  | _, _ => False
  end.

(** Two corrections are the same step with the raw quantity multiplied by
    [k]; a step without a raw quantity (dilution, wait and aerate) is the
    same correction. *)
Definition same_step_scaled (k : Q) (c1 c2 : Correction) : Prop :=
  order c1 = order c2 /\ parameter c1 = parameter c2 /\
  action c1 = action c2 /\ chemical c1 = chemical c2 /\
  scaled k (amt c1) (amt c2) /\
  (amt c1 = None -> c2 = c1).

(** The raise rules in the words of the specification: for each step of
    the treatment order, the panel key it reads, its parameter, its dosage
    rule and its target.  The sanitizer step reads bromine or free chlorine
    according to the sanitizer type, and the cyanuric acid step exists for
    chlorine only. *)
Record RaiseRule : Type := {
  rr_tier : Z;
  rr_key : string;
  rr_param : ParameterDef;
  rr_dosage : Dosage;
  rr_target : Q
}.

Definition midpoint (p : ParameterDef) : Q := (idealMin p + idealMax p) / 2.

Definition raise_rules (st : string) : list RaiseRule :=
  [ {| rr_tier := 1; rr_key := "totalAlkalinity"; rr_param := P_totalAlkalinity;
       rr_dosage := alkalinityUp; rr_target := midpoint P_totalAlkalinity |};
    {| rr_tier := 2; rr_key := "pH"; rr_param := P_pH;
       rr_dosage := phUp; rr_target := 7.5 |};
    {| rr_tier := 3; rr_key := "totalHardness"; rr_param := P_totalHardness;
       rr_dosage := hardnessUp; rr_target := midpoint P_totalHardness |} ]
  ++ (if String.eqb st "bromine"
      then [ {| rr_tier := 4; rr_key := "bromine"; rr_param := P_bromine;
                rr_dosage := bromineUp; rr_target := midpoint P_bromine |} ]
      else [ {| rr_tier := 4; rr_key := "freeChlorine"; rr_param := P_freeChlorine;
                rr_dosage := chlorineUp; rr_target := midpoint P_freeChlorine |} ])
  ++ (if String.eqb st "chlorine"
      then [ {| rr_tier := 5; rr_key := "cyanuricAcid"; rr_param := P_cyanuricAcid;
                rr_dosage := cyaUp; rr_target := midpoint P_cyanuricAcid |} ]
      else []).

Definition raise_amount (rr : RaiseRule) (val volume : Q) : Q :=
  (rr_target rr - val) / ppmPer (rr_dosage rr) * per10kGal (rr_dosage rr)
    * (volume / 10000).

(** [c] is the raise correction of the rule [rr] for the reading [val]: its
    raw quantity is the rule's formula and its [amount] is that quantity
    formatted in the rule's unit. *)
Definition raises (rr : RaiseRule) (val volume : Q) (c : Correction) : Prop :=
  order c = rr_tier rr /\
  parameter c = p_name (rr_param rr) /\
  chemical c = d_chemical (rr_dosage rr) /\
  amt c = Some (raise_amount rr val volume) /\
  amount c = formatAmount (raise_amount rr val volume) (d_unit (rr_dosage rr)).

(** A panel with all five readings out of range. *)
Definition panel_all_out : gmap string Q :=
  list_to_map [ ("totalAlkalinity", 60); ("pH", 8.0); ("totalHardness", 100);
                ("freeChlorine", 2); ("cyanuricAcid", 20) ].

(** The panel of the specification's scenario. *)
Definition scenario_panel : gmap string Q :=
  list_to_map [ ("totalAlkalinity", 60); ("pH", 8.0); ("totalHardness", 200);
                ("freeChlorine", 2); ("cyanuricAcid", 20) ].

End PlannerSpec.

(** ** The colour matcher *)

Module MatcherSpec.
Import JS ColorChart.
Open Scope R_scope.

(** The entries of [COLOR_CHARTS]. *)
Definition charts : list Chart :=
  [ C_freeChlorine; C_totalChlorine; C_bromine; C_pH; C_totalAlkalinity;
    C_totalHardness; C_cyanuricAcid ].

(** After the colours [seen], [best] is one of them, at the least
    distance. *)
Definition is_best (sampledLab : Lab) (seen : list RefColor) (best : option (RefColor * R)) : Prop :=
  match best with
  | None => seen = []
  | Some (bm, bd) =>
      In bm seen /\ bd = refDeltaE sampledLab bm /\
      forall x, In x seen -> bd <= refDeltaE sampledLab x
  end.

(** An element of [matches]. *)
Definition scored (sampledLab : Lab) (ref : RefColor) : Scored := (ref, refDeltaE sampledLab ref).

(** The object [matchColorInterpolated] returns, as a function of the two
    closest matches [m1] and [m2]. *)
Definition interpolate (m1 m2 : Scored) : Interpolated :=
  if Rlt_dec (snd m1) 1 then
    {| i_value := value (fst m1); i_deltaE := snd m1; confidence := High |}
  else
    let w1 := 1 / Rmax (snd m1) 0.001 in
    let w2 := 1 / Rmax (snd m2) 0.001 in
    let v := (value (fst m1) * w1 + value (fst m2) * w2) / (w1 + w2) in
    {| i_value := IZR (Math_roundR (v * 10)) / 10;
       i_deltaE := snd m1;
       confidence := if Rlt_dec (snd m1) 10 then High
                     else if Rlt_dec (snd m1) 25 then Medium else Low |}.

(** The least and the greatest concentration of a chart. *)
Definition minValue (c : Chart) : R :=
  match map value (colors c) with
  | [] => 0
  | v :: vs => fold_right Rmin v vs
  end.

Definition maxValue (c : Chart) : R :=
  match map value (colors c) with
  | [] => 0
  | v :: vs => fold_right Rmax v vs
  end.

(** The step function of the specification. *)
Definition confidence_of (d : R) : Confidence :=
  if Rlt_dec d 10 then High else if Rlt_dec d 25 then Medium else Low.

(** High before medium before low. *)
Definition rank (c : Confidence) : nat :=
  match c with High => 0 | Medium => 1 | Low => 2 end.

(** [d] is the distance of the sample to the nearest calibration point. *)
Definition nearest (lab : Lab) (c : Chart) (d : R) : Prop :=
  (exists ref, In ref (colors c) /\ d = refDeltaE lab ref) /\
  (forall ref, In ref (colors c) -> d <= refDeltaE lab ref).

End MatcherSpec.

(** * Properties *)

(** ** The sort *)

Module SortFacts.
Import JS.

Section Sort.
Context {A : Type} (gt : A -> A -> bool).

(** A list in which no element has to go after its successor is left as it
    is. *)
Lemma Array_sort_ordered (l : list A) :
  Sorted (fun x y => gt x y = false) l -> Array_sort gt l = l.
Proof.
  induction 1 as [|x l Hl IH Hx]; simpl; [reflexivity|].
  rewrite IH. destruct Hx as [|y l Hxy]; simpl; [reflexivity|].
  now rewrite Hxy.
Qed.

Lemma sort_insert_In (x y : A) (l : list A) :
  In y (sort_insert gt x l) <-> y = x \/ In y l.
Proof.
  induction l as [|z l IH]; simpl.
  - intuition auto.
  - destruct (gt x z); simpl; rewrite ?IH; intuition auto.
Qed.

Lemma Array_sort_In (y : A) (l : list A) :
  In y (Array_sort gt l) <-> In y l.
Proof.
  induction l as [|x l IH]; simpl; [reflexivity|].
  rewrite sort_insert_In, IH. intuition auto.
Qed.

Lemma sort_insert_length (x : A) (l : list A) :
  length (sort_insert gt x l) = S (length l).
Proof.
  induction l as [|z l IH]; simpl; [reflexivity|].
  destruct (gt x z); simpl; [now rewrite IH | reflexivity].
Qed.

Lemma Array_sort_length (l : list A) :
  length (Array_sort gt l) = length l.
Proof.
  induction l as [|x l IH]; simpl; [reflexivity|].
  now rewrite sort_insert_length, IH.
Qed.

End Sort.

End SortFacts.

(** ** The dosage planner *)

Module PlannerFacts.
Import JS Chemistry PlannerSpec SortFacts.
Open Scope Q_scope.

Lemma Qltb_lt (x y : Q) : Qltb x y = true <-> x < y.
Proof.
  unfold Qltb. rewrite negb_true_iff, <- not_true_iff_false, Qle_bool_iff.
  split; [apply Qnot_le_lt | apply Qlt_not_le].
Qed.

Lemma Qltb_ge (x y : Q) : Qltb x y = false <-> y <= x.
Proof.
  unfold Qltb. rewrite negb_false_iff, Qle_bool_iff. reflexivity.
Qed.

(** The sanitizer step always finds its parameter and its dosage rule. *)
Lemma sanKey_own (st : string) :
  get PARAMETERS (sanKey st)
  = Own (if String.eqb st "bromine" then P_bromine else P_freeChlorine).
Proof. unfold sanKey. destruct (String.eqb st "bromine"); reflexivity. Qed.

Lemma dKey_own (st : string) :
  get DOSAGES (if String.eqb st "bromine" then "bromineUp" else "chlorineUp")
  = Own (if String.eqb st "bromine" then bromineUp else chlorineUp).
Proof. destruct (String.eqb st "bromine"); reflexivity. Qed.

Ltac step_cases :=
  repeat match goal with
  | |- pushes _ (match ?x with _ => _ end) => destruct x eqn:?
  | |- pushes _ [] => left; reflexivity
  | |- pushes _ [_] => right; eexists; split; reflexivity
  end.

Lemma step_totalAlkalinity_pushes rd v : pushes 1 (step_totalAlkalinity rd v).
Proof. unfold step_totalAlkalinity. step_cases. Qed.

Lemma step_pH_pushes rd v : pushes 2 (step_pH rd v).
Proof. unfold step_pH. step_cases. Qed.

Lemma step_totalHardness_pushes rd v : pushes 3 (step_totalHardness rd v).
Proof. unfold step_totalHardness. step_cases. Qed.

Lemma step_sanitizer_pushes rd v st : pushes 4 (step_sanitizer rd v st).
Proof. unfold step_sanitizer. step_cases. Qed.

Lemma step_cyanuricAcid_pushes rd v st : pushes 5 (step_cyanuricAcid rd v st).
Proof. unfold step_cyanuricAcid. step_cases. Qed.

Ltac split_steps rd v st :=
  destruct (step_totalAlkalinity_pushes rd v) as [E1|(c1 & E1 & O1)];
  destruct (step_pH_pushes rd v) as [E2|(c2 & E2 & O2)];
  destruct (step_totalHardness_pushes rd v) as [E3|(c3 & E3 & O3)];
  destruct (step_sanitizer_pushes rd v st) as [E4|(c4 & E4 & O4)];
  destruct (step_cyanuricAcid_pushes rd v st) as [E5|(c5 & E5 & O5)].

(** The pushes are already in tier order, so the final sort changes
    nothing. *)
Lemma calculateCorrections_pushed rd v st :
  calculateCorrections rd v st = pushed rd v st.
Proof.
  unfold calculateCorrections. apply Array_sort_ordered. unfold pushed.
  split_steps rd v st; rewrite E1, E2, E3, E4, E5; simpl;
    repeat (constructor; rewrite ?O1, ?O2, ?O3, ?O4, ?O5; try reflexivity).
Qed.

Lemma out_of_range_tests p val :
  Qltb val (idealMin p) = false -> Qltb (idealMax p) val = false ->
  ~ out_of_range p val.
Proof.
  intros H1%Qltb_ge H2%Qltb_ge [H|H]; eapply Qlt_not_le; eauto.
Qed.

(** What a pushed correction tells about the panel. *)
Ltac inv_step :=
  repeat match goal with
  | |- In _ (match ?x with _ => _ end) -> _ => destruct x eqn:?
  | |- In _ (if ?x then _ else _) -> _ => destruct x eqn:?
  | |- In _ [] -> _ => intros []
  | |- In _ [_] -> _ => intros [<-|[]]; simpl
  end.

Ltac range_side :=
  match goal with
  | H : Qltb _ (idealMin _) = true |- _ => left; apply Qltb_lt; exact H
  | H : Qltb (idealMax _) _ = true |- _ => right; apply Qltb_lt; exact H
  end.

Lemma step_totalAlkalinity_inv rd v c :
  In c (step_totalAlkalinity rd v) ->
  order c = 1%Z /\ parameter c = "Total Alkalinity" /\
  exists val, rd !! "totalAlkalinity" = Some val /\ out_of_range P_totalAlkalinity val.
Proof.
  unfold step_totalAlkalinity. inv_step;
    (split; [reflexivity|split; [reflexivity|eexists; split; [reflexivity|range_side]]]).
Qed.

Lemma step_pH_inv rd v c :
  In c (step_pH rd v) ->
  order c = 2%Z /\ parameter c = "pH" /\
  exists val, rd !! "pH" = Some val /\ out_of_range P_pH val.
Proof.
  unfold step_pH. inv_step;
    (split; [reflexivity|split; [reflexivity|eexists; split; [reflexivity|range_side]]]).
Qed.

Lemma step_totalHardness_inv rd v c :
  In c (step_totalHardness rd v) ->
  order c = 3%Z /\ parameter c = "Calcium Hardness" /\
  exists val, rd !! "totalHardness" = Some val /\ out_of_range P_totalHardness val.
Proof.
  unfold step_totalHardness. inv_step;
    (split; [reflexivity|split; [reflexivity|eexists; split; [reflexivity|range_side]]]).
Qed.

Lemma step_sanitizer_inv rd v st c :
  In c (step_sanitizer rd v st) ->
  order c = 4%Z /\ parameter c = p_name (sanParam st) /\
  exists val, rd !! sanKey st = Some val /\ out_of_range (sanParam st) val.
Proof.
  unfold step_sanitizer. rewrite sanKey_own, dKey_own. fold (sanParam st).
  inv_step;
    (split; [reflexivity|split; [reflexivity|eexists; split; [reflexivity|range_side]]]).
Qed.

Lemma step_cyanuricAcid_inv rd v st c :
  In c (step_cyanuricAcid rd v st) ->
  st = "chlorine" /\ order c = 5%Z /\ parameter c = "Cyanuric Acid" /\
  exists val, rd !! "cyanuricAcid" = Some val /\ out_of_range P_cyanuricAcid val.
Proof.
  unfold step_cyanuricAcid. inv_step;
    (split; [now apply String.eqb_eq|]);
    (split; [reflexivity|split; [reflexivity|eexists; split; [reflexivity|range_side]]]).
Qed.

(** In every plan the tiers increase strictly: at most one correction per
    tier, in tier order. *)
Lemma plan_tiers_increasing rd v st :
  Sorted Z.lt (map order (calculateCorrections rd v st)).
Proof.
  rewrite calculateCorrections_pushed. unfold pushed.
  split_steps rd v st; rewrite E1, E2, E3, E4, E5; simpl;
    rewrite ?O1, ?O2, ?O3, ?O4, ?O5;
    repeat (constructor; try reflexivity).
Qed.

(** An out-of-range reading makes its step push. *)
Ltac out_step Hrd Hout :=
  rewrite Hrd;
  repeat match goal with
  | |- context [if Qltb ?x ?y then _ else _] => destruct (Qltb x y) eqn:?
  end;
  try (eexists; split; reflexivity);
  exfalso; eapply out_of_range_tests; eauto.

Lemma step_totalAlkalinity_out rd v val :
  rd !! "totalAlkalinity" = Some val -> out_of_range P_totalAlkalinity val ->
  exists c, step_totalAlkalinity rd v = [c] /\ order c = 1%Z.
Proof. intros Hrd Hout. unfold step_totalAlkalinity. out_step Hrd Hout. Qed.

Lemma step_pH_out rd v val :
  rd !! "pH" = Some val -> out_of_range P_pH val ->
  exists c, step_pH rd v = [c] /\ order c = 2%Z.
Proof. intros Hrd Hout. unfold step_pH. out_step Hrd Hout. Qed.

Lemma step_totalHardness_out rd v val :
  rd !! "totalHardness" = Some val -> out_of_range P_totalHardness val ->
  exists c, step_totalHardness rd v = [c] /\ order c = 3%Z.
Proof. intros Hrd Hout. unfold step_totalHardness. out_step Hrd Hout. Qed.

Lemma step_sanitizer_out rd v st val :
  rd !! sanKey st = Some val -> out_of_range (sanParam st) val ->
  exists c, step_sanitizer rd v st = [c] /\ order c = 4%Z.
Proof.
  intros Hrd Hout. unfold step_sanitizer.
  rewrite sanKey_own, dKey_own. fold (sanParam st). out_step Hrd Hout.
Qed.

Lemma step_cyanuricAcid_out rd v val :
  rd !! "cyanuricAcid" = Some val -> out_of_range P_cyanuricAcid val ->
  exists c, step_cyanuricAcid rd v "chlorine" = [c] /\ order c = 5%Z.
Proof.
  intros Hrd Hout. unfold step_cyanuricAcid.
  change (String.eqb "chlorine" "chlorine") with true. cbv iota. out_step Hrd Hout.
Qed.

(** C6. When total alkalinity, pH, calcium hardness, free chlorine and
    cyanuric acid are all read and all outside their ideal ranges, and the
    sanitizer type is chlorine, the corrections come back with the order
    fields 1, 2, 3, 4, 5 in that sequence: one correction per tier. *)
Theorem treatment_order_all_out_of_range
    (rd : gmap string Q) (v ta ph ch fc cya : Q) :
  rd !! "totalAlkalinity" = Some ta -> out_of_range P_totalAlkalinity ta ->
  rd !! "pH" = Some ph -> out_of_range P_pH ph ->
  rd !! "totalHardness" = Some ch -> out_of_range P_totalHardness ch ->
  rd !! "freeChlorine" = Some fc -> out_of_range P_freeChlorine fc ->
  rd !! "cyanuricAcid" = Some cya -> out_of_range P_cyanuricAcid cya ->
  map order (calculateCorrections rd v "chlorine") = [1; 2; 3; 4; 5]%Z /\
  NoDup (map order (calculateCorrections rd v "chlorine")).
Proof.
  intros R1 O1 R2 O2 R3 O3 R4 O4 R5 O5.
  destruct (step_totalAlkalinity_out rd v ta R1 O1) as (c1 & E1 & T1).
  destruct (step_pH_out rd v ph R2 O2) as (c2 & E2 & T2).
  destruct (step_totalHardness_out rd v ch R3 O3) as (c3 & E3 & T3).
  destruct (step_sanitizer_out rd v "chlorine" fc R4 O4) as (c4 & E4 & T4).
  destruct (step_cyanuricAcid_out rd v cya R5 O5) as (c5 & E5 & T5).
  rewrite calculateCorrections_pushed. unfold pushed.
  rewrite E1, E2, E3, E4, E5. simpl. rewrite T1, T2, T3, T4, T5.
  split; [reflexivity|].
  repeat (constructor; [rewrite ?elem_of_cons, elem_of_nil; intuition discriminate|]).
  constructor.
Qed.

Lemma treatment_order_all_out_of_range_witness :
  map order (calculateCorrections panel_all_out 400 "chlorine") = [1; 2; 3; 4; 5]%Z /\
  NoDup (map order (calculateCorrections panel_all_out 400 "chlorine")).
Proof.
  apply (treatment_order_all_out_of_range panel_all_out 400 60 8.0 100 2 20);
    first [ reflexivity | left; reflexivity | right; reflexivity ].
Defined.

(** The entries of [PARAMETERS]. *)
Lemma PARAMETERS_entries k p :
  PARAMETERS !! k = Some p ->
  In (k, p)
    [ ("freeChlorine", P_freeChlorine); ("totalChlorine", P_totalChlorine);
      ("bromine", P_bromine); ("pH", P_pH);
      ("totalAlkalinity", P_totalAlkalinity);
      ("totalHardness", P_totalHardness); ("cyanuricAcid", P_cyanuricAcid) ].
Proof.
  intros H. apply list_elem_of_In. unfold PARAMETERS in H.
  now apply elem_of_list_to_map_2 in H.
Qed.

(** C7. A reading that lies in the ideal band of its parameter, the bounds
    [idealMin] and [idealMax] included, produces no correction for that
    parameter, whatever the volume and the sanitizer type. *)
Theorem in_range_no_correction
    (rd : gmap string Q) (v : Q) (st k : string) (p : ParameterDef) (val : Q) :
  PARAMETERS !! k = Some p ->
  rd !! k = Some val ->
  idealMin p <= val -> val <= idealMax p ->
  forall c, In c (calculateCorrections rd v st) -> parameter c <> p_name p.
Proof.
  intros HP Hrd Hlo Hhi c Hin.
  assert (Hin_range : ~ out_of_range p val).
  { intros [H|H]; eapply Qlt_not_le; eauto. }
  rewrite calculateCorrections_pushed in Hin. unfold pushed in Hin.
  rewrite !in_app_iff in Hin.
  apply PARAMETERS_entries in HP. simpl in HP.
  destruct Hin as [Hin|[Hin|[Hin|[Hin|Hin]]]];
    [ apply step_totalAlkalinity_inv in Hin as (_ & Hpar & val' & Hrd' & Hout)
    | apply step_pH_inv in Hin as (_ & Hpar & val' & Hrd' & Hout)
    | apply step_totalHardness_inv in Hin as (_ & Hpar & val' & Hrd' & Hout)
    | apply step_sanitizer_inv in Hin as (_ & Hpar & val' & Hrd' & Hout);
      unfold sanParam, sanKey in *; destruct (String.eqb st "bromine")
    | apply step_cyanuricAcid_inv in Hin as (_ & _ & Hpar & val' & Hrd' & Hout) ];
    rewrite Hpar;
    repeat (destruct HP as [HP|HP]; [injection HP as <- <-; simpl|]);
    try discriminate; try contradiction;
    intros _; rewrite Hrd in Hrd'; injection Hrd' as <-; contradiction.
Qed.

Lemma in_range_no_correction_witness :
  Forall (fun c => parameter c <> p_name P_pH)
    (calculateCorrections {[ "pH" := 7.2 ]} 400 "chlorine").
Proof.
  apply List.Forall_forall.
  apply (in_range_no_correction {[ "pH" := 7.2 ]} 400 "chlorine" "pH" P_pH 7.2);
    first [ reflexivity | discriminate ].
Defined.

Ltac scale_step :=
  repeat match goal with
  | |- context [match ?x with _ => _ end] => destruct x eqn:?
  end;
  constructor; try constructor;
  repeat split; simpl; unfold scale;
  first [ reflexivity | discriminate | intros _; reflexivity | field ].

Lemma step_totalAlkalinity_scale k rd v :
  Forall2 (same_step_scaled k) (step_totalAlkalinity rd v) (step_totalAlkalinity rd (k * v)).
Proof. unfold step_totalAlkalinity. scale_step. Qed.

Lemma step_pH_scale k rd v :
  Forall2 (same_step_scaled k) (step_pH rd v) (step_pH rd (k * v)).
Proof. unfold step_pH. scale_step. Qed.

Lemma step_totalHardness_scale k rd v :
  Forall2 (same_step_scaled k) (step_totalHardness rd v) (step_totalHardness rd (k * v)).
Proof. unfold step_totalHardness. scale_step. Qed.

Lemma step_sanitizer_scale k rd v st :
  Forall2 (same_step_scaled k) (step_sanitizer rd v st) (step_sanitizer rd (k * v) st).
Proof.
  unfold step_sanitizer. rewrite sanKey_own, dKey_own.
  destruct (String.eqb st "bromine"); scale_step.
Qed.

Lemma step_cyanuricAcid_scale k rd v st :
  Forall2 (same_step_scaled k) (step_cyanuricAcid rd v st) (step_cyanuricAcid rd (k * v) st).
Proof. unfold step_cyanuricAcid. scale_step. Qed.

Lemma calculateCorrections_scale k rd v st :
  Forall2 (same_step_scaled k)
    (calculateCorrections rd v st) (calculateCorrections rd (k * v) st).
Proof.
  rewrite !calculateCorrections_pushed. unfold pushed.
  repeat apply Forall2_app;
    auto using step_totalAlkalinity_scale, step_pH_scale, step_totalHardness_scale,
      step_sanitizer_scale, step_cyanuricAcid_scale.
Qed.

(** C2. For every panel, sanitizer type and volume [v], the plan for the
    volume [2 v] has the same steps as the plan for [v], and each raw
    quantity (the [amt] handed to [formatAmount]) is twice the one at [v];
    the steps that prescribe no quantity prescribe none at either volume. *)
Theorem volume_linearity (rd : gmap string Q) (v : Q) (st : string) :
  Forall2 (same_step_scaled 2)
    (calculateCorrections rd v st) (calculateCorrections rd (2 * v) st).
Proof. apply calculateCorrections_scale. Qed.

(** A step of the treatment order whose reading is below the ideal band
    pushes the raise correction of its rule. *)
Lemma raise_correction_present
    (rd : gmap string Q) (v : Q) (st : string) (rr : RaiseRule) (val : Q) :
  In rr (raise_rules st) ->
  rd !! rr_key rr = Some val ->
  val < idealMin (rr_param rr) ->
  exists c, In c (calculateCorrections rd v st) /\ raises rr val v c.
Proof.
  intros Hrr Hrd Hlow%Qltb_lt.
  rewrite calculateCorrections_pushed. unfold pushed.
  unfold raise_rules in Hrr. rewrite !in_app_iff in Hrr. simpl in Hrr.
  destruct Hrr as [[<-|[<-|[<-|[]]]]|[Hrr|Hrr]]; cbn [rr_param rr_key] in Hrd, Hlow.
  - unfold step_totalAlkalinity. cbv zeta. rewrite Hrd, Hlow.
    eexists; split; [left; reflexivity|repeat split].
  - unfold step_pH. cbv zeta. rewrite Hrd, Hlow.
    eexists; split; [rewrite !in_app_iff; right; left; left; reflexivity|repeat split].
  - unfold step_totalHardness. cbv zeta. rewrite Hrd, Hlow.
    eexists; split;
      [rewrite !in_app_iff; right; right; left; left; reflexivity|repeat split].
  - unfold step_sanitizer. rewrite sanKey_own, dKey_own. unfold sanKey.
    destruct (String.eqb st "bromine"); destruct Hrr as [<-|[]];
      cbn [rr_param rr_key] in Hrd, Hlow; cbv zeta; rewrite Hrd, Hlow;
      (eexists; split;
        [rewrite !in_app_iff; right; right; right; left; left; reflexivity
        |repeat split]).
  - unfold step_cyanuricAcid.
    destruct (String.eqb st "chlorine"); [|destruct Hrr].
    destruct Hrr as [<-|[]].
    cbn [rr_param rr_key] in Hrd, Hlow; cbv zeta; rewrite Hrd, Hlow.
    eexists; split;
      [rewrite !in_app_iff; right; right; right; right; left; reflexivity
      |repeat split].
Qed.

Lemma raise_rules_param (st : string) (rr : RaiseRule) :
  In rr (raise_rules st) -> PARAMETERS !! rr_key rr = Some (rr_param rr).
Proof.
  unfold raise_rules. rewrite !in_app_iff. simpl.
  destruct (String.eqb st "bromine"), (String.eqb st "chlorine"); simpl;
    intuition (subst; reflexivity).
Qed.

(** Two corrections of a plan with the same tier are the same correction. *)
Lemma increasing_tiers_inj (l : list Correction) :
  Sorted Z.lt (map order l) ->
  forall c c', In c l -> In c' l -> order c = order c' -> c = c'.
Proof.
  intros H%Sorted_StronglySorted; [|intros x y z; apply Z.lt_trans].
  induction l as [|x l IH]; intros c c' Hc Hc' Ho; [destruct Hc|].
  simpl in H. apply StronglySorted_inv in H as [Hl Hx].
  rewrite List.Forall_forall in Hx.
  destruct Hc as [<-|Hc], Hc' as [<-|Hc']; [reflexivity| | |now apply IH].
  - specialize (Hx (order c') (in_map order _ _ Hc')). lia.
  - specialize (Hx (order c) (in_map order _ _ Hc)). lia.
Qed.

(** Every correction of a plan belongs to a step of the treatment order. *)
Lemma plan_correction_rule rd v st c :
  In c (calculateCorrections rd v st) ->
  exists rr,
    In rr (raise_rules st) /\
    parameter c = p_name (rr_param rr) /\ order c = rr_tier rr.
Proof.
  rewrite calculateCorrections_pushed. unfold pushed, raise_rules.
  rewrite !in_app_iff.
  intros [Hin|[Hin|[Hin|[Hin|Hin]]]].
  - apply step_totalAlkalinity_inv in Hin as (Ho & Hp & _).
    eexists. split; [apply in_or_app; left; left; reflexivity|]. now split.
  - apply step_pH_inv in Hin as (Ho & Hp & _).
    eexists. split; [apply in_or_app; left; right; left; reflexivity|]. now split.
  - apply step_totalHardness_inv in Hin as (Ho & Hp & _).
    eexists. split; [apply in_or_app; left; right; right; left; reflexivity|].
    now split.
  - apply step_sanitizer_inv in Hin as (Ho & Hp & _). unfold sanParam in Hp.
    destruct (String.eqb st "bromine");
      (eexists; split;
        [apply in_or_app; right; apply in_or_app; left; left; reflexivity|];
        now split).
  - apply step_cyanuricAcid_inv in Hin as (-> & Ho & Hp & _).
    eexists. split;
      [apply in_or_app; right; apply in_or_app; right; left; reflexivity|].
    now split.
Qed.

(** Distinct parameters have distinct display names. *)
Lemma PARAMETERS_name_inj k1 p1 k2 p2 :
  PARAMETERS !! k1 = Some p1 -> PARAMETERS !! k2 = Some p2 ->
  p_name p1 = p_name p2 -> k1 = k2.
Proof.
  intros H1%PARAMETERS_entries H2%PARAMETERS_entries. simpl in H1, H2.
  repeat (destruct H1 as [H1|H1]; [injection H1 as <- <-|]); try contradiction;
    repeat (destruct H2 as [H2|H2]; [injection H2 as <- <-|]); try contradiction;
    simpl; intros; first [reflexivity | discriminate].
Qed.

(** C3. Take any parameter that the panel reads strictly below its
    [idealMin].  Every correction of the plan for that parameter is the raise
    correction of a rule of the treatment order: its raw quantity is
    [(target - reading) / ruleUnitChange * ruleQuantityPer10k * (volume / 10000)],
    with the midpoint of the ideal range as target, and 7.5 for pH.  And
    whenever the treatment order has a step for the parameter under the
    sanitizer type, the plan holds that correction. *)
Theorem raise_amount_formula
    (rd : gmap string Q) (v : Q) (st k : string) (p : ParameterDef) (val : Q) :
  PARAMETERS !! k = Some p ->
  rd !! k = Some val ->
  val < idealMin p ->
  (forall c, In c (calculateCorrections rd v st) -> parameter c = p_name p ->
     exists rr, In rr (raise_rules st) /\ rr_key rr = k /\ raises rr val v c) /\
  (forall rr, In rr (raise_rules st) -> rr_key rr = k ->
     exists c, In c (calculateCorrections rd v st) /\ raises rr val v c).
Proof.
  intros HP Hrd Hlow.
  assert (Hpresent : forall rr, In rr (raise_rules st) -> rr_key rr = k ->
            exists c, In c (calculateCorrections rd v st) /\ raises rr val v c).
  { intros rr Hrr Hk. pose proof (raise_rules_param st rr Hrr) as Hparam.
    rewrite Hk, HP in Hparam. injection Hparam as Hparam.
    apply raise_correction_present; [assumption|now rewrite Hk|now rewrite <- Hparam]. }
  split; [|exact Hpresent].
  intros c Hc Hname.
  destruct (plan_correction_rule rd v st c Hc) as (rr & Hrr & Hn & Htier).
  assert (Hk : rr_key rr = k).
  { apply (PARAMETERS_name_inj _ (rr_param rr) _ p); [|assumption|congruence].
    now apply (raise_rules_param st). }
  exists rr. split; [assumption|]. split; [assumption|].
  destruct (Hpresent rr Hrr Hk) as (c' & Hc' & Hraises).
  assert (c = c') as ->; [|assumption].
  apply (increasing_tiers_inj _ (plan_tiers_increasing rd v st)); try assumption.
  rewrite Htier. symmetry. apply Hraises.
Qed.

Lemma raise_amount_formula_witness :
  exists c,
    In c (calculateCorrections {[ "pH" := 7.0 ]} 400 "chlorine") /\
    order c = 2%Z /\
    parameter c = "pH" /\
    chemical c = "Soda Ash (Sodium Carbonate)" /\
    amt c = Some ((7.5 - 7.0) / 0.2 * 6 * (400 / 10000)) /\
    amount c = formatAmount ((7.5 - 7.0) / 0.2 * 6 * (400 / 10000)) "oz".
Proof.
  destruct (raise_amount_formula {[ "pH" := 7.0 ]} 400 "chlorine" "pH" P_pH 7.0)
    as [_ H]; [reflexivity | reflexivity | reflexivity |].
  apply (H {| rr_tier := 2; rr_key := "pH"; rr_param := P_pH;
              rr_dosage := phUp; rr_target := 7.5 |});
    [ right; left; reflexivity | reflexivity ].
Defined.

(** C8, as stated, fails: the plan of the scenario has four corrections,
    not five. *)
Lemma scenario_not_five_corrections :
  length (calculateCorrections scenario_panel 400 "chlorine") <> 5%nat.
Proof. vm_compute. discriminate. Qed.

(** C8, amended.  For the scenario panel, 400 gallons and chlorine, the plan
    has exactly four corrections, of tiers 1, 2, 4, 5: total alkalinity raised
    from 60 to about 100, pH lowered from 8.0 to 7.5, free chlorine raised
    from 2 to about 4, cyanuric acid raised from 20 to about 40.  There is no
    calcium hardness step.  The raw quantities are 0.24 lbs, 1.2 oz, 8/75 oz
    and 1/15 lbs. *)
Theorem scenario_plan :
  let plan := calculateCorrections scenario_panel 400 "chlorine" in
  length plan = 4%nat /\
  map order plan = [1; 2; 4; 5]%Z /\
  map parameter plan
    = ["Total Alkalinity"; "pH"; "Free Chlorine"; "Cyanuric Acid"] /\
  map action plan
    = [ [Lit "Raise from "; Num 60; Lit " to ~"; Int 100; Lit " ppm"];
        [Lit "Lower from "; Fixed 1 8.0; Lit " to ~"; Num 7.5];
        [Lit "Raise from "; Num 2; Lit " to ~"; Num ((3 + 5) / 2); Lit " ppm"];
        [Lit "Raise from "; Num 20; Lit " to ~"; Int 40; Lit " ppm"] ] /\
  (3 + 5) / 2 == 4 /\
  Forall2 (fun c q => exists a, amt c = Some a /\ a == q) plan
    [0.24; 1.2; 8 # 75; 1 # 15] /\
  (forall c, In c plan -> parameter c <> "Calcium Hardness").
Proof.
  vm_compute.
  repeat split; try reflexivity.
  - repeat (constructor; [eexists; split; reflexivity|]). constructor.
  - intros c [<-|[<-|[<-|[<-|[]]]]]; discriminate.
Qed.

(** Steps of tier [n] survive, or not, a filter on the tier. *)
Lemma pushes_filter (keep : Z -> bool) (n : Z) (l : list Correction) :
  pushes n l ->
  List.filter (fun c => keep (order c)) l = if keep n then l else [].
Proof.
  intros [->|(c & -> & Hc)]; simpl; [now destruct (keep n)|].
  rewrite Hc. now destruct (keep n).
Qed.

Lemma pushed_filter (keep : Z -> bool) rd v st :
  List.filter (fun c => keep (order c)) (pushed rd v st)
  = ((if keep 1%Z then step_totalAlkalinity rd v else [])
     ++ (if keep 2%Z then step_pH rd v else [])
     ++ (if keep 3%Z then step_totalHardness rd v else [])
     ++ (if keep 4%Z then step_sanitizer rd v st else [])
     ++ (if keep 5%Z then step_cyanuricAcid rd v st else []))%list.
Proof.
  unfold pushed. rewrite !List.filter_app.
  rewrite (pushes_filter keep 1 _ (step_totalAlkalinity_pushes rd v)).
  rewrite (pushes_filter keep 2 _ (step_pH_pushes rd v)).
  rewrite (pushes_filter keep 3 _ (step_totalHardness_pushes rd v)).
  rewrite (pushes_filter keep 4 _ (step_sanitizer_pushes rd v st)).
  rewrite (pushes_filter keep 5 _ (step_cyanuricAcid_pushes rd v st)).
  reflexivity.
Qed.

Lemma step_sanitizer_not_bromine rd v st :
  st <> "bromine" -> step_sanitizer rd v st = step_sanitizer rd v "chlorine".
Proof.
  intros H%String.eqb_neq. unfold step_sanitizer, sanKey. rewrite H. reflexivity.
Qed.

Lemma step_cyanuricAcid_not_chlorine rd v st :
  st <> "chlorine" -> step_cyanuricAcid rd v st = [].
Proof.
  intros H%String.eqb_neq. unfold step_cyanuricAcid. now rewrite H.
Qed.

(** C10. For a sanitizer type other than "bromine", the sanitizer step is
    the free chlorine step.  It reads the free chlorine reading: below 3 ppm
    it pushes the tier-4 correction of the parameter Free Chlorine, dosed
    with the chlorine rule (2 oz of Sodium Dichlor per 1.5 ppm per 10,000
    gallons, towards the target 4 ppm); above 5 ppm it pushes the tier-4
    correction "Wait & Aerate" of Free Chlorine; and every tier-4 correction
    of the plan comes from a free chlorine reading outside 3-5 ppm.  In
    particular the tier-4 part of the plan is the one of a chlorine system.
    A cyanuric acid correction (tier 5) appears only for the type
    "chlorine"; so for a type that is neither "bromine" nor "chlorine" the
    plan is the chlorine plan without its cyanuric acid step. *)
Theorem unrecognized_sanitizer_is_chlorine_without_CYA
    (rd : gmap string Q) (v : Q) (st : string) :
  st <> "bromine" ->
  (forall val, rd !! "freeChlorine" = Some val -> val < 3 ->
     exists c a,
       In c (calculateCorrections rd v st) /\ order c = 4%Z /\
       parameter c = "Free Chlorine" /\
       chemical c = "Sodium Dichlor (56% Chlorine Granules)" /\
       amt c = Some a /\ a == (4 - val) / 1.5 * 2 * (v / 10000) /\
       amount c = formatAmount a "oz") /\
  (forall val, rd !! "freeChlorine" = Some val -> 5 < val ->
     exists c,
       In c (calculateCorrections rd v st) /\ order c = 4%Z /\
       parameter c = "Free Chlorine" /\ chemical c = "Wait & Aerate" /\
       amt c = None) /\
  List.filter (fun c => (order c =? 4)%Z) (calculateCorrections rd v st)
    = List.filter (fun c => (order c =? 4)%Z) (calculateCorrections rd v "chlorine") /\
  (forall c, In c (calculateCorrections rd v st) -> order c = 4%Z ->
     parameter c = "Free Chlorine" /\
     (amt c = None \/ chemical c = d_chemical chlorineUp) /\
     exists val, rd !! "freeChlorine" = Some val /\ (val < 3 \/ 5 < val)) /\
  ((exists c, In c (calculateCorrections rd v st) /\ order c = 5%Z) -> st = "chlorine") /\
  (st <> "chlorine" ->
     calculateCorrections rd v st
     = List.filter (fun c => negb (order c =? 5)%Z) (calculateCorrections rd v "chlorine")).
Proof.
  intros Hb. rewrite !calculateCorrections_pushed.
  assert (Eb : String.eqb st "bromine" = false) by now apply String.eqb_neq.
  split; [|split; [|split; [|split; [|split]]]].
  - intros val Hrd Hlow.
    assert (L : Qltb val (idealMin P_freeChlorine) = true) by now apply Qltb_lt.
    unfold pushed, step_sanitizer. rewrite sanKey_own, dKey_own.
    unfold sanKey. rewrite Eb. cbv zeta. rewrite Hrd, L.
    eexists. eexists. split;
      [rewrite !in_app_iff; right; right; right; left; left; reflexivity|].
    repeat (split; [reflexivity|]). split; [|reflexivity].
    cbn [idealMin idealMax P_freeChlorine ppmPer per10kGal chlorineUp].
    unfold scale. field.
  - intros val Hrd Hhigh.
    assert (L : Qltb val (idealMin P_freeChlorine) = false).
    { apply Qltb_ge. cbn [idealMin P_freeChlorine]. Lqa.lra. }
    assert (G : Qltb (idealMax P_freeChlorine) val = true) by now apply Qltb_lt.
    unfold pushed, step_sanitizer. rewrite sanKey_own.
    unfold sanKey. rewrite Eb. cbv zeta. rewrite Hrd, L, G.
    eexists. split;
      [rewrite !in_app_iff; right; right; right; left; left; reflexivity|].
    repeat split.
  - rewrite !(pushed_filter (fun n => (n =? 4)%Z)). simpl.
    now rewrite step_sanitizer_not_bromine.
  - intros c Hin Hc. unfold pushed in Hin. rewrite !in_app_iff in Hin.
    destruct Hin as [Hin|[Hin|[Hin|[Hin|Hin]]]].
    + apply step_totalAlkalinity_inv in Hin as (Ho & _). congruence.
    + apply step_pH_inv in Hin as (Ho & _). congruence.
    + apply step_totalHardness_inv in Hin as (Ho & _). congruence.
    + clear Hc. split; [|split].
      * apply step_sanitizer_inv in Hin as (_ & Hp & _).
        rewrite Hp. unfold sanParam. now rewrite Eb.
      * revert Hin. unfold step_sanitizer.
        rewrite sanKey_own, dKey_own. rewrite Eb.
        inv_step; auto.
      * apply step_sanitizer_inv in Hin as (_ & _ & val & Hrd & Hout).
        unfold sanKey, sanParam in *. rewrite Eb in *.
        exists val. split; [exact Hrd|exact Hout].
    + apply step_cyanuricAcid_inv in Hin as (_ & Ho & _). congruence.
  - intros (c & Hin & Hc). unfold pushed in Hin. rewrite !in_app_iff in Hin.
    destruct Hin as [Hin|[Hin|[Hin|[Hin|Hin]]]].
    + apply step_totalAlkalinity_inv in Hin as (Ho & _). congruence.
    + apply step_pH_inv in Hin as (Ho & _). congruence.
    + apply step_totalHardness_inv in Hin as (Ho & _). congruence.
    + apply step_sanitizer_inv in Hin as (Ho & _). congruence.
    + now apply step_cyanuricAcid_inv in Hin as (Hst & _).
  - intros Hc. rewrite (pushed_filter (fun n => negb (n =? 5)%Z)). simpl.
    unfold pushed.
    rewrite step_sanitizer_not_bromine, step_cyanuricAcid_not_chlorine by assumption.
    reflexivity.
Qed.

Lemma unrecognized_sanitizer_is_chlorine_without_CYA_witness :
  (exists c a,
     In c (calculateCorrections scenario_panel 400 "salt") /\ order c = 4%Z /\
     parameter c = "Free Chlorine" /\
     chemical c = "Sodium Dichlor (56% Chlorine Granules)" /\
     amt c = Some a /\ a == (4 - 2) / 1.5 * 2 * (400 / 10000) /\
     amount c = formatAmount a "oz") /\
  (exists c,
     In c (calculateCorrections {[ "freeChlorine" := 8; "bromine" := 5 ]} 400 "salt") /\
     order c = 4%Z /\ parameter c = "Free Chlorine" /\
     chemical c = "Wait & Aerate" /\ amt c = None) /\
  calculateCorrections scenario_panel 400 "salt"
  = List.filter (fun c => negb (order c =? 5)%Z)
      (calculateCorrections scenario_panel 400 "chlorine").
Proof.
  split; [|split].
  - destruct (unrecognized_sanitizer_is_chlorine_without_CYA scenario_panel 400 "salt")
      as (Hlow & _); [discriminate|].
    apply (Hlow 2); reflexivity.
  - destruct (unrecognized_sanitizer_is_chlorine_without_CYA
                {[ "freeChlorine" := 8; "bromine" := 5 ]} 400 "salt")
      as (_ & Hhigh & _); [discriminate|].
    apply (Hhigh 8); reflexivity.
  - destruct (unrecognized_sanitizer_is_chlorine_without_CYA scenario_panel 400 "salt")
      as (_ & _ & _ & _ & _ & Hplan); [discriminate|].
    apply Hplan. discriminate.
Defined.

End PlannerFacts.

(** ** The colour matcher *)

Module MatcherFacts.
Import JS ColorChart MatcherSpec SortFacts.
Open Scope R_scope.

Lemma COLOR_CHARTS_entries k c :
  COLOR_CHARTS !! k = Some c -> In c charts.
Proof.
  intros H. unfold COLOR_CHARTS in H. apply elem_of_list_to_map_2 in H.
  apply list_elem_of_In in H. simpl in H. unfold charts. simpl.
  repeat (destruct H as [H|H]; [injection H as _ <-; tauto|]). destruct H.
Qed.

Lemma get_own k c : COLOR_CHARTS !! k = Some c -> get COLOR_CHARTS k = Own c.
Proof. intros H. unfold get. now rewrite H. Qed.

Lemma get_freeChlorine : COLOR_CHARTS !! "freeChlorine" = Some C_freeChlorine.
Proof. reflexivity. Qed.

Lemma get_constructor : get COLOR_CHARTS "constructor" = Inherited.
Proof. reflexivity. Qed.

(** *** Distances *)

Lemma sum_squares_nonneg (x y z : R) : 0 <= x * x + y * y + z * z.
Proof.
  pose proof (Rle_0_sqr x). pose proof (Rle_0_sqr y). pose proof (Rle_0_sqr z).
  unfold Rsqr in *. lra.
Qed.

Lemma sum_squares_zero (x y z : R) :
  x * x + y * y + z * z = 0 -> x = 0 /\ y = 0 /\ z = 0.
Proof.
  intros H.
  pose proof (Rle_0_sqr x). pose proof (Rle_0_sqr y). pose proof (Rle_0_sqr z).
  unfold Rsqr in *.
  repeat split; apply Rsqr_0_uniq; unfold Rsqr; lra.
Qed.

Lemma deltaE76_nonneg (x y : Lab) : 0 <= deltaE76 x y.
Proof. apply sqrt_pos. Qed.

Lemma deltaE76_self (x : Lab) : deltaE76 x x = 0.
Proof.
  unfold deltaE76, Math_sqrt. cbv zeta.
  replace (_ + _) with 0 by ring. apply sqrt_0.
Qed.

Lemma deltaE76_zero (x y : Lab) : deltaE76 x y = 0 -> x = y.
Proof.
  unfold deltaE76, Math_sqrt. cbv zeta. intros H.
  apply sqrt_eq_0 in H; [|apply sum_squares_nonneg].
  apply sum_squares_zero in H as (Hl & Ha & Hb).
  destruct x as [l1 a1 b1], y as [l2 a2 b2]; simpl in *.
  f_equal; lra.
Qed.

(** *** The conversion to Lab is one-to-one on bright colours

    A channel above 0.04045 (above 10 on the 0..255 scale) takes the
    power-law branch of [linearize]; every channel of every chart does. *)

Lemma Rpower_inj (x y e : R) :
  0 < x -> 0 < y -> e <> 0 -> Rpower x e = Rpower y e -> x = y.
Proof.
  intros Hx Hy He H. unfold Rpower in H.
  apply exp_inv in H. apply Rmult_eq_reg_l in H; [|exact He].
  now apply ln_inv.
Qed.

Lemma linearize_bright_pos (c : R) : 0.04045 < c -> 0 < linearize c.
Proof.
  intros H. unfold linearize, Math_pow.
  destruct (Rlt_dec 0.04045 c); [|contradiction]. apply exp_pos.
Qed.

Lemma linearize_bright_inj (c1 c2 : R) :
  0.04045 < c1 -> 0.04045 < c2 -> linearize c1 = linearize c2 -> c1 = c2.
Proof.
  intros H1 H2. unfold linearize, Math_pow.
  destruct (Rlt_dec 0.04045 c1); [|contradiction].
  destruct (Rlt_dec 0.04045 c2); [|contradiction].
  intros H. apply Rpower_inj in H; lra.
Qed.

Lemma Math_cbrt_pos (t : R) : 0 < t -> 0 < Math_cbrt t.
Proof.
  intros H. unfold Math_cbrt. destruct (Rlt_dec 0 t); [|contradiction].
  apply exp_pos.
Qed.

Lemma Math_cbrt_cube (t : R) :
  0 < t -> Math_cbrt t * Math_cbrt t * Math_cbrt t = t.
Proof.
  intros H. unfold Math_cbrt. destruct (Rlt_dec 0 t); [|contradiction].
  rewrite <- !Rpower_plus.
  replace (/ 3 + / 3 + / 3) with 1 by field.
  now apply Rpower_1.
Qed.

Lemma Math_cbrt_inj (t1 t2 : R) :
  0 < t1 -> 0 < t2 -> Math_cbrt t1 = Math_cbrt t2 -> t1 = t2.
Proof.
  intros H1 H2 H.
  rewrite <- (Math_cbrt_cube t1 H1), <- (Math_cbrt_cube t2 H2). now rewrite H.
Qed.

(** At the threshold the linear branch of [f] lies below the cube-root
    branch, so no value of one branch is a value of the other. *)
Lemma f_branches_apart (t1 t2 : R) :
  t1 <= 0.008856 -> 0.008856 < t2 -> t1 * 7.787 + 16 / 116 < Math_cbrt t2.
Proof.
  intros H1 H2.
  assert (Hpos : 0 < Math_cbrt t2) by (apply Math_cbrt_pos; lra).
  assert (Hcube := Math_cbrt_cube t2 ltac:(lra)).
  set (c := Math_cbrt t2) in *.
  set (L := 0.008856 * 7.787 + 16 / 116).
  assert (HL : L * L * L < 0.008856) by (unfold L; lra).
  assert (HL0 : 0 < L) by (unfold L; lra).
  destruct (Rlt_dec L c) as [Hc|Hc]; [unfold L in *; lra|].
  exfalso. apply Rnot_lt_le in Hc.
  assert (c * c <= L * L) by nra.
  assert (c * c * c <= L * L * L) by nra.
  lra.
Qed.

Lemma f_inj (t1 t2 : R) : f t1 = f t2 -> t1 = t2.
Proof.
  unfold f.
  destruct (Rlt_dec 0.008856 t1) as [H1|H1], (Rlt_dec 0.008856 t2) as [H2|H2];
    intros H.
  - apply Math_cbrt_inj; lra.
  - apply Rnot_lt_le in H2.
    pose proof (f_branches_apart t2 t1 H2 H1). lra.
  - apply Rnot_lt_le in H1.
    pose proof (f_branches_apart t1 t2 H1 H2). lra.
  - lra.
Qed.

Lemma rgbToLab_bright_inj (r1 g1 b1 r2 g2 b2 : R) :
  0.04045 < r1 -> 0.04045 < g1 -> 0.04045 < b1 ->
  0.04045 < r2 -> 0.04045 < g2 -> 0.04045 < b2 ->
  rgbToLab r1 g1 b1 = rgbToLab r2 g2 b2 ->
  r1 = r2 /\ g1 = g2 /\ b1 = b2.
Proof.
  intros Hr1 Hg1 Hb1 Hr2 Hg2 Hb2 H.
  unfold rgbToLab in H. cbv zeta in H. injection H as Hl Ha Hb.
  match type of Hl with 116 * f ?y1 - 16 = 116 * f ?y2 - 16 =>
    assert (Hy : y1 = y2) by (apply f_inj; lra) end.
  match type of Ha with 500 * (f ?x1 - _) = 500 * (f ?x2 - _) =>
    assert (Hx : x1 = x2) by (apply f_inj; lra) end.
  match type of Hb with 200 * (_ - f ?z1) = 200 * (_ - f ?z2) =>
    assert (Hz : z1 = z2) by (apply f_inj; lra) end.
  unfold xRef in Hx. unfold yRef in Hy. unfold zRef in Hz.
  assert (linearize r1 = linearize r2 /\ linearize g1 = linearize g2
          /\ linearize b1 = linearize b2) as (Er & Eg & Eb).
  { generalize dependent (linearize r1). generalize dependent (linearize r2).
    generalize dependent (linearize g1). generalize dependent (linearize g2).
    generalize dependent (linearize b1). generalize dependent (linearize b2).
    intros. repeat split; lra. }
  repeat split; apply linearize_bright_inj; assumption.
Qed.

(** *** The reference charts *)

Ltac each_chart H :=
  unfold charts in H; simpl in H;
  repeat (destruct H as [H|H]; [subst|]); [..|destruct H].

Ltac each_color H :=
  simpl in H; repeat (destruct H as [H|H]; [subst|]); [..|destruct H].

Lemma chart_two_points c :
  In c charts -> exists p1 p2 rest, colors c = p1 :: p2 :: rest.
Proof. intros H. each_chart H; do 3 eexists; reflexivity. Qed.

Lemma chart_bright c p :
  In c charts -> In p (colors c) ->
  0.04045 < r p / 255 /\ 0.04045 < g p / 255 /\ 0.04045 < b p / 255.
Proof.
  intros Hc Hp. each_chart Hc; each_color Hp; simpl; repeat split; lra.
Qed.

(** Within a chart, no two calibration points share a colour. *)
Lemma chart_colors_distinct c p q :
  In c charts -> In p (colors c) -> In q (colors c) ->
  r p = r q -> g p = g q -> b p = b q -> value p = value q.
Proof.
  intros Hc Hp Hq.
  each_chart Hc; each_color Hp; each_color Hq; simpl; intros;
    first [reflexivity | lra].
Qed.

(** Every calibration value is a whole number of tenths. *)
Lemma chart_values_tenths c p :
  In c charts -> In p (colors c) -> exists n : Z, value p * 10 = IZR n.
Proof.
  intros Hc Hp. each_chart Hc; each_color Hp; simpl;
    first [ now (exists 0%Z; lra) | now (exists 5%Z; lra) | now (exists 10%Z; lra)
          | now (exists 20%Z; lra) | now (exists 30%Z; lra) | now (exists 40%Z; lra)
          | now (exists 50%Z; lra) | now (exists 100%Z; lra) | now (exists 200%Z; lra)
          | now (exists 64%Z; lra) | now (exists 68%Z; lra) | now (exists 72%Z; lra)
          | now (exists 78%Z; lra) | now (exists 84%Z; lra) | now (exists 400%Z; lra)
          | now (exists 800%Z; lra) | now (exists 1200%Z; lra) | now (exists 1800%Z; lra)
          | now (exists 2400%Z; lra) | now (exists 1000%Z; lra) | now (exists 2000%Z; lra)
          | now (exists 4000%Z; lra) | now (exists 8000%Z; lra) | now (exists 700%Z; lra)
          | now (exists 1500%Z; lra) | now (exists 3000%Z; lra) ].
Qed.

(** A reference colour at distance 0 of a calibration point of the same
    chart carries the value of that point. *)
Lemma zero_distance_same_value c p q :
  In c charts -> In p (colors c) -> In q (colors c) ->
  refDeltaE (rgbToLab (r p / 255) (g p / 255) (b p / 255)) q = 0 ->
  value q = value p.
Proof.
  intros Hc Hp Hq H. unfold refDeltaE in H. cbv zeta in H.
  apply deltaE76_zero in H.
  destruct (chart_bright c p Hc Hp) as (? & ? & ?).
  destruct (chart_bright c q Hc Hq) as (? & ? & ?).
  apply rgbToLab_bright_inj in H as (Hr & Hg & Hb); try assumption.
  symmetry. apply (chart_colors_distinct c p q Hc Hp Hq); lra.
Qed.

Lemma refDeltaE_self p :
  refDeltaE (rgbToLab (r p / 255) (g p / 255) (b p / 255)) p = 0.
Proof. unfold refDeltaE. cbv zeta. apply deltaE76_self. Qed.

Lemma refDeltaE_nonneg lab p : 0 <= refDeltaE lab p.
Proof. unfold refDeltaE. cbv zeta. apply deltaE76_nonneg. Qed.

(** *** The loop of [matchColor] *)

Section Loop.
Variable sampledLab : Lab.

Lemma matchColor_step_best seen best ref :
  is_best sampledLab seen best ->
  is_best sampledLab (seen ++ [ref]) (matchColor_step sampledLab best ref).
Proof.
  unfold matchColor_step, is_best. cbv zeta.
  destruct best as [[bm bd]|]; simpl.
  - intros (Hin & Hbd & Hmin).
    destruct (Rlt_dec (refDeltaE sampledLab ref) bd) as [Hlt|Hge]; simpl.
    + split; [apply in_or_app; right; now left|]. split; [reflexivity|].
      intros x [Hx|[<-|[]]]%in_app_or; [specialize (Hmin x Hx)|]; lra.
    + apply Rnot_lt_le in Hge.
      split; [apply in_or_app; now left|]. split; [assumption|].
      intros x [Hx|[<-|[]]]%in_app_or; [now apply Hmin|assumption].
  - intros ->. simpl. split; [now left|]. split; [reflexivity|].
    intros x [<-|[]]. lra.
Qed.

Lemma matchColor_loop_best l seen best :
  is_best sampledLab seen best ->
  is_best sampledLab (seen ++ l) (fold_left (matchColor_step sampledLab) l best).
Proof.
  revert seen best. induction l as [|ref l IH]; intros seen best H; simpl.
  - now rewrite app_nil_r.
  - replace (seen ++ ref :: l)%list with ((seen ++ [ref]) ++ l)%list
      by (rewrite <- app_assoc; reflexivity).
    apply IH. now apply matchColor_step_best.
Qed.

(** *** The sorted [matches] *)

(** The first element of the sorted array is at the least distance. *)
Lemma sorted_head_least (l : list Scored) (m : Scored) (rest : list Scored) :
  Array_sort byDeltaE l = m :: rest ->
  forall x, In x l -> snd m <= snd x.
Proof.
  revert m rest. induction l as [|y l IH]; intros m rest Hs x Hx; [destruct Hx|].
  simpl in Hs. destruct (Array_sort byDeltaE l) as [|m' rest'] eqn:Hl.
  - apply (f_equal (@length _)) in Hl. rewrite Array_sort_length in Hl.
    destruct l; [|discriminate]. simpl in Hs. injection Hs as <- _.
    destruct Hx as [<-|[]]. lra.
  - specialize (IH m' rest' eq_refl). simpl in Hs. unfold byDeltaE in Hs.
    destruct (Rlt_dec 0 (snd y - snd m')) as [Hgt|Hle].
    + injection Hs as <- _. destruct Hx as [<-|Hx]; [lra|now apply IH].
    + injection Hs as <- _. apply Rnot_lt_le in Hle.
      destruct Hx as [<-|Hx]; [lra|]. specialize (IH x Hx). lra.
Qed.

Lemma sorted_matches_In (l : list RefColor) (m : Scored) :
  In m (Array_sort byDeltaE (map (scored sampledLab) l)) ->
  In (fst m) l /\ snd m = refDeltaE sampledLab (fst m).
Proof.
  rewrite Array_sort_In, in_map_iff. intros (ref & <- & Hin). now split.
Qed.

Lemma sorted_matches_two (p1 p2 : RefColor) (l : list RefColor) :
  exists m1 m2 rest,
    Array_sort byDeltaE (map (scored sampledLab) (p1 :: p2 :: l)) = m1 :: m2 :: rest.
Proof.
  pose proof (Array_sort_length byDeltaE (map (scored sampledLab) (p1 :: p2 :: l))) as H.
  rewrite length_map in H.
  destruct (Array_sort byDeltaE (map (scored sampledLab) (p1 :: p2 :: l)))
    as [|m1 [|m2 rest]] eqn:E.
  - discriminate H.
  - discriminate H.
  - now exists m1, m2, rest.
Qed.

End Loop.

(** *** What the two matchers return on a known chart *)

Lemma matchColor_known (sr sg sb : R) (k : string) (c : Chart) :
  COLOR_CHARTS !! k = Some c ->
  let lab := rgbToLab (sr / 255) (sg / 255) (sb / 255) in
  exists bm,
    matchColor sr sg sb k
    = Normal (Some {| m_value := value bm; m_deltaE := refDeltaE lab bm;
                      refColor := bm |}) /\
    In bm (colors c) /\
    forall x, In x (colors c) -> refDeltaE lab bm <= refDeltaE lab x.
Proof.
  intros Hk lab. unfold matchColor. rewrite (get_own k c Hk). cbv zeta. fold lab.
  pose proof (matchColor_loop_best lab (colors c) [] None eq_refl) as H.
  simpl app in H.
  destruct (fold_left (matchColor_step lab) (colors c) None) as [[bm bd]|].
  - destruct H as (Hin & -> & Hmin). now exists bm.
  - exfalso. simpl in H.
    destruct (chart_two_points c (COLOR_CHARTS_entries k c Hk)) as (? & ? & ? & E).
    rewrite E in H. discriminate.
Qed.

Lemma matchColorInterpolated_known (sr sg sb : R) (k : string) (c : Chart) :
  COLOR_CHARTS !! k = Some c ->
  let lab := rgbToLab (sr / 255) (sg / 255) (sb / 255) in
  exists m1 m2 rest,
    Array_sort byDeltaE (map (scored lab) (colors c)) = m1 :: m2 :: rest /\
    matchColorInterpolated sr sg sb k = Normal (Some (interpolate m1 m2)).
Proof.
  intros Hk lab.
  destruct (chart_two_points c (COLOR_CHARTS_entries k c Hk)) as (p1 & p2 & l & E).
  destruct (sorted_matches_two lab p1 p2 l) as (m1 & m2 & rest & Hs).
  rewrite <- E in Hs. exists m1, m2, rest. split; [exact Hs|].
  unfold matchColorInterpolated. rewrite (get_own k c Hk). cbv zeta. fold lab.
  change (map (fun ref => (ref, refDeltaE lab ref)) (colors c))
    with (map (scored lab) (colors c)).
  rewrite Hs. unfold interpolate. cbv zeta.
  destruct (Rlt_dec (snd m1) 1); reflexivity.
Qed.

(** C1. For every chart and every calibration point of it, [matchColor] on
    exactly the colour of the point returns the value of the point at
    distance 0, and [matchColorInterpolated] returns that value at distance
    0 with confidence "high". *)
Theorem calibration_round_trip (k : string) (c : Chart) (p : RefColor) :
  COLOR_CHARTS !! k = Some c ->
  In p (colors c) ->
  (exists m, matchColor (r p) (g p) (b p) k = Normal (Some m) /\
             m_value m = value p /\ m_deltaE m = 0) /\
  matchColorInterpolated (r p) (g p) (b p) k
  = Normal (Some {| i_value := value p; i_deltaE := 0; confidence := High |}).
Proof.
  intros Hk Hp. pose proof (COLOR_CHARTS_entries k c Hk) as Hc.
  set (lab := rgbToLab (r p / 255) (g p / 255) (b p / 255)).
  assert (Hself : refDeltaE lab p = 0) by apply refDeltaE_self.
  split.
  - destruct (matchColor_known (r p) (g p) (b p) k c Hk) as (bm & -> & Hin & Hmin).
    fold lab in Hmin |- *.
    assert (H0 : refDeltaE lab bm = 0).
    { specialize (Hmin p Hp). rewrite Hself in Hmin.
      pose proof (refDeltaE_nonneg lab bm). lra. }
    eexists. split; [reflexivity|]. simpl. split; [|exact H0].
    now apply (zero_distance_same_value c p bm).
  - destruct (matchColorInterpolated_known (r p) (g p) (b p) k c Hk)
      as (m1 & m2 & rest & Hs & ->).
    fold lab in Hs.
    assert (Hm1 : In m1 (Array_sort byDeltaE (map (scored lab) (colors c))))
      by (rewrite Hs; now left).
    apply sorted_matches_In in Hm1 as (Hin & Hd).
    assert (H0 : snd m1 = 0).
    { pose proof (sorted_head_least _ _ _ Hs (scored lab p)
                    (in_map (scored lab) _ _ Hp)) as Hle.
      simpl in Hle. rewrite Hself in Hle.
      pose proof (refDeltaE_nonneg lab (fst m1)). lra. }
    unfold interpolate. destruct (Rlt_dec (snd m1) 1) as [_|Hn]; [|lra].
    rewrite H0. do 3 f_equal.
    apply (zero_distance_same_value c p (fst m1)); try assumption.
    fold lab. now rewrite <- Hd.
Qed.

(** The scenario of the specification: the first calibration point of the
    free chlorine chart. *)
Lemma calibration_round_trip_witness :
  (exists m, matchColor 255 248 240 "freeChlorine" = Normal (Some m) /\
             m_value m = 0 /\ m_deltaE m = 0) /\
  matchColorInterpolated 255 248 240 "freeChlorine"
  = Normal (Some {| i_value := 0; i_deltaE := 0; confidence := High |}).
Proof.
  apply (calibration_round_trip "freeChlorine" C_freeChlorine (rc 0 255 248 240));
    [ reflexivity | left; reflexivity ].
Defined.

(** *** Bounds of the interpolated value *)

Lemma fold_Rmin_le (v : R) (vs : list R) (x : R) :
  In x (v :: vs) -> fold_right Rmin v vs <= x.
Proof.
  induction vs as [|w vs IH]; simpl.
  - intros [<-|[]]. lra.
  - intros [<-|[<-|H]].
    + eapply Rle_trans; [apply Rmin_r|]. apply IH. now left.
    + apply Rmin_l.
    + eapply Rle_trans; [apply Rmin_r|]. apply IH. now right.
Qed.

Lemma fold_Rmin_In (v : R) (vs : list R) : In (fold_right Rmin v vs) (v :: vs).
Proof.
  induction vs as [|w vs IH]; [now left|].
  cbn [fold_right].
  destruct (Rle_dec w (fold_right Rmin v vs)) as [H|H].
  - rewrite Rmin_left by assumption. right. now left.
  - rewrite Rmin_right by lra.
    destruct IH as [IH|IH]; [now left|right; now right].
Qed.

Lemma fold_Rmax_ge (v : R) (vs : list R) (x : R) :
  In x (v :: vs) -> x <= fold_right Rmax v vs.
Proof.
  induction vs as [|w vs IH]; simpl.
  - intros [<-|[]]. lra.
  - intros [<-|[<-|H]].
    + eapply Rle_trans; [|apply Rmax_r]. apply IH. now left.
    + apply Rmax_l.
    + eapply Rle_trans; [|apply Rmax_r]. apply IH. now right.
Qed.

Lemma fold_Rmax_In (v : R) (vs : list R) : In (fold_right Rmax v vs) (v :: vs).
Proof.
  induction vs as [|w vs IH]; [now left|].
  cbn [fold_right].
  destruct (Rle_dec w (fold_right Rmax v vs)) as [H|H].
  - rewrite Rmax_right by assumption.
    destruct IH as [IH|IH]; [now left|right; now right].
  - rewrite Rmax_left by lra. right. now left.
Qed.

Lemma minValue_le (c : Chart) (p : RefColor) :
  In p (colors c) -> minValue c <= value p.
Proof.
  intros H. apply (in_map value) in H. unfold minValue.
  destruct (map value (colors c)) as [|v vs]; [destruct H|].
  now apply fold_Rmin_le.
Qed.

Lemma maxValue_ge (c : Chart) (p : RefColor) :
  In p (colors c) -> value p <= maxValue c.
Proof.
  intros H. apply (in_map value) in H. unfold maxValue.
  destruct (map value (colors c)) as [|v vs]; [destruct H|].
  now apply fold_Rmax_ge.
Qed.

Lemma minValue_attained (c : Chart) :
  colors c <> [] -> exists p, In p (colors c) /\ value p = minValue c.
Proof.
  intros H. unfold minValue.
  destruct (map value (colors c)) as [|v vs] eqn:E.
  - destruct (colors c); [contradiction|discriminate].
  - pose proof (fold_Rmin_In v vs) as Hin. rewrite <- E in Hin.
    apply in_map_iff in Hin as (p & Hp & Hin). now exists p.
Qed.

Lemma maxValue_attained (c : Chart) :
  colors c <> [] -> exists p, In p (colors c) /\ value p = maxValue c.
Proof.
  intros H. unfold maxValue.
  destruct (map value (colors c)) as [|v vs] eqn:E.
  - destruct (colors c); [contradiction|discriminate].
  - pose proof (fold_Rmax_In v vs) as Hin. rewrite <- E in Hin.
    apply in_map_iff in Hin as (p & Hp & Hin). now exists p.
Qed.

(** Rounding to one decimal keeps a value between two bounds that are
    themselves whole numbers of tenths. *)
Lemma round_tenths_between (x lo hi : R) (nlo nhi : Z) :
  lo * 10 = IZR nlo -> hi * 10 = IZR nhi ->
  lo <= x <= hi ->
  lo <= IZR (Math_roundR (x * 10)) / 10 <= hi.
Proof.
  intros Hlo Hhi [H1 H2]. unfold Math_roundR.
  destruct (base_Int_part (x * 10 + / 2)) as [Hb1 Hb2].
  set (n := Int_part (x * 10 + / 2)) in *.
  assert (Hn1 : (nlo <= n)%Z).
  { apply Z.lt_succ_r. apply lt_IZR. rewrite succ_IZR. lra. }
  assert (Hn2 : (n <= nhi)%Z).
  { apply Z.lt_succ_r. apply lt_IZR. rewrite succ_IZR. lra. }
  apply IZR_le in Hn1, Hn2. lra.
Qed.

Lemma weighted_between (v1 v2 w1 w2 lo hi : R) :
  0 < w1 -> 0 < w2 -> lo <= v1 <= hi -> lo <= v2 <= hi ->
  lo <= (v1 * w1 + v2 * w2) / (w1 + w2) <= hi.
Proof.
  intros Hw1 Hw2 [H1 H1'] [H2 H2'].
  assert (lo * w1 <= v1 * w1) by (apply Rmult_le_compat_r; lra).
  assert (lo * w2 <= v2 * w2) by (apply Rmult_le_compat_r; lra).
  assert (v1 * w1 <= hi * w1) by (apply Rmult_le_compat_r; lra).
  assert (v2 * w2 <= hi * w2) by (apply Rmult_le_compat_r; lra).
  split.
  - apply Rmult_le_reg_r with (w1 + w2); [lra|].
    unfold Rdiv. rewrite Rmult_assoc, Rinv_l by lra. lra.
  - apply Rmult_le_reg_r with (w1 + w2); [lra|].
    unfold Rdiv. rewrite Rmult_assoc, Rinv_l by lra. lra.
Qed.

Lemma weight_pos (d : R) : 0 < 1 / Rmax d 0.001.
Proof.
  pose proof (Rmax_r d 0.001). apply Rdiv_lt_0_compat; lra.
Qed.

(** C4. For every sampled colour and every known chart key,
    [matchColorInterpolated] returns a result, and its value lies between
    the least and the greatest concentration of the chart, in the near-exact
    branch as in the weighted branch after rounding to one decimal. *)
Theorem interpolation_bounded (sr sg sb : R) (k : string) (c : Chart) :
  COLOR_CHARTS !! k = Some c ->
  exists m,
    matchColorInterpolated sr sg sb k = Normal (Some m) /\
    minValue c <= i_value m <= maxValue c.
Proof.
  intros Hk. pose proof (COLOR_CHARTS_entries k c Hk) as Hc.
  destruct (matchColorInterpolated_known sr sg sb k c Hk)
    as (m1 & m2 & rest & Hs & ->).
  set (lab := rgbToLab (sr / 255) (sg / 255) (sb / 255)) in *.
  assert (Hm1 : In (fst m1) (colors c)).
  { apply (sorted_matches_In lab). rewrite Hs. now left. }
  assert (Hm2 : In (fst m2) (colors c)).
  { apply (sorted_matches_In lab). rewrite Hs. right. now left. }
  assert (B1 : minValue c <= value (fst m1) <= maxValue c)
    by (split; [now apply minValue_le | now apply maxValue_ge]).
  assert (B2 : minValue c <= value (fst m2) <= maxValue c)
    by (split; [now apply minValue_le | now apply maxValue_ge]).
  eexists. split; [reflexivity|].
  unfold interpolate. destruct (Rlt_dec (snd m1) 1); cbv zeta; simpl.
  - exact B1.
  - assert (Hne : colors c <> []) by (intros E; rewrite E in Hm1; destruct Hm1).
    destruct (minValue_attained c Hne) as (pl & Hpl & El).
    destruct (maxValue_attained c Hne) as (ph & Hph & Eh).
    destruct (chart_values_tenths c pl Hc Hpl) as (nlo & Hlo).
    destruct (chart_values_tenths c ph Hc Hph) as (nhi & Hhi).
    rewrite El in Hlo. rewrite Eh in Hhi.
    apply (round_tenths_between _ _ _ nlo nhi Hlo Hhi).
    apply weighted_between; auto using weight_pos.
Qed.

Lemma interpolation_bounded_witness :
  exists m,
    matchColorInterpolated 200 120 90 "pH" = Normal (Some m) /\
    minValue C_pH <= i_value m <= maxValue C_pH.
Proof.
  apply (interpolation_bounded 200 120 90 "pH" C_pH). reflexivity.
Defined.

(** The bounds of the pH chart, for the record. *)
Lemma pH_chart_bounds : minValue C_pH = 6.4 /\ maxValue C_pH = 8.4.
Proof.
  unfold minValue, maxValue. simpl.
  repeat match goal with
  | |- context [Rmin ?x ?y] =>
      lazymatch y with context [Rmin _ _] => fail | _ => idtac end;
      first [rewrite (Rmin_left x y) by lra | rewrite (Rmin_right x y) by lra]
  | |- context [Rmax ?x ?y] =>
      lazymatch y with context [Rmax _ _] => fail | _ => idtac end;
      first [rewrite (Rmax_left x y) by lra | rewrite (Rmax_right x y) by lra]
  end.
  split; reflexivity.
Qed.

(** *** Confidence *)

Lemma confidence_of_monotone (d1 d2 : R) :
  d1 <= d2 -> (rank (confidence_of d1) <= rank (confidence_of d2))%nat.
Proof.
  intros H. unfold confidence_of.
  destruct (Rlt_dec d1 10), (Rlt_dec d1 25), (Rlt_dec d2 10), (Rlt_dec d2 25);
    simpl; solve [lia | lra].
Qed.

Lemma interpolate_confidence (m1 m2 : Scored) :
  i_deltaE (interpolate m1 m2) = snd m1 /\
  confidence (interpolate m1 m2) = confidence_of (snd m1).
Proof.
  unfold interpolate, confidence_of.
  destruct (Rlt_dec (snd m1) 1); simpl; [|now split].
  split; [reflexivity|]. destruct (Rlt_dec (snd m1) 10); [reflexivity|lra].
Qed.

Lemma matchColorInterpolated_confidence (sr sg sb : R) (k : string) (c : Chart) :
  COLOR_CHARTS !! k = Some c ->
  exists m,
    matchColorInterpolated sr sg sb k = Normal (Some m) /\
    nearest (rgbToLab (sr / 255) (sg / 255) (sb / 255)) c (i_deltaE m) /\
    confidence m = confidence_of (i_deltaE m).
Proof.
  intros Hk.
  destruct (matchColorInterpolated_known sr sg sb k c Hk)
    as (m1 & m2 & rest & Hs & ->).
  set (lab := rgbToLab (sr / 255) (sg / 255) (sb / 255)) in *.
  destruct (interpolate_confidence m1 m2) as (Hd & Hconf).
  eexists. split; [reflexivity|]. rewrite Hconf, Hd. split; [|reflexivity].
  assert (Hm1 : In m1 (Array_sort byDeltaE (map (scored lab) (colors c))))
    by (rewrite Hs; now left).
  apply sorted_matches_In in Hm1 as (Hin & Hsnd).
  split.
  - now exists (fst m1).
  - intros ref Href.
    apply (sorted_head_least _ _ _ Hs (scored lab ref)).
    now apply in_map.
Qed.

(** C5. For every sampled colour and every known chart key, the result of
    [matchColorInterpolated] carries the distance to the nearest calibration
    point, and its confidence is the step function of that distance: "high"
    below 10 (the shortcut below 1 included), "medium" below 25, "low"
    otherwise.  Hence, of two samples matched against the same chart, the
    one whose nearest distance is larger never has the better confidence. *)
Theorem confidence_step_function (sr sg sb : R) (k : string) (c : Chart) :
  COLOR_CHARTS !! k = Some c ->
  exists m,
    matchColorInterpolated sr sg sb k = Normal (Some m) /\
    nearest (rgbToLab (sr / 255) (sg / 255) (sb / 255)) c (i_deltaE m) /\
    confidence m = confidence_of (i_deltaE m) /\
    forall sr' sg' sb' m',
      matchColorInterpolated sr' sg' sb' k = Normal (Some m') ->
      i_deltaE m <= i_deltaE m' ->
      (rank (confidence m) <= rank (confidence m'))%nat.
Proof.
  intros Hk.
  destruct (matchColorInterpolated_confidence sr sg sb k c Hk)
    as (m & Hm & Hnear & Hconf).
  exists m. repeat split; try assumption; try apply Hnear.
  intros sr' sg' sb' m' Hm' Hle.
  destruct (matchColorInterpolated_confidence sr' sg' sb' k c Hk)
    as (m'' & Hm'' & _ & Hconf').
  rewrite Hm' in Hm''. injection Hm'' as <-.
  rewrite Hconf, Hconf'. now apply confidence_of_monotone.
Qed.

Lemma confidence_step_function_witness :
  exists m,
    matchColorInterpolated 200 120 90 "pH" = Normal (Some m) /\
    nearest (rgbToLab (200 / 255) (120 / 255) (90 / 255)) C_pH (i_deltaE m) /\
    confidence m = confidence_of (i_deltaE m) /\
    forall sr' sg' sb' m',
      matchColorInterpolated sr' sg' sb' "pH" = Normal (Some m') ->
      i_deltaE m <= i_deltaE m' ->
      (rank (confidence m) <= rank (confidence m'))%nat.
Proof.
  apply (confidence_step_function 200 120 90 "pH" C_pH). reflexivity.
Defined.

(** *** Keys that name no chart *)

(** A key that is neither a chart key nor a property name of
    [Object.prototype] gives [null] in both matchers. *)
Lemma unknown_key_null (sr sg sb : R) (k : string) :
  COLOR_CHARTS !! k = None ->
  existsb (String.eqb k) Object_prototype_keys = false ->
  matchColor sr sg sb k = Normal None /\
  matchColorInterpolated sr sg sb k = Normal None.
Proof.
  intros H1 H2. unfold matchColor, matchColorInterpolated, get.
  now rewrite H1, H2.
Qed.

(** A property name of [Object.prototype] makes both matchers throw. *)
Lemma inherited_key_TypeError (sr sg sb : R) (k : string) :
  COLOR_CHARTS !! k = None ->
  existsb (String.eqb k) Object_prototype_keys = true ->
  matchColor sr sg sb k = TypeError /\
  matchColorInterpolated sr sg sb k = TypeError.
Proof.
  intros H1 H2. unfold matchColor, matchColorInterpolated, get.
  now rewrite H1, H2.
Qed.

(** C9 at the key "constructor", which names no chart: [COLOR_CHARTS[key]]
    is the inherited [Object] function, the guard [!chart] lets it pass, and
    reading [chart.colors] gives [undefined]; both matchers throw a
    [TypeError] instead of returning [null]. *)
Theorem constructor_key_throws (sr sg sb : R) :
  COLOR_CHARTS !! "constructor" = None /\
  matchColor sr sg sb "constructor" = TypeError /\
  matchColorInterpolated sr sg sb "constructor" = TypeError.
Proof.
  split; [reflexivity|]. now apply inherited_key_TypeError.
Qed.

End MatcherFacts.

(** ** More on the dosage planner and its callers *)

Module PlannerMore.
Import JS Chemistry App PlannerSpec SortFacts PlannerFacts.
Open Scope Q_scope.

(** A step pushes nothing exactly when its reading is absent or has the
    status 'ok'. *)
Definition absent_or_ok (rd : gmap string Q) (key : string) : Prop :=
  match rd !! key with
  | None => True
  | Some val => getStatus key val = ok
  end.

Lemma getStatus_own (key : string) (p : ParameterDef) (val : Q) :
  get PARAMETERS key = Own p ->
  getStatus key val
  = if Qltb val (idealMin p) then low
    else if Qltb (idealMax p) val then high else ok.
Proof. intros H. unfold getStatus. now rewrite H. Qed.

Lemma get_totalAlkalinity : get PARAMETERS "totalAlkalinity" = Own P_totalAlkalinity.
Proof. reflexivity. Qed.
Lemma get_pH : get PARAMETERS "pH" = Own P_pH.
Proof. reflexivity. Qed.
Lemma get_totalHardness : get PARAMETERS "totalHardness" = Own P_totalHardness.
Proof. reflexivity. Qed.
Lemma get_freeChlorine_param : get PARAMETERS "freeChlorine" = Own P_freeChlorine.
Proof. reflexivity. Qed.
Lemma get_bromine : get PARAMETERS "bromine" = Own P_bromine.
Proof. reflexivity. Qed.
Lemma get_cyanuricAcid : get PARAMETERS "cyanuricAcid" = Own P_cyanuricAcid.
Proof. reflexivity. Qed.

Lemma getStatus_ok_iff (key : string) (p : ParameterDef) (val : Q) :
  get PARAMETERS key = Own p ->
  (getStatus key val = ok <-> ~ out_of_range p val).
Proof.
  intros H. rewrite (getStatus_own key p val H). unfold out_of_range.
  destruct (Qltb val (idealMin p)) eqn:E1; [|destruct (Qltb (idealMax p) val) eqn:E2].
  - apply Qltb_lt in E1. split; [discriminate|tauto].
  - apply Qltb_lt in E2. split; [discriminate|tauto].
  - split; [intros _|reflexivity]. now apply out_of_range_tests.
Qed.

Lemma step_empty_iff (step : list Correction) (rd : gmap string Q) (key : string)
    (p : ParameterDef) :
  get PARAMETERS key = Own p ->
  (forall c, In c step -> exists val, rd !! key = Some val /\ out_of_range p val) ->
  (forall val, rd !! key = Some val -> out_of_range p val -> step <> []) ->
  (step = [] <-> absent_or_ok rd key).
Proof.
  intros Hget Hinv Hout. unfold absent_or_ok. split.
  - intros ->. destruct (rd !! key) as [val|] eqn:Hrd; [|exact I].
    apply (getStatus_ok_iff key p val Hget). intros Ho.
    now apply (Hout val eq_refl Ho).
  - intros H. destruct step as [|c step]; [reflexivity|exfalso].
    destruct (Hinv c (or_introl eq_refl)) as (val & Hrd & Ho).
    rewrite Hrd in H. now apply (getStatus_ok_iff key p val Hget) in H.
Qed.

Lemma step_totalAlkalinity_empty rd v :
  step_totalAlkalinity rd v = [] <-> absent_or_ok rd "totalAlkalinity".
Proof.
  apply (step_empty_iff _ rd _ P_totalAlkalinity get_totalAlkalinity).
  - intros c Hc. now apply step_totalAlkalinity_inv in Hc as (_ & _ & H).
  - intros val Hrd Ho E.
    destruct (step_totalAlkalinity_out rd v val Hrd Ho) as (c & Hc & _). congruence.
Qed.

Lemma step_pH_empty rd v : step_pH rd v = [] <-> absent_or_ok rd "pH".
Proof.
  apply (step_empty_iff _ rd _ P_pH get_pH).
  - intros c Hc. now apply step_pH_inv in Hc as (_ & _ & H).
  - intros val Hrd Ho E.
    destruct (step_pH_out rd v val Hrd Ho) as (c & Hc & _). congruence.
Qed.

Lemma step_totalHardness_empty rd v :
  step_totalHardness rd v = [] <-> absent_or_ok rd "totalHardness".
Proof.
  apply (step_empty_iff _ rd _ P_totalHardness get_totalHardness).
  - intros c Hc. now apply step_totalHardness_inv in Hc as (_ & _ & H).
  - intros val Hrd Ho E.
    destruct (step_totalHardness_out rd v val Hrd Ho) as (c & Hc & _). congruence.
Qed.

Lemma get_sanKey st : get PARAMETERS (sanKey st) = Own (sanParam st).
Proof. apply sanKey_own. Qed.

Lemma step_sanitizer_empty rd v st :
  step_sanitizer rd v st = [] <-> absent_or_ok rd (sanKey st).
Proof.
  apply (step_empty_iff _ rd _ (sanParam st) (get_sanKey st)).
  - intros c Hc. now apply step_sanitizer_inv in Hc as (_ & _ & H).
  - intros val Hrd Ho E.
    destruct (step_sanitizer_out rd v st val Hrd Ho) as (c & Hc & _). congruence.
Qed.

Lemma step_cyanuricAcid_empty rd v :
  step_cyanuricAcid rd v "chlorine" = [] <-> absent_or_ok rd "cyanuricAcid".
Proof.
  apply (step_empty_iff _ rd _ P_cyanuricAcid get_cyanuricAcid).
  - intros c Hc. now apply step_cyanuricAcid_inv in Hc as (_ & _ & _ & H).
  - intros val Hrd Ho E.
    destruct (step_cyanuricAcid_out rd v val Hrd Ho) as (c & Hc & _). congruence.
Qed.

Lemma absent_or_ok_test rd key :
  match rd !! key with
  | None => true
  | Some val => match getStatus key val with ok => true | _ => false end
  end = true <-> absent_or_ok rd key.
Proof.
  unfold absent_or_ok. destruct (rd !! key) as [val|]; [|tauto].
  destruct (getStatus key val); split; (discriminate || reflexivity).
Qed.

(** X1. For the sanitizer types "chlorine" and "bromine", the plan is empty
    exactly when the results screen finds every analysed parameter absent or
    'ok'. *)
Theorem plan_empty_iff_allOk (rd : gmap string Q) (v : Q) (st : string) :
  st = "chlorine" \/ st = "bromine" ->
  (calculateCorrections rd v st = [] <-> allOk (getAnalysisParams st) rd = true).
Proof.
  intros Hst. rewrite calculateCorrections_pushed. unfold pushed.
  rewrite !app_nil.
  rewrite step_totalAlkalinity_empty, step_pH_empty, step_totalHardness_empty,
    step_sanitizer_empty.
  destruct Hst as [-> | ->].
  - rewrite step_cyanuricAcid_empty.
    unfold allOk, getAnalysisParams, sanKey. simpl forallb.
    rewrite !andb_true_iff, !absent_or_ok_test. tauto.
  - unfold step_cyanuricAcid, allOk, getAnalysisParams, sanKey. simpl.
    rewrite !andb_true_iff, !absent_or_ok_test. tauto.
Qed.

Lemma plan_empty_iff_allOk_witness :
  calculateCorrections {[ "pH" := 7.5 ]} 400 "bromine" = [] <->
  allOk (getAnalysisParams "bromine") {[ "pH" := 7.5 ]} = true.
Proof.
  apply (plan_empty_iff_allOk {[ "pH" := 7.5 ]} 400 "bromine"). right. reflexivity.
Defined.

(** For another sanitizer type the two can differ: the results screen
    checks cyanuric acid, the planner has no step for it. *)
Lemma plan_empty_but_not_allOk :
  calculateCorrections {[ "cyanuricAcid" := 20 ]} 400 "salt" = [] /\
  allOk (getAnalysisParams "salt") {[ "cyanuricAcid" := 20 ]} = false.
Proof. split; reflexivity. Qed.

(** The sentence of the spoken summary about one reading. *)
Definition sentence (key : string) (param : ParameterDef) (val : Q) : Text :=
  if String.eqb key "pH" then
    [Lit "pH is "; Fixed 1 val; Lit ", which is ";
     Lit (statusWord (getStatus key val)); Lit "."]
  else
    [Lit (p_name param); Lit " is "; Num val; Lit " "; Lit (p_unit param);
     Lit ", which is "; Lit (statusWord (getStatus key val)); Lit "."].

Definition greeting : Text := [Lit "Here are your spa water test results."].

(** The sentences of the keys [keys] that the panel holds, in order. *)
Fixpoint sentences (rd : gmap string Q) (keys : list string) : list Text :=
  match keys with
  | [] => []
  | key :: keys' =>
      match rd !! key, PARAMETERS !! key with
      | Some val, Some param => sentence key param val :: sentences rd keys'
      | _, _ => sentences rd keys'
      end
  end.

Lemma get_PARAMETERS_own key p : PARAMETERS !! key = Some p -> get PARAMETERS key = Own p.
Proof. intros H. unfold get. now rewrite H. Qed.

Lemma paramsToRead_known st key :
  In key (paramsToRead st) -> exists p, PARAMETERS !! key = Some p.
Proof.
  unfold paramsToRead. destruct (String.eqb st "bromine"); simpl;
    intuition (subst; eexists; reflexivity).
Qed.

Lemma speech_loop rd keys lines :
  (forall key, In key keys -> exists p, PARAMETERS !! key = Some p) ->
  fold_left (speech_turn rd) keys lines = (lines ++ sentences rd keys)%list.
Proof.
  revert lines. induction keys as [|key keys IH]; intros lines Hk; simpl.
  - now rewrite app_nil_r.
  - destruct (Hk key (or_introl eq_refl)) as (p & Hp).
    rewrite IH by (intros k Hin; apply Hk; now right).
    unfold speech_turn. rewrite (get_PARAMETERS_own key p Hp), Hp.
    destruct (rd !! key) as [val|]; [|reflexivity].
    unfold sentence. destruct (String.eqb key "pH");
      now rewrite <- app_assoc.
Qed.

Lemma speech_lines_closed_form_aux (rd : gmap string Q) (st : string) :
  speech_lines rd st = greeting :: sentences rd (paramsToRead st).
Proof.
  unfold speech_lines. rewrite speech_loop by apply paramsToRead_known.
  reflexivity.
Qed.

(** X2. The summary is the greeting followed by one sentence for each
    parameter of the read order that the panel holds, in that order; a
    parameter that the panel does not hold is not mentioned. *)
Theorem speech_lines_closed_form (rd : gmap string Q) (st : string) :
  speech_lines rd st = greeting :: sentences rd (paramsToRead st) /\
  length (speech_lines rd st)
  = S (length (List.filter (fun key => bool_decide (is_Some (rd !! key)))
                 (paramsToRead st))).
Proof.
  pose proof (speech_lines_closed_form_aux rd st) as E.
  split; [exact E|]. rewrite E. clear E. simpl. f_equal.
  generalize (paramsToRead_known st).
  induction (paramsToRead st) as [|key keys IH]; intros Hk; [reflexivity|].
  destruct (Hk key (or_introl eq_refl)) as (p & Hp).
  specialize (IH (fun k Hin => Hk k (or_intror Hin))).
  simpl. rewrite Hp.
  destruct (rd !! key) as [val|]; simpl; now rewrite IH.
Qed.

(** A correction of the plan names a parameter that the panel reads out of
    range. *)
Lemma correction_reading_out_of_range rd v st c k p :
  In c (calculateCorrections rd v st) ->
  PARAMETERS !! k = Some p -> parameter c = p_name p ->
  exists val, rd !! k = Some val /\ out_of_range p val.
Proof.
  intros Hin HP Hname.
  rewrite calculateCorrections_pushed in Hin. unfold pushed in Hin.
  rewrite !in_app_iff in Hin.
  apply PARAMETERS_entries in HP. simpl in HP.
  destruct Hin as [Hin|[Hin|[Hin|[Hin|Hin]]]];
    [ apply step_totalAlkalinity_inv in Hin as (_ & Hpar & val' & Hrd' & Hout)
    | apply step_pH_inv in Hin as (_ & Hpar & val' & Hrd' & Hout)
    | apply step_totalHardness_inv in Hin as (_ & Hpar & val' & Hrd' & Hout)
    | apply step_sanitizer_inv in Hin as (_ & Hpar & val' & Hrd' & Hout);
      unfold sanParam, sanKey in *; destruct (String.eqb st "bromine")
    | apply step_cyanuricAcid_inv in Hin as (_ & _ & Hpar & val' & Hrd' & Hout) ];
    rewrite Hpar in Hname;
    repeat (destruct HP as [HP|HP]; [injection HP as <- <-; simpl in Hname|]);
    try discriminate; try contradiction; now exists val'.
Qed.

(** For a recognised sanitizer type, a parameter of the read order that is
    read out of range has its correction in the plan. *)
Lemma out_of_range_has_correction rd v st key p val :
  st = "chlorine" \/ st = "bromine" ->
  In key (paramsToRead st) ->
  PARAMETERS !! key = Some p -> rd !! key = Some val -> out_of_range p val ->
  exists c, In c (calculateCorrections rd v st) /\ parameter c = p_name p.
Proof.
  intros Hst Hkey HP Hrd Hout.
  rewrite calculateCorrections_pushed. unfold pushed.
  destruct Hst as [-> | ->]; simpl in Hkey;
    repeat (destruct Hkey as [<-|Hkey]); try contradiction;
    injection HP as <-.
  - destruct (step_pH_out rd v val Hrd Hout) as (c & E & _).
    exists c. rewrite !in_app_iff, E. split; [right; left; now left|].
    apply (step_pH_inv rd v). rewrite E. now left.
  - destruct (step_totalAlkalinity_out rd v val Hrd Hout) as (c & E & _).
    exists c. rewrite !in_app_iff, E. split; [left; now left|].
    apply (step_totalAlkalinity_inv rd v). rewrite E. now left.
  - destruct (step_totalHardness_out rd v val Hrd Hout) as (c & E & _).
    exists c. rewrite !in_app_iff, E. split; [right; right; left; now left|].
    apply (step_totalHardness_inv rd v). rewrite E. now left.
  - destruct (step_sanitizer_out rd v "chlorine" val Hrd Hout) as (c & E & _).
    exists c. rewrite !in_app_iff, E. split; [right; right; right; left; now left|].
    apply (step_sanitizer_inv rd v "chlorine"). rewrite E. now left.
  - destruct (step_cyanuricAcid_out rd v val Hrd Hout) as (c & E & _).
    exists c. rewrite !in_app_iff, E. split; [right; right; right; right; now left|].
    apply (step_cyanuricAcid_inv rd v "chlorine"). rewrite E. now left.
  - destruct (step_pH_out rd v val Hrd Hout) as (c & E & _).
    exists c. rewrite !in_app_iff, E. split; [right; left; now left|].
    apply (step_pH_inv rd v). rewrite E. now left.
  - destruct (step_totalAlkalinity_out rd v val Hrd Hout) as (c & E & _).
    exists c. rewrite !in_app_iff, E. split; [left; now left|].
    apply (step_totalAlkalinity_inv rd v). rewrite E. now left.
  - destruct (step_totalHardness_out rd v val Hrd Hout) as (c & E & _).
    exists c. rewrite !in_app_iff, E. split; [right; right; left; now left|].
    apply (step_totalHardness_inv rd v). rewrite E. now left.
  - destruct (step_sanitizer_out rd v "bromine" val Hrd Hout) as (c & E & _).
    exists c. rewrite !in_app_iff, E. split; [right; right; right; left; now left|].
    apply (step_sanitizer_inv rd v "bromine"). rewrite E. now left.
Qed.

(** X3. For the sanitizer types "chlorine" and "bromine", the spoken
    summary and the plan agree: the summary holds the sentence of every
    parameter of the read order that the panel holds, and that sentence says
    "in the ideal range" exactly when the plan has no correction for the
    parameter. *)
Theorem speech_agrees_with_plan
    (rd : gmap string Q) (v : Q) (st key : string) (p : ParameterDef) (val : Q) :
  st = "chlorine" \/ st = "bromine" ->
  In key (paramsToRead st) ->
  PARAMETERS !! key = Some p ->
  rd !! key = Some val ->
  In (sentence key p val) (speech_lines rd st) /\
  (statusWord (getStatus key val) = "in the ideal range" <->
   forall c, In c (calculateCorrections rd v st) -> parameter c <> p_name p).
Proof.
  intros Hst Hkey HP Hrd. split.
  - rewrite (speech_lines_closed_form_aux rd st). right.
    clear Hst. induction (paramsToRead st) as [|k keys IH]; [destruct Hkey|].
    simpl. destruct Hkey as [->|Hkey].
    + rewrite Hrd, HP. now left.
    + destruct (rd !! k), (PARAMETERS !! k); try (right); now apply IH.
  - pose proof (getStatus_ok_iff key p val (get_PARAMETERS_own key p HP)) as Hok.
    assert (Hw : statusWord (getStatus key val) = "in the ideal range"
                 <-> getStatus key val = ok).
    { destruct (getStatus key val); simpl; split; (discriminate || reflexivity). }
    rewrite Hw, Hok. split.
    + intros Hin c Hc Hname.
      destruct (correction_reading_out_of_range rd v st c key p Hc HP Hname)
        as (val' & Hrd' & Hout).
      rewrite Hrd in Hrd'. injection Hrd' as <-. contradiction.
    + intros Hnone Hout.
      destruct (out_of_range_has_correction rd v st key p val Hst Hkey HP Hrd Hout)
        as (c & Hc & Hname).
      now apply (Hnone c Hc).
Qed.

Lemma speech_agrees_with_plan_witness :
  In (sentence "pH" P_pH 8.0) (speech_lines {[ "pH" := 8.0 ]} "chlorine") /\
  (statusWord (getStatus "pH" 8.0) = "in the ideal range" <->
   forall c, In c (calculateCorrections {[ "pH" := 8.0 ]} 400 "chlorine") ->
             parameter c <> p_name P_pH).
Proof.
  apply (speech_agrees_with_plan {[ "pH" := 8.0 ]} 400 "chlorine" "pH" P_pH 8.0);
    [ left; reflexivity | left; reflexivity | reflexivity | reflexivity ].
Defined.

(** *** Doses *)

Lemma dose_pos (x r q v : Q) :
  0 < x -> 0 < r -> 0 < q -> 0 < v -> 0 < x / r * q * (v / 10000).
Proof.
  intros Hx Hr Hq Hv.
  repeat apply Qmult_lt_0_compat; try assumption.
  - now apply Qinv_lt_0_compat.
  - reflexivity.
Qed.

Lemma midpoint_above (lo hi val : Q) :
  lo <= hi -> val < lo -> 0 < (lo + hi) / 2 - val.
Proof.
  intros H1 H2.
  assert (E : (lo + hi) / 2 == (lo + hi) * (1 # 2)) by field.
  rewrite E. Lqa.lra.
Qed.

Ltac pos_step Hv :=
  match goal with |- context [?rd !! ?k] => destruct (rd !! k) as [val|] end;
  [|intros []]; cbv zeta;
  repeat match goal with
  | |- context [if Qltb ?x ?y then _ else _] =>
      let E := fresh "E" in destruct (Qltb x y) eqn:E; [apply Qltb_lt in E|]
  end;
  (intros [<-|[]] || intros []); simpl; intros [= <-];
  simpl in *; unfold scale;
  first [ apply dose_pos;
          first [ assumption | reflexivity | Lqa.lra
                | apply midpoint_above; [discriminate | assumption] ]
        | repeat apply Qmult_lt_0_compat;
          first [assumption | reflexivity | Lqa.lra] ].

Lemma step_totalAlkalinity_pos rd v c a :
  0 < v -> In c (step_totalAlkalinity rd v) -> amt c = Some a -> 0 < a.
Proof. intros Hv. unfold step_totalAlkalinity. pos_step Hv. Qed.

Lemma step_pH_pos rd v c a :
  0 < v -> In c (step_pH rd v) -> amt c = Some a -> 0 < a.
Proof. intros Hv. unfold step_pH. pos_step Hv. Qed.

Lemma step_totalHardness_pos rd v c a :
  0 < v -> In c (step_totalHardness rd v) -> amt c = Some a -> 0 < a.
Proof. intros Hv. unfold step_totalHardness. pos_step Hv. Qed.

Lemma step_sanitizer_pos rd v st c a :
  0 < v -> In c (step_sanitizer rd v st) -> amt c = Some a -> 0 < a.
Proof.
  intros Hv. unfold step_sanitizer. rewrite sanKey_own, dKey_own.
  destruct (String.eqb st "bromine"); pos_step Hv.
Qed.

Lemma step_cyanuricAcid_pos rd v st c a :
  0 < v -> In c (step_cyanuricAcid rd v st) -> amt c = Some a -> 0 < a.
Proof.
  intros Hv. unfold step_cyanuricAcid.
  destruct (String.eqb st "chlorine"); [|intros []]. pos_step Hv.
Qed.

Ltac amount_step :=
  cbv zeta;
  repeat match goal with
  | |- In _ (match ?x with _ => _ end) -> _ => destruct x eqn:?
  | |- In _ (if ?x then _ else _) -> _ => destruct x eqn:?
  | |- In _ [] -> _ => intros []
  | |- In _ [_] -> _ =>
      let E := fresh "E" in
      intros [<-|[]]; cbn [amt amount]; intros E;
      first [ discriminate E
            | injection E as <-; first [left; reflexivity | right; reflexivity] ]
  end.

Lemma step_totalAlkalinity_amount rd v c a :
  In c (step_totalAlkalinity rd v) -> amt c = Some a ->
  amount c = formatAmount a "oz" \/ amount c = formatAmount a "lbs".
Proof. unfold step_totalAlkalinity. amount_step. Qed.

Lemma step_pH_amount rd v c a :
  In c (step_pH rd v) -> amt c = Some a ->
  amount c = formatAmount a "oz" \/ amount c = formatAmount a "lbs".
Proof. unfold step_pH. amount_step. Qed.

Lemma step_totalHardness_amount rd v c a :
  In c (step_totalHardness rd v) -> amt c = Some a ->
  amount c = formatAmount a "oz" \/ amount c = formatAmount a "lbs".
Proof. unfold step_totalHardness. amount_step. Qed.

Lemma step_sanitizer_amount rd v st c a :
  In c (step_sanitizer rd v st) -> amt c = Some a ->
  amount c = formatAmount a "oz" \/ amount c = formatAmount a "lbs".
Proof.
  unfold step_sanitizer. rewrite sanKey_own, dKey_own.
  destruct (String.eqb st "bromine"); amount_step.
Qed.

Lemma step_cyanuricAcid_amount rd v st c a :
  In c (step_cyanuricAcid rd v st) -> amt c = Some a ->
  amount c = formatAmount a "oz" \/ amount c = formatAmount a "lbs".
Proof. unfold step_cyanuricAcid. amount_step. Qed.

(** X4. For a positive volume, the amount text of every step that doses a
    chemical is [formatAmount] applied to a strictly positive quantity, in
    oz or in lbs.  (The text itself can still read "0 teaspoons": the
    example below is such a plan.) *)
Theorem doses_positive (rd : gmap string Q) (v : Q) (st : string) :
  0 < v ->
  forall c a, In c (calculateCorrections rd v st) -> amt c = Some a ->
    0 < a /\
    (amount c = formatAmount a "oz" \/ amount c = formatAmount a "lbs").
Proof.
  intros Hv c a. rewrite calculateCorrections_pushed. unfold pushed.
  rewrite !in_app_iff. intros [H|[H|[H|[H|H]]]] Ha; split.
  - now apply (step_totalAlkalinity_pos rd v c a).
  - now apply (step_totalAlkalinity_amount rd v c a).
  - now apply (step_pH_pos rd v c a).
  - now apply (step_pH_amount rd v c a).
  - now apply (step_totalHardness_pos rd v c a).
  - now apply (step_totalHardness_amount rd v c a).
  - now apply (step_sanitizer_pos rd v st c a).
  - now apply (step_sanitizer_amount rd v st c a).
  - now apply (step_cyanuricAcid_pos rd v st c a).
  - now apply (step_cyanuricAcid_amount rd v st c a).
Qed.

Lemma doses_positive_witness :
  exists c a,
    In c (calculateCorrections {[ "freeChlorine" := 2.9 ]} 400 "chlorine") /\
    amt c = Some a /\ 0 < a /\
    amount c = formatAmount a "oz" /\
    amount c = [Int 0; Lit " teaspoons"].
Proof.
  assert (H : exists c a,
             In c (calculateCorrections {[ "freeChlorine" := 2.9 ]} 400 "chlorine") /\
             amt c = Some a /\ amount c = formatAmount a "oz" /\
             amount c = [Int 0; Lit " teaspoons"]).
  { eexists. eexists. split; [lazy; left; reflexivity|].
    split; [reflexivity|]. split; [reflexivity|]. vm_compute. reflexivity. }
  destruct H as (c & a & Hin & Ha & Hf & Ht).
  exists c, a.
  destruct (doses_positive {[ "freeChlorine" := 2.9 ]} 400 "chlorine") with (c := c) (a := a)
    as [Hpos _]; [reflexivity|exact Hin|exact Ha|].
  repeat split; assumption.
Defined.

(** X5. When a step raises a reading, the dose applied at the rate of its
    rule (the rule's quantity per 10,000 gallons changes the reading by the
    rule's unit change) brings the reading exactly to the target, and the
    target lies strictly inside the ideal band. *)
Theorem raise_dose_reaches_target
    (rd : gmap string Q) (v : Q) (st : string) (rr : RaiseRule) (val : Q) :
  ~ v == 0 ->
  In rr (raise_rules st) ->
  rd !! rr_key rr = Some val ->
  val < idealMin (rr_param rr) ->
  exists c a,
    In c (calculateCorrections rd v st) /\ order c = rr_tier rr /\
    amt c = Some a /\
    val + a / (per10kGal (rr_dosage rr) * (v / 10000)) * ppmPer (rr_dosage rr)
      == rr_target rr /\
    idealMin (rr_param rr) < rr_target rr /\
    rr_target rr < idealMax (rr_param rr).
Proof.
  intros Hv Hrr Hrd Hlow.
  destruct (raise_correction_present rd v st rr val Hrr Hrd Hlow)
    as (c & Hc & Ho & _ & _ & Ha & _).
  exists c, (raise_amount rr val v). repeat split; try assumption;
    unfold raise_rules in Hrr; rewrite !in_app_iff in Hrr; simpl in Hrr;
    destruct (String.eqb st "bromine"), (String.eqb st "chlorine"); simpl in Hrr;
    repeat match goal with
    | H : _ \/ _ |- _ => destruct H
    | H : False |- _ => destruct H
    | H : _ = rr |- _ => subst rr
    end;
    unfold raise_amount; simpl;
    first [ reflexivity | field; repeat split; first [assumption | discriminate] ].
Qed.

Lemma raise_dose_reaches_target_witness :
  exists c a,
    In c (calculateCorrections {[ "pH" := 7.0 ]} 400 "chlorine") /\ order c = 2%Z /\
    amt c = Some a /\
    7.0 + a / (6 * (400 / 10000)) * 0.2 == 7.5 /\
    7.2 < 7.5 /\ 7.5 < 7.8.
Proof.
  apply (raise_dose_reaches_target {[ "pH" := 7.0 ]} 400 "chlorine"
           {| rr_tier := 2; rr_key := "pH"; rr_param := P_pH;
              rr_dosage := phUp; rr_target := 7.5 |} 7.0);
    [ discriminate | right; left; reflexivity | reflexivity | reflexivity ].
Defined.

(** *** Rounding *)

Lemma Math_round_ge (x : Q) (n : Z) :
  inject_Z n - (1 # 2) <= x -> (n <= Math_round x)%Z.
Proof.
  intros H. unfold Math_round. rewrite <- (Qfloor_Z n).
  apply Qfloor_resp_le. change (1 / 2) with (1 # 2). Lqa.lra.
Qed.

Lemma Math_round_lt (x : Q) (n : Z) :
  x < inject_Z n - (1 # 2) -> (Math_round x < n)%Z.
Proof.
  intros H. unfold Math_round. rewrite Zlt_Qlt.
  eapply Qle_lt_trans; [apply Qfloor_le|]. change (1 / 2) with (1 # 2). Lqa.lra.
Qed.

Lemma Math_round_near (x : Q) :
  x - (1 # 2) < inject_Z (Math_round x) /\ inject_Z (Math_round x) <= x + (1 # 2).
Proof.
  unfold Math_round. split.
  - pose proof (Qlt_floor (x + 1 / 2)) as H. rewrite inject_Z_plus in H.
    change (inject_Z 1) with 1 in H. change (1 / 2) with (1 # 2) in *. Lqa.lra.
  - pose proof (Qfloor_le (x + 1 / 2)). change (1 / 2) with (1 # 2) in *. Lqa.lra.
Qed.

(** *** Dilution *)

(** The two parameters that only dilution lowers, with the tier of their
    step and the end of the text of the amount. *)
Record DilutionRule : Type := {
  dl_tier : Z;
  dl_key : string;
  dl_param : ParameterDef;
  dl_suffix : string
}.

Definition dilution_rules (st : string) : list DilutionRule :=
  {| dl_tier := 3; dl_key := "totalHardness"; dl_param := P_totalHardness;
     dl_suffix := "% and refill with fresh water" |}
  :: (if String.eqb st "chlorine"
      then [ {| dl_tier := 5; dl_key := "cyanuricAcid"; dl_param := P_cyanuricAcid;
                dl_suffix := "% and refill" |} ]
      else []).

Lemma dilution_pct_bounds (M val : Q) :
  0 < M -> M < val ->
  let pct := Math_round ((1 - M / val) * 100) in
  (0 <= pct <= 100)%Z /\
  M - val / 200 <= val * (100 - inject_Z pct) / 100 /\
  val * (100 - inject_Z pct) / 100 < M + val / 200.
Proof.
  intros HM Hval pct.
  assert (Hv0 : 0 < val) by Lqa.lra.
  set (d := M / val).
  assert (Hd : d * val == M) by (unfold d; field; Lqa.lra).
  assert (Hd0 : 0 < d) by (unfold d; apply Qlt_shift_div_l; Lqa.lra).
  assert (Hd1 : d < 1) by (unfold d; apply Qlt_shift_div_r; Lqa.lra).
  destruct (Math_round_near ((1 - d) * 100)) as [Hlo Hhi].
  fold d in pct. fold pct in Hlo, Hhi.
  split; [split|].
  - apply Math_round_ge. change (inject_Z 0) with 0. Lqa.lra.
  - apply Z.lt_succ_r. apply Math_round_lt. change (inject_Z (Z.succ 100)) with 101.
    Lqa.lra.
  - set (P := inject_Z pct) in *.
    assert (E1 : val * (100 - P) / 100 == val * (100 - P) * (1 # 100)) by field.
    assert (E2 : val / 200 == val * (1 # 200)) by field.
    rewrite E1, E2, <- Hd. split; Lqa.nra.
Qed.

(** X6. A calcium hardness or (for chlorine) cyanuric acid reading above
    its ideal maximum gives a dilution step with no chemical quantity.  The
    percentage to drain is between 0 and 100, and replacing that share of the
    water by fresh water brings the reading to the ideal maximum within half
    a percent of the reading. *)
Theorem dilution_percentage
    (rd : gmap string Q) (v : Q) (st : string) (dl : DilutionRule) (val : Q) :
  In dl (dilution_rules st) ->
  rd !! dl_key dl = Some val ->
  idealMax (dl_param dl) < val ->
  exists c pct,
    In c (calculateCorrections rd v st) /\ order c = dl_tier dl /\
    parameter c = p_name (dl_param dl) /\
    chemical c = "Partial Water Replacement" /\ amt c = None /\
    amount c = [Lit "Drain ~"; Int pct; Lit (dl_suffix dl)] /\
    (0 <= pct <= 100)%Z /\
    idealMax (dl_param dl) - val / 200 <= val * (100 - inject_Z pct) / 100 /\
    val * (100 - inject_Z pct) / 100 < idealMax (dl_param dl) + val / 200.
Proof.
  intros Hdl Hrd Hhigh.
  rewrite calculateCorrections_pushed. unfold pushed.
  unfold dilution_rules in Hdl. destruct Hdl as [<-|Hdl].
  - cbn [dl_key dl_param dl_tier dl_suffix] in *.
    assert (Hlow : Qltb val (idealMin P_totalHardness) = false).
    { apply Qltb_ge. simpl in *. Lqa.lra. }
    pose proof (dilution_pct_bounds (idealMax P_totalHardness) val eq_refl Hhigh) as B.
    apply Qltb_lt in Hhigh.
    unfold step_totalHardness. cbv zeta. rewrite Hrd, Hlow, Hhigh.
    eexists. eexists. split;
      [rewrite !in_app_iff; right; right; left; left; reflexivity|].
    repeat split; try apply B.
  - destruct (String.eqb st "chlorine") eqn:Est; [|destruct Hdl].
    destruct Hdl as [<-|[]].
    cbn [dl_key dl_param dl_tier dl_suffix] in *.
    assert (Hlow : Qltb val (idealMin P_cyanuricAcid) = false).
    { apply Qltb_ge. simpl in *. Lqa.lra. }
    pose proof (dilution_pct_bounds (idealMax P_cyanuricAcid) val eq_refl Hhigh) as B.
    apply Qltb_lt in Hhigh.
    unfold step_cyanuricAcid. rewrite Est. cbv zeta. rewrite Hrd, Hlow, Hhigh.
    eexists. eexists. split;
      [rewrite !in_app_iff; right; right; right; right; left; reflexivity|].
    repeat split; try apply B.
Qed.

Lemma dilution_percentage_witness :
  exists c pct,
    In c (calculateCorrections {[ "totalHardness" := 400 ]} 400 "chlorine") /\
    order c = 3%Z /\ parameter c = "Calcium Hardness" /\
    chemical c = "Partial Water Replacement" /\ amt c = None /\
    amount c = [Lit "Drain ~"; Int pct; Lit "% and refill with fresh water"] /\
    (0 <= pct <= 100)%Z /\
    250 - 400 / 200 <= 400 * (100 - inject_Z pct) / 100 /\
    400 * (100 - inject_Z pct) / 100 < 250 + 400 / 200.
Proof.
  apply (dilution_percentage {[ "totalHardness" := 400 ]} 400 "chlorine"
           {| dl_tier := 3; dl_key := "totalHardness"; dl_param := P_totalHardness;
              dl_suffix := "% and refill with fresh water" |} 400);
    [ left; reflexivity | reflexivity | reflexivity ].
Defined.

(** *** formatAmount *)

Lemma Qltb_true_intro (x y : Q) : x < y -> Qltb x y = true.
Proof. apply Qltb_lt. Qed.

Lemma Qltb_false_intro (x y : Q) : y <= x -> Qltb x y = false.
Proof. apply Qltb_ge. Qed.

(** X7. A non-negative quantity below half an ounce (or below 0.03 lbs) is
    shown as a whole number of teaspoons between 0 and 3, and it is shown
    as 0 teaspoons only if it is below 1/12 oz (below 1/192 lbs). *)
Theorem small_amount_in_teaspoons (value : Q) :
  0 <= value ->
  (value < 0.5 ->
   exists n, formatAmount value "oz" = [Int n; Lit " teaspoons"] /\
             (0 <= n <= 3)%Z /\ (n = 0%Z -> value < 1 # 12)) /\
  (value < 0.03 ->
   exists n, formatAmount value "lbs" = [Int n; Lit " teaspoons"] /\
             (0 <= n <= 3)%Z /\ (n = 0%Z -> value < 1 # 192)).
Proof.
  intros H0. split; intros H.
  - exists (Math_round (value * 6)). unfold formatAmount.
    change (String.eqb "oz" "oz") with true. cbv iota.
    rewrite (Qltb_true_intro _ _ H). split; [reflexivity|].
    destruct (Math_round_near (value * 6)) as [N1 N2].
    split; [split|].
    + apply Math_round_ge. change (inject_Z 0) with 0. Lqa.lra.
    + apply Z.lt_succ_r. apply Math_round_lt. change (inject_Z (Z.succ 3)) with 4.
      Lqa.lra.
    + intros E. rewrite E in N1. change (inject_Z 0) with 0 in N1. Lqa.lra.
  - exists (Math_round (value * 96)). unfold formatAmount.
    change (String.eqb "lbs" "oz") with false.
    change (String.eqb "lbs" "lbs") with true. cbv iota.
    rewrite (Qltb_true_intro _ _ H). split; [reflexivity|].
    destruct (Math_round_near (value * 96)) as [N1 N2].
    split; [split|].
    + apply Math_round_ge. change (inject_Z 0) with 0. Lqa.lra.
    + apply Z.lt_succ_r. apply Math_round_lt. change (inject_Z (Z.succ 3)) with 4.
      Lqa.lra.
    + intros E. rewrite E in N1. change (inject_Z 0) with 0 in N1. Lqa.lra.
Qed.

Lemma small_amount_in_teaspoons_witness :
  (exists n, formatAmount 0.02 "oz" = [Int n; Lit " teaspoons"] /\
             (0 <= n <= 3)%Z /\ (n = 0%Z -> 0.02 < 1 # 12)) /\
  (exists n, formatAmount 0.02 "lbs" = [Int n; Lit " teaspoons"] /\
             (0 <= n <= 3)%Z /\ (n = 0%Z -> 0.02 < 1 # 192)).
Proof.
  destruct (small_amount_in_teaspoons 0.02) as [Hoz Hlbs]; [discriminate|].
  split; [apply Hoz|apply Hlbs]; reflexivity.
Defined.

(** Texts that are equal up to the value of the numbers they hold. *)
Inductive Frag_equiv : Frag -> Frag -> Prop :=
| equiv_Lit s : Frag_equiv (Lit s) (Lit s)
| equiv_Num q1 q2 : q1 == q2 -> Frag_equiv (Num q1) (Num q2)
| equiv_Fixed d q1 q2 : q1 == q2 -> Frag_equiv (Fixed d q1) (Fixed d q2)
| equiv_Int z : Frag_equiv (Int z) (Int z)
| equiv_Locale z : Frag_equiv (Locale z) (Locale z).

Definition Text_equiv : Text -> Text -> Prop := Forall2 Frag_equiv.

Lemma Math_round_comp (x y : Q) : x == y -> Math_round x = Math_round y.
Proof. intros H. unfold Math_round. apply Qfloor_comp. now rewrite H. Qed.

(** X8. Below a quarter of a pound, a weight in lbs is displayed exactly as
    the same weight in oz (16 oz to the pound), except between 0.03 and
    0.03125 lbs, where the lbs display already switches to tablespoons while
    the oz display still shows teaspoons. *)
Theorem lbs_display_agrees_with_oz (value : Q) :
  value < 0.25 ->
  (Text_equiv (formatAmount value "lbs") (formatAmount (value * 16) "oz")
   <-> ~ (0.03 <= value /\ value < 0.03125)).
Proof.
  intros Hq. unfold formatAmount.
  change (String.eqb "lbs" "oz") with false.
  change (String.eqb "lbs" "lbs") with true.
  change (String.eqb "oz" "oz") with true. cbv iota.
  rewrite (Qltb_true_intro (value * 16) 4) by Lqa.lra.
  rewrite (Qltb_true_intro value 0.25) by assumption.
  destruct (Qlt_le_dec value 0.03) as [H1|H1].
  - rewrite (Qltb_true_intro value 0.03), (Qltb_true_intro (value * 16) 0.5) by Lqa.lra.
    split; [intros _; Lqa.lra|intros _].
    constructor; [|repeat constructor].
    rewrite (Math_round_comp (value * 96) (value * 16 * 6)) by ring. constructor.
  - rewrite (Qltb_false_intro value 0.03) by assumption.
    destruct (Qlt_le_dec value 0.03125) as [H2|H2].
    + rewrite (Qltb_true_intro value 0.0625), (Qltb_true_intro (value * 16) 0.5)
        by Lqa.lra.
      split; [|intros Hn; exfalso; apply Hn; now split].
      intros Ht _. inversion Ht as [|? ? ? ? Hf]. inversion Hf.
    + rewrite (Qltb_false_intro (value * 16) 0.5) by Lqa.lra.
      split; [intros _; Lqa.lra|intros _].
      destruct (Qlt_le_dec value 0.0625) as [H3|H3].
      * rewrite (Qltb_true_intro value 0.0625), (Qltb_true_intro (value * 16) 1)
          by Lqa.lra.
        repeat constructor. ring.
      * rewrite (Qltb_false_intro value 0.0625), (Qltb_false_intro (value * 16) 1)
          by Lqa.lra.
        repeat constructor.
Qed.

Lemma lbs_display_agrees_with_oz_witness :
  Text_equiv (formatAmount 0.1 "lbs") (formatAmount (0.1 * 16) "oz")
  <-> ~ (0.03 <= 0.1 /\ 0.1 < 0.03125).
Proof. apply (lbs_display_agrees_with_oz 0.1). reflexivity. Defined.

(** *** Volume units *)

Lemma step_totalAlkalinity_scale_r k rd v :
  Forall2 (same_step_scaled k) (step_totalAlkalinity rd v) (step_totalAlkalinity rd (v * k)).
Proof. unfold step_totalAlkalinity. scale_step. Qed.

Lemma step_pH_scale_r k rd v :
  Forall2 (same_step_scaled k) (step_pH rd v) (step_pH rd (v * k)).
Proof. unfold step_pH. scale_step. Qed.

Lemma step_totalHardness_scale_r k rd v :
  Forall2 (same_step_scaled k) (step_totalHardness rd v) (step_totalHardness rd (v * k)).
Proof. unfold step_totalHardness. scale_step. Qed.

Lemma step_sanitizer_scale_r k rd v st :
  Forall2 (same_step_scaled k) (step_sanitizer rd v st) (step_sanitizer rd (v * k) st).
Proof.
  unfold step_sanitizer. rewrite sanKey_own, dKey_own.
  destruct (String.eqb st "bromine"); scale_step.
Qed.

Lemma step_cyanuricAcid_scale_r k rd v st :
  Forall2 (same_step_scaled k) (step_cyanuricAcid rd v st) (step_cyanuricAcid rd (v * k) st).
Proof. unfold step_cyanuricAcid. scale_step. Qed.

(** X9. With the same number entered as volume, the plan for the unit
    "liters" has the same steps as the plan for gallons, each chemical
    quantity multiplied by 0.264172; any unit other than "liters" is taken
    as gallons. *)
Theorem liters_plan_scaled (rd : gmap string Q) (volume : Q) (st unit : string) :
  unit <> "liters" ->
  Forall2 (same_step_scaled 0.264172)
    (calculateCorrections rd (getVolumeInGallons volume unit) st)
    (calculateCorrections rd (getVolumeInGallons volume "liters") st).
Proof.
  intros Hu%String.eqb_neq. unfold getVolumeInGallons. rewrite Hu.
  change (String.eqb "liters" "liters") with true. cbv iota.
  rewrite !calculateCorrections_pushed. unfold pushed.
  repeat apply Forall2_app;
    auto using step_totalAlkalinity_scale_r, step_pH_scale_r,
      step_totalHardness_scale_r, step_sanitizer_scale_r, step_cyanuricAcid_scale_r.
Qed.

Lemma liters_plan_scaled_witness :
  Forall2 (same_step_scaled 0.264172)
    (calculateCorrections scenario_panel (getVolumeInGallons 1500 "gallons") "chlorine")
    (calculateCorrections scenario_panel (getVolumeInGallons 1500 "liters") "chlorine").
Proof.
  apply (liters_plan_scaled scenario_panel 1500 "chlorine" "gallons"). discriminate.
Defined.

(** *** History *)

(** X11. Saving a result appends it and keeps at most the 50 most recent
    entries: the new history is the end of the old one followed by the new
    entry, it has [min 50 (n + 1)] entries, and the new entry is its last. *)
Theorem saveResults_keeps_last_50 {A : Type} (history : list A) (entry : A) :
  length (saveResults history entry) = Nat.min 50 (S (length history)) /\
  (exists dropped,
     (history ++ [entry])%list = (dropped ++ saveResults history entry)%list) /\
  List.last (saveResults history entry) entry = entry /\
  saveResults history entry <> [].
Proof.
  unfold saveResults, saveHistory, slice_last.
  rewrite length_app. simpl length. replace (length history + 1)%nat
    with (S (length history)) by lia.
  destruct (Nat.ltb 50 (S (length history))) eqn:E.
  - apply Nat.ltb_lt in E.
    set (l := (history ++ [entry])%list).
    assert (Hl : length l = S (length history))
      by (unfold l; rewrite length_app; simpl; lia).
    set (n := (S (length history) - 50)%nat).
    assert (Hsplit : l = (firstn n l ++ skipn n l)%list)
      by (symmetry; apply firstn_skipn).
    assert (Hlen : length (skipn n l) = 50%nat)
      by (rewrite length_skipn, Hl; unfold n; lia).
    assert (Hne : skipn n l <> []).
    { intros E0. rewrite E0 in Hlen. discriminate. }
    split; [rewrite Hlen; lia|]. split; [now exists (firstn n l)|].
    split; [|exact Hne].
    assert (Hlast : List.last l entry = entry) by (unfold l; apply last_last).
    rewrite Hsplit in Hlast.
    destruct (skipn n l) as [|x s] eqn:Es; [contradiction|].
    rewrite <- Hlast at 2. symmetry.
    clear - s. induction (firstn n l) as [|y f IH]; [reflexivity|].
    simpl. destruct (f ++ x :: s)%list eqn:E1; [destruct f; discriminate|].
    exact IH.
  - apply Nat.ltb_ge in E.
    split; [rewrite length_app; cbn [length]; lia|]. split; [now exists []|].
    split; [apply last_last|]. intros E0. now apply app_eq_nil in E0 as [_ ?].
Qed.

End PlannerMore.

(** ** More on the colour matcher *)

Module MatcherMore.
Import JS ColorChart MatcherSpec SortFacts MatcherFacts.
Open Scope R_scope.

Section Least.
Context {A : Type} (dist : A -> R).

(** [a] is the first element of [l] at the least distance: strictly closer
    than everything before it, at least as close as everything after. *)
Definition first_least (l : list A) (a : A) : Prop :=
  exists pre post,
    l = (pre ++ a :: post)%list /\
    (forall x, In x pre -> dist a < dist x) /\
    (forall x, In x post -> dist a <= dist x).

Lemma first_least_In l a : first_least l a -> In a l.
Proof. intros (pre & post & -> & _). apply in_or_app. right. now left. Qed.

Lemma first_least_le l a x : first_least l a -> In x l -> dist a <= dist x.
Proof.
  intros (pre & post & -> & Hpre & Hpost) [H|[<-|H]]%in_app_or.
  - left. now apply Hpre.
  - right. reflexivity.
  - now apply Hpost.
Qed.

Lemma split_twice (pre pre' post post' : list A) (a b : A) :
  (pre ++ a :: post = pre' ++ b :: post')%list ->
  a = b \/ (In a pre' /\ In b post) \/ (In b pre /\ In a post').
Proof.
  revert pre'. induction pre as [|x pre IH]; intros [|y pre'] E; simpl in E.
  - injection E as -> _. now left.
  - injection E as -> ->. right. left. split; [now left|].
    apply in_or_app. right. now left.
  - injection E as -> <-. right. right. split; [now left|].
    apply in_or_app. right. now left.
  - injection E as -> E. destruct (IH pre' E) as [H|[[H1 H2]|[H1 H2]]].
    + now left.
    + right. left. split; [now right|assumption].
    + right. right. split; [now right|assumption].
Qed.

Lemma first_least_unique l a b : first_least l a -> first_least l b -> a = b.
Proof.
  intros (pre & post & E & Hpre & Hpost) (pre' & post' & E' & Hpre' & Hpost').
  rewrite E in E'. destruct (split_twice _ _ _ _ _ _ E') as [H|[[H1 H2]|[H1 H2]]].
  - assumption.
  - specialize (Hpre' a H1). specialize (Hpost b H2). lra.
  - specialize (Hpre b H1). specialize (Hpost' a H2). lra.
Qed.

End Least.

Section Nearest.
Variable sampledLab : Lab.

Local Abbreviation dE := (refDeltaE sampledLab).

(** The loop of [matchColor] keeps the first colour at the least
    distance. *)
Definition first_best (seen : list RefColor) (best : option (RefColor * R)) : Prop :=
  match best with
  | None => seen = []
  | Some (bm, bd) => bd = dE bm /\ first_least dE seen bm
  end.

Lemma matchColor_step_first seen best ref :
  first_best seen best ->
  first_best (seen ++ [ref]) (matchColor_step sampledLab best ref).
Proof.
  unfold matchColor_step, first_best. cbv zeta.
  destruct best as [[bm bd]|].
  - intros (-> & Hfl).
    destruct (Rlt_dec (dE ref) (dE bm)) as [Hlt|Hge].
    + split; [reflexivity|]. exists seen, []. split; [reflexivity|]. split.
      * intros x Hx. pose proof (first_least_le dE seen bm x Hfl Hx). lra.
      * intros x [].
    + apply Rnot_lt_le in Hge. split; [reflexivity|].
      destruct Hfl as (pre & post & -> & Hpre & Hpost).
      exists pre, (post ++ [ref])%list. split; [|split].
      * now rewrite <- app_assoc.
      * exact Hpre.
      * intros x [Hx|[<-|[]]]%in_app_or; [now apply Hpost|assumption].
  - intros ->. split; [reflexivity|]. exists [], []. split; [reflexivity|].
    split; intros x [].
Qed.

Lemma matchColor_loop_first l seen best :
  first_best seen best ->
  first_best (seen ++ l) (fold_left (matchColor_step sampledLab) l best).
Proof.
  revert seen best. induction l as [|ref l IH]; intros seen best H; simpl.
  - now rewrite app_nil_r.
  - replace (seen ++ ref :: l)%list with ((seen ++ [ref]) ++ l)%list
      by (rewrite <- app_assoc; reflexivity).
    apply IH. now apply matchColor_step_first.
Qed.

(** The first element of the sorted [matches] is the first colour at the
    least distance, too: the sort is stable. *)
Lemma sorted_head_first (l : list RefColor) (m : Scored) (rest : list Scored) :
  Array_sort byDeltaE (map (scored sampledLab) l) = m :: rest ->
  m = scored sampledLab (fst m) /\ first_least dE l (fst m).
Proof.
  revert m rest. induction l as [|y l IH]; intros m rest Hs; [discriminate|].
  simpl in Hs.
  destruct (Array_sort byDeltaE (map (scored sampledLab) l)) as [|m' rest'] eqn:Hl.
  - apply (f_equal (@length _)) in Hl. rewrite Array_sort_length, length_map in Hl.
    destruct l; [|discriminate]. simpl in Hs. injection Hs as <- _.
    split; [reflexivity|]. exists [], []. split; [reflexivity|]. split; intros x [].
  - destruct (IH m' rest' eq_refl) as (Em & pre & post & El & Hpre & Hpost).
    simpl in Hs. unfold byDeltaE in Hs. rewrite Em in Hs. simpl in Hs.
    destruct (Rlt_dec 0 (dE y - dE (fst m'))) as [Hgt|Hle].
    + injection Hs as <- _. rewrite <- Em. split; [exact Em|].
      exists (y :: pre), post. split; [now rewrite El|]. split; [|exact Hpost].
      intros x [<-|Hx]; [lra|now apply Hpre].
    + injection Hs as <- _. apply Rnot_lt_le in Hle. split; [reflexivity|].
      exists [], l. split; [reflexivity|]. split; [intros x []|].
      intros x Hx. simpl.
      assert (dE (fst m') <= dE x).
      { apply (first_least_le dE l); [|assumption]. now exists pre, post. }
      lra.
Qed.

End Nearest.

Lemma matchColor_first_least (sr sg sb : R) (k : string) (c : Chart) :
  COLOR_CHARTS !! k = Some c ->
  let lab := rgbToLab (sr / 255) (sg / 255) (sb / 255) in
  exists m,
    matchColor sr sg sb k = Normal (Some m) /\
    m_value m = value (refColor m) /\
    m_deltaE m = refDeltaE lab (refColor m) /\
    first_least (refDeltaE lab) (colors c) (refColor m).
Proof.
  intros Hk lab. unfold matchColor. rewrite (get_own k c Hk). cbv zeta. fold lab.
  pose proof (matchColor_loop_first lab (colors c) [] None eq_refl) as H.
  simpl app in H.
  destruct (fold_left (matchColor_step lab) (colors c) None) as [[bm bd]|].
  - destruct H as (-> & Hfl). eexists. split; [reflexivity|]. now repeat split.
  - exfalso. simpl in H.
    destruct (chart_two_points c (COLOR_CHARTS_entries k c Hk)) as (? & ? & ? & E).
    rewrite E in H. discriminate.
Qed.

(** X12. For a known chart key, [matchColor] returns the calibration point
    of that chart nearest to the sample in Lab distance, with its value and
    that distance; among points at the same least distance it returns the
    one that comes first in the chart. *)
Theorem matchColor_returns_nearest (sr sg sb : R) (k : string) (c : Chart) :
  COLOR_CHARTS !! k = Some c ->
  let lab := rgbToLab (sr / 255) (sg / 255) (sb / 255) in
  exists m,
    matchColor sr sg sb k = Normal (Some m) /\
    m_value m = value (refColor m) /\
    m_deltaE m = refDeltaE lab (refColor m) /\
    first_least (refDeltaE lab) (colors c) (refColor m).
Proof. apply matchColor_first_least. Qed.

Lemma matchColor_returns_nearest_witness :
  exists m,
    matchColor 200 120 90 "pH" = Normal (Some m) /\
    m_value m = value (refColor m) /\
    m_deltaE m = refDeltaE (rgbToLab (200 / 255) (120 / 255) (90 / 255)) (refColor m) /\
    first_least (refDeltaE (rgbToLab (200 / 255) (120 / 255) (90 / 255)))
      (colors C_pH) (refColor m).
Proof. apply (matchColor_returns_nearest 200 120 90 "pH" C_pH). reflexivity. Defined.

(** X13. On a known chart the two matchers agree on the nearest point:
    [matchColorInterpolated] reports the distance that [matchColor] reports,
    and when that distance is below 1 it returns the value that [matchColor]
    returns. *)
Theorem matchers_agree (sr sg sb : R) (k : string) (c : Chart) :
  COLOR_CHARTS !! k = Some c ->
  exists m i,
    matchColor sr sg sb k = Normal (Some m) /\
    matchColorInterpolated sr sg sb k = Normal (Some i) /\
    i_deltaE i = m_deltaE m /\
    (m_deltaE m < 1 -> i_value i = m_value m /\ confidence i = High).
Proof.
  intros Hk.
  destruct (matchColor_first_least sr sg sb k c Hk) as (m & Hm & Hv & Hd & Hfl).
  destruct (matchColorInterpolated_known sr sg sb k c Hk)
    as (m1 & m2 & rest & Hs & Hi).
  set (lab := rgbToLab (sr / 255) (sg / 255) (sb / 255)) in *.
  destruct (sorted_head_first lab (colors c) m1 _ Hs) as (Em & Hfl1).
  assert (Eref : fst m1 = refColor m)
    by (apply (first_least_unique (refDeltaE lab) (colors c)); assumption).
  assert (Esnd : snd m1 = m_deltaE m).
  { rewrite Em. simpl. now rewrite Eref, Hd. }
  exists m, (interpolate m1 m2). split; [assumption|]. split; [assumption|].
  destruct (interpolate_confidence m1 m2) as (Hid & _).
  split; [now rewrite Hid|].
  intros Hlt. unfold interpolate. rewrite Esnd.
  destruct (Rlt_dec (m_deltaE m) 1); [|contradiction]. simpl.
  split; [now rewrite Eref, Hv|reflexivity].
Qed.

Lemma matchers_agree_witness :
  exists m i,
    matchColor 200 120 90 "pH" = Normal (Some m) /\
    matchColorInterpolated 200 120 90 "pH" = Normal (Some i) /\
    i_deltaE i = m_deltaE m /\
    (m_deltaE m < 1 -> i_value i = m_value m /\ confidence i = High).
Proof. apply (matchers_agree 200 120 90 "pH" C_pH). reflexivity. Defined.

(** *** The sorted [matches] is an ascending rearrangement *)

Lemma sort_insert_Permutation {A : Type} (gt : A -> A -> bool) (x : A) (l : list A) :
  Permutation (x :: l) (sort_insert gt x l).
Proof.
  induction l as [|y l IH]; simpl; [reflexivity|].
  destruct (gt x y); [|reflexivity].
  rewrite <- IH. apply perm_swap.
Qed.

Lemma Array_sort_Permutation {A : Type} (gt : A -> A -> bool) (l : list A) :
  Permutation l (Array_sort gt l).
Proof.
  induction l as [|x l IH]; simpl; [reflexivity|].
  rewrite <- sort_insert_Permutation. now constructor.
Qed.

Definition ascending (l : list Scored) : Prop :=
  StronglySorted (fun a0 b0 => snd a0 <= snd b0) l.

Lemma sort_insert_ascending (x : Scored) (l : list Scored) :
  ascending l -> ascending (sort_insert byDeltaE x l).
Proof.
  unfold ascending. induction 1 as [|y l Hl IH Hy]; simpl.
  - repeat constructor.
  - unfold byDeltaE at 1. destruct (Rlt_dec 0 (snd x - snd y)) as [Hgt|Hle].
    + constructor; [exact IH|].
      rewrite List.Forall_forall in Hy |- *. intros z Hz.
      apply sort_insert_In in Hz as [->|Hz]; [lra|now apply Hy].
    + apply Rnot_lt_le in Hle. constructor; [now constructor|].
      constructor; [lra|].
      rewrite List.Forall_forall in Hy |- *. intros z Hz.
      specialize (Hy z Hz). lra.
Qed.

Lemma Array_sort_ascending (l : list Scored) : ascending (Array_sort byDeltaE l).
Proof.
  induction l as [|x l IH]; simpl; [constructor|].
  now apply sort_insert_ascending.
Qed.

(** X14. For a known chart key, the interpolated value lies between the
    values of the two calibration points nearest to the sample (the nearest
    one gives the reported distance), before and after the rounding to one
    decimal. *)
Theorem interpolation_between_two_nearest
    (sr sg sb : R) (k : string) (c : Chart) :
  COLOR_CHARTS !! k = Some c ->
  let lab := rgbToLab (sr / 255) (sg / 255) (sb / 255) in
  exists i p1 p2 others,
    matchColorInterpolated sr sg sb k = Normal (Some i) /\
    Permutation (colors c) (p1 :: p2 :: others) /\
    refDeltaE lab p1 <= refDeltaE lab p2 /\
    (forall x, In x others -> refDeltaE lab p2 <= refDeltaE lab x) /\
    i_deltaE i = refDeltaE lab p1 /\
    Rmin (value p1) (value p2) <= i_value i <= Rmax (value p1) (value p2).
Proof.
  intros Hk lab. pose proof (COLOR_CHARTS_entries k c Hk) as Hc.
  destruct (matchColorInterpolated_known sr sg sb k c Hk)
    as (m1 & m2 & rest & Hs & Hi).
  fold lab in Hs.
  pose proof (Array_sort_Permutation byDeltaE (map (scored lab) (colors c))) as HP.
  pose proof (Array_sort_ascending (map (scored lab) (colors c))) as HA.
  rewrite Hs in HP, HA.
  assert (Hall : forall m, In m (m1 :: m2 :: rest) ->
            In (fst m) (colors c) /\ snd m = refDeltaE lab (fst m)).
  { intros m Hm. apply (sorted_matches_In lab). now rewrite Hs. }
  destruct (Hall m1 (or_introl eq_refl)) as (Hin1 & Hd1).
  destruct (Hall m2 (or_intror (or_introl eq_refl))) as (Hin2 & Hd2).
  apply StronglySorted_inv in HA as [HA H12].
  apply StronglySorted_inv in HA as [_ H2r].
  rewrite List.Forall_forall in H12, H2r.
  exists (interpolate m1 m2), (fst m1), (fst m2), (map fst rest).
  split; [exact Hi|]. split; [|split; [|split; [|split]]].
  - apply (Permutation_map fst) in HP. rewrite map_map in HP. simpl in HP.
    now rewrite map_id in HP.
  - rewrite <- Hd1, <- Hd2. apply H12. now left.
  - intros x (m & <- & Hm)%in_map_iff.
    destruct (Hall m (or_intror (or_intror Hm))) as (_ & Hdm).
    rewrite <- Hd2, <- Hdm. now apply H2r.
  - destruct (interpolate_confidence m1 m2) as (Hid & _). now rewrite Hid.
  - unfold interpolate. destruct (Rlt_dec (snd m1) 1); cbv zeta; simpl.
    + split; [apply Rmin_l|apply Rmax_l].
    + destruct (chart_values_tenths c (fst m1) Hc Hin1) as (n1 & Hn1).
      destruct (chart_values_tenths c (fst m2) Hc Hin2) as (n2 & Hn2).
      assert (exists nlo, Rmin (value (fst m1)) (value (fst m2)) * 10 = IZR nlo)
        as (nlo & Hlo).
      { unfold Rmin. destruct (Rle_dec _ _); eauto. }
      assert (exists nhi, Rmax (value (fst m1)) (value (fst m2)) * 10 = IZR nhi)
        as (nhi & Hhi).
      { unfold Rmax. destruct (Rle_dec _ _); eauto. }
      apply (round_tenths_between _ _ _ nlo nhi Hlo Hhi).
      apply weighted_between; auto using weight_pos.
      * split; [apply Rmin_l|apply Rmax_l].
      * split; [apply Rmin_r|apply Rmax_r].
Qed.

Lemma interpolation_between_two_nearest_witness :
  exists i p1 p2 others,
    matchColorInterpolated 200 120 90 "pH" = Normal (Some i) /\
    Permutation (colors C_pH) (p1 :: p2 :: others) /\
    refDeltaE (rgbToLab (200 / 255) (120 / 255) (90 / 255)) p1
      <= refDeltaE (rgbToLab (200 / 255) (120 / 255) (90 / 255)) p2 /\
    (forall x, In x others ->
       refDeltaE (rgbToLab (200 / 255) (120 / 255) (90 / 255)) p2
       <= refDeltaE (rgbToLab (200 / 255) (120 / 255) (90 / 255)) x) /\
    i_deltaE i = refDeltaE (rgbToLab (200 / 255) (120 / 255) (90 / 255)) p1 /\
    Rmin (value p1) (value p2) <= i_value i <= Rmax (value p1) (value p2).
Proof.
  apply (interpolation_between_two_nearest 200 120 90 "pH" C_pH). reflexivity.
Defined.

End MatcherMore.

(** ** The colour sampler *)

Module SamplerFacts.
Import JS ColorChart.
Open Scope Z_scope.

(** X15. When [extractAverageColor] asks for image data, the rectangle lies
    inside the canvas and is at most [2 * sampleRadius] wide and high, with
    at least one pixel; it returns [null] without asking exactly when the
    radius is not positive or the window starts at or beyond the right or
    bottom edge. *)
Theorem sampleRect_within_canvas (width height : Z) (x y : Q) (sampleRadius : Z) :
  match sampleRect width height x y sampleRadius with
  | Some rect =>
      0 <= sx rect /\ 0 <= sy rect /\
      0 < sw rect <= 2 * sampleRadius /\ 0 < sh rect <= 2 * sampleRadius /\
      sx rect + sw rect <= width /\ sy rect + sh rect <= height
  | None =>
      sampleRadius <= 0 \/
      width <= Z.max 0 (Math_round (x - inject_Z sampleRadius)%Q) \/
      height <= Z.max 0 (Math_round (y - inject_Z sampleRadius)%Q)
  end.
Proof.
  unfold sampleRect. cbv zeta.
  set (sx0 := Z.max 0 (Math_round (x - inject_Z sampleRadius)%Q)).
  set (sy0 := Z.max 0 (Math_round (y - inject_Z sampleRadius)%Q)).
  assert (Hsx : 0 <= sx0) by apply Z.le_max_l.
  assert (Hsy : 0 <= sy0) by apply Z.le_max_l.
  clearbody sx0 sy0.
  destruct (Z.min (sampleRadius * 2) (width - sx0) <=? 0) eqn:E1;
    [apply Z.leb_le in E1|apply Z.leb_gt in E1]; cbn [orb].
  - lia.
  - destruct (Z.min (sampleRadius * 2) (height - sy0) <=? 0) eqn:E2;
      [apply Z.leb_le in E2|apply Z.leb_gt in E2]; cbn [sx sy sw sh]; lia.
Qed.

Lemma sampleRect_bounds_aux (width height : Z) (x y : Q) (sampleRadius : Z) :
  forall rect, sampleRect width height x y sampleRadius = Some rect ->
  0 < sw rect /\ 0 < sh rect.
Proof.
  intros rect H. unfold sampleRect in H. cbv zeta in H.
  destruct (_ <=? 0) eqn:E1; [discriminate|].
  destruct (Z.min (sampleRadius * 2) (height - _) <=? 0) eqn:E2; [discriminate|].
  simpl in H. injection H as <-. simpl.
  apply Z.leb_gt in E1, E2. lia.
Qed.

(** A well-formed image data array for [n] pixels: four entries per pixel,
    each between 0 and 255. *)
Definition image_data (n : Z) (data : list Z) : Prop :=
  Z.of_nat (length data) = 4 * n /\ Forall (fun v => 0 <= v <= 255) data.

Lemma sumChannels_bounds (n : nat) :
  forall data tR tG tB,
    length data = (4 * n)%nat -> Forall (fun v => 0 <= v <= 255) data ->
    let '(totalR, totalG, totalB) := sumChannels data (tR, tG, tB) in
    tR <= totalR <= tR + 255 * Z.of_nat n /\
    tG <= totalG <= tG + 255 * Z.of_nat n /\
    tB <= totalB <= tB + 255 * Z.of_nat n.
Proof.
  induction n as [|n IH]; intros data tR tG tB Hlen Hall.
  - destruct data; [|discriminate]. simpl. lia.
  - destruct data as [|r0 [|g0 [|b0 [|a0 rest]]]]; try (simpl in Hlen; lia).
    inversion Hall as [|? ? Hr H1]; subst.
    inversion H1 as [|? ? Hg H2]; subst.
    inversion H2 as [|? ? Hb H3]; subst.
    inversion H3 as [|? ? _ H4]; subst.
    cbn [sumChannels].
    specialize (IH rest (tR + r0) (tG + g0) (tB + b0)).
    destruct (sumChannels rest (tR + r0, tG + g0, tB + b0)) as [[R G] B].
    assert (Hl : length rest = (4 * n)%nat) by (simpl in Hlen; lia).
    specialize (IH Hl H4). lia.
Qed.

Lemma Math_round_average (total n : Z) :
  0 < n -> 0 <= total <= 255 * n ->
  0 <= Math_round (inject_Z total / inject_Z n)%Q <= 255.
Proof.
  intros Hn [H0 H1].
  assert (Hq : (0 < inject_Z n)%Q)
    by (change 0%Q with (inject_Z 0); rewrite <- Zlt_Qlt; exact Hn).
  assert (Hlo : (0 <= inject_Z total / inject_Z n)%Q).
  { apply Qle_shift_div_l; [exact Hq|]. rewrite Qmult_0_l.
    change 0%Q with (inject_Z 0). rewrite <- Zle_Qle. exact H0. }
  assert (Hhi : (inject_Z total / inject_Z n <= 255)%Q).
  { apply Qle_shift_div_r; [exact Hq|].
    change 255%Q with (inject_Z 255). rewrite <- inject_Z_mult, <- Zle_Qle. exact H1. }
  split.
  - apply PlannerMore.Math_round_ge. change (inject_Z 0) with 0%Q. Lqa.lra.
  - apply Z.lt_succ_r. apply PlannerMore.Math_round_lt.
    change (inject_Z (Z.succ 255)) with 256%Q. Lqa.lra.
Qed.

(** X16. On well-formed image data (four entries per pixel of the
    rectangle, each between 0 and 255) every channel of the colour returned
    by [extractAverageColor] lies between 0 and 255. *)
Theorem average_color_is_a_color
    (getImageData : Z -> Z -> Z -> Z -> list Z)
    (width height : Z) (x y : Q) (sampleRadius : Z) (col : Color) :
  (forall rect, sampleRect width height x y sampleRadius = Some rect ->
     image_data (sw rect * sh rect)
       (getImageData (sx rect) (sy rect) (sw rect) (sh rect))) ->
  extractAverageColor getImageData width height x y sampleRadius = Some col ->
  0 <= c_r col <= 255 /\ 0 <= c_g col <= 255 /\ 0 <= c_b col <= 255.
Proof.
  intros Hdata. unfold extractAverageColor.
  pose proof (sampleRect_bounds_aux width height x y sampleRadius) as Hrect.
  destruct (sampleRect width height x y sampleRadius) as [rect|]; [|discriminate].
  destruct (Hrect rect eq_refl) as [Hsw Hsh].
  destruct (Hdata rect eq_refl) as [Hlen Hall]. cbv zeta.
  set (data := getImageData (sx rect) (sy rect) (sw rect) (sh rect)) in *.
  set (n := sw rect * sh rect) in *.
  assert (Hn : 0 < n) by (unfold n; nia).
  pose proof (sumChannels_bounds (Z.to_nat n) data 0 0 0) as Hsum.
  destruct (sumChannels data (0, 0, 0)) as [[R G] B].
  rewrite Z2Nat.id in Hsum by lia.
  specialize (Hsum ltac:(lia) Hall).
  intros [= <-]. simpl.
  repeat split; apply Math_round_average; lia.
Qed.

(** An image of one colour, for any rectangle. *)
Definition uniform_image (r0 g0 b0 a0 : Z) (_ _ w h : Z) : list Z :=
  concat (repeat [r0; g0; b0; a0] (Z.to_nat (w * h))).

Lemma average_color_is_a_color_witness :
  exists col,
    extractAverageColor (uniform_image 10 20 30 255) 100 80 50 40 1 = Some col /\
    0 <= c_r col <= 255 /\ 0 <= c_g col <= 255 /\ 0 <= c_b col <= 255.
Proof.
  exists {| c_r := 10; c_g := 20; c_b := 30 |}. split; [reflexivity|].
  apply (average_color_is_a_color (uniform_image 10 20 30 255) 100 80 50 40 1
           {| c_r := 10; c_g := 20; c_b := 30 |}).
  - intros rect [= <-]. split; [reflexivity|].
    cbv -[Z.le]. repeat constructor; discriminate.
  - reflexivity.
Defined.

Lemma sumChannels_uniform (r0 g0 b0 a0 : Z) (n : nat) :
  forall tR tG tB,
    sumChannels (concat (repeat [r0; g0; b0; a0] n)) (tR, tG, tB)
    = (tR + Z.of_nat n * r0, tG + Z.of_nat n * g0, tB + Z.of_nat n * b0).
Proof.
  induction n as [|n IH]; intros tR tG tB.
  - simpl. f_equal; [f_equal|]; lia.
  - cbn [repeat concat app sumChannels]. rewrite IH. f_equal; [f_equal|]; lia.
Qed.

Lemma Math_round_integer (z : Z) (q : Q) : (q == inject_Z z)%Q -> Math_round q = z.
Proof.
  intros E. apply Z.le_antisymm.
  - apply Z.lt_succ_r. apply PlannerMore.Math_round_lt.
    rewrite E. unfold Z.succ. rewrite inject_Z_plus. change (inject_Z 1) with 1%Q.
    Lqa.lra.
  - apply PlannerMore.Math_round_ge. rewrite E. Lqa.lra.
Qed.

(** X17. On an image of a single colour, wherever the sample window falls
    inside the canvas, [extractAverageColor] returns exactly that colour. *)
Theorem average_of_uniform_image
    (r0 g0 b0 a0 width height : Z) (x y : Q) (sampleRadius : Z) (col : Color) :
  extractAverageColor (uniform_image r0 g0 b0 a0) width height x y sampleRadius
    = Some col ->
  col = {| c_r := r0; c_g := g0; c_b := b0 |}.
Proof.
  unfold extractAverageColor.
  pose proof (sampleRect_bounds_aux width height x y sampleRadius) as Hrect.
  destruct (sampleRect width height x y sampleRadius) as [rect|]; [|discriminate].
  destruct (Hrect rect eq_refl) as [Hsw Hsh]. cbv zeta.
  unfold uniform_image. rewrite sumChannels_uniform.
  set (n := sw rect * sh rect) in *.
  assert (Hn : 0 < n) by (unfold n; nia).
  rewrite Z2Nat.id by lia. rewrite !Z.add_0_l.
  assert (Hq : ~ (inject_Z n == 0)%Q).
  { change 0%Q with (inject_Z 0). rewrite inject_Z_injective. lia. }
  intros [= <-]. f_equal; apply Math_round_integer;
    rewrite inject_Z_mult; field; exact Hq.
Qed.

Lemma average_of_uniform_image_witness :
  exists col,
    extractAverageColor (uniform_image 200 120 90 255) 100 80 (47 # 10) 40 12
      = Some col /\
    col = {| c_r := 200; c_g := 120; c_b := 90 |}.
Proof.
  exists {| c_r := 200; c_g := 120; c_b := 90 |}. split; [reflexivity|].
  apply (average_of_uniform_image 200 120 90 255 100 80 (47 # 10) 40 12).
  reflexivity.
Defined.

End SamplerFacts.

(** ** The calendar export *)

Module CalendarFacts.
Import JS Chemistry Calendar.
Open Scope string_scope.

#[local] Arguments String.append !s1 s2 : simpl nomatch.

Lemma append_assoc (s1 s2 s3 : string) : (s1 ++ s2) ++ s3 = s1 ++ (s2 ++ s3).
Proof. induction s1 as [|a s1 IH]; simpl; [reflexivity|now rewrite IH]. Qed.

Lemma append_nil_r (s : string) : s ++ "" = s.
Proof. induction s as [|a s IH]; simpl; [reflexivity|now rewrite IH]. Qed.

Lemma length_append (s1 s2 : string) :
  String.length (s1 ++ s2) = (String.length s1 + String.length s2)%nat.
Proof. induction s1 as [|a s1 IH]; simpl; [reflexivity|now rewrite IH]. Qed.

Lemma replaceAll_append (c : ascii) (repl s1 s2 : string) :
  replaceAll c repl (s1 ++ s2) = replaceAll c repl s1 ++ replaceAll c repl s2.
Proof.
  induction s1 as [|a s1 IH]; simpl; [reflexivity|].
  destruct (Ascii.eqb a c); rewrite IH; [now rewrite append_assoc|reflexivity].
Qed.

(** *** escapeICS *)

(** The escape of one character. *)
Definition escape_char (a : ascii) : string :=
  if Ascii.eqb a "092" then backslash ++ backslash
  else if Ascii.eqb a ";" then backslash ++ ";"
  else if Ascii.eqb a "," then backslash ++ ","
  else if Ascii.eqb a LF then backslash ++ "n"
  else String a EmptyString.

Fixpoint escape_pass (s : string) : string :=
  match s with
  | EmptyString => EmptyString
  | String a s' => escape_char a ++ escape_pass s'
  end.

Lemma escapeICS_cons (a : ascii) (s : string) :
  escapeICS (String a s) = escape_char a ++ escapeICS s.
Proof.
  unfold escapeICS, escape_char. cbn [replaceAll].
  destruct (Ascii.eqb_spec a "092") as [->|N1].
  - rewrite !replaceAll_append. reflexivity.
  - cbn [replaceAll]. destruct (Ascii.eqb_spec a ";") as [->|N2].
    + rewrite !replaceAll_append. reflexivity.
    + cbn [replaceAll]. destruct (Ascii.eqb_spec a ",") as [->|N3].
      * rewrite !replaceAll_append. reflexivity.
      * cbn [replaceAll]. destruct (Ascii.eqb_spec a LF) as [->|N4]; reflexivity.
Qed.

Lemma escapeICS_pass (s : string) : escapeICS s = escape_pass s.
Proof.
  induction s as [|a s IH]; [reflexivity|].
  rewrite escapeICS_cons, IH. reflexivity.
Qed.

Lemma escape_pass_append (s1 s2 : string) :
  escape_pass (s1 ++ s2) = escape_pass s1 ++ escape_pass s2.
Proof.
  induction s1 as [|a s1 IH]; simpl; [reflexivity|].
  now rewrite IH, append_assoc.
Qed.

(** A decoder: a backslash announces an escaped character, [n] standing
    for the line feed. *)
Fixpoint unescapeICS (s : string) : string :=
  match s with
  | EmptyString => EmptyString
  | String a s' =>
      if Ascii.eqb a "092" then
        match s' with
        | EmptyString => EmptyString
        | String b s'' => String (if Ascii.eqb b "n" then LF else b) (unescapeICS s'')
        end
      else String a (unescapeICS s')
  end.

Lemma unescape_escape_pass (s : string) : unescapeICS (escape_pass s) = s.
Proof.
  induction s as [|a s IH]; [reflexivity|].
  cbn [escape_pass]. unfold escape_char.
  destruct (Ascii.eqb_spec a "092") as [->|N1]; [simpl; now rewrite IH|].
  destruct (Ascii.eqb_spec a ";") as [->|N2]; [simpl; now rewrite IH|].
  destruct (Ascii.eqb_spec a ",") as [->|N3]; [simpl; now rewrite IH|].
  destruct (Ascii.eqb_spec a LF) as [->|N4]; [simpl; now rewrite IH|].
  cbn [append unescapeICS].
  destruct (Ascii.eqb_spec a "092") as [->|_]; [contradiction|]. now rewrite IH.
Qed.

Lemma escape_pass_no_LF (s : string) :
  ~ In LF (list_ascii_of_string (escape_pass s)).
Proof.
  induction s as [|a s IH]; [intros []|].
  cbn [escape_pass]. unfold escape_char.
  destruct (Ascii.eqb_spec a "092") as [->|N1]; [simpl; intuition discriminate|].
  destruct (Ascii.eqb_spec a ";") as [->|N2]; [simpl; intuition discriminate|].
  destruct (Ascii.eqb_spec a ",") as [->|N3]; [simpl; intuition discriminate|].
  destruct (Ascii.eqb_spec a LF) as [->|N4]; [simpl; intuition discriminate|].
  simpl. intros [E|H]; [now subst|contradiction].
Qed.

(** X18. The four replacements of [escapeICS] amount to one pass that
    escapes each backslash, semicolon, comma and line feed once.  The result
    holds no line feed, and no information is lost: texts with the same
    escape are equal. *)
Theorem escapeICS_single_pass_injective :
  (forall s, escapeICS s = escape_pass s) /\
  (forall s, ~ In LF (list_ascii_of_string (escapeICS s))) /\
  (forall s1 s2, escapeICS s1 = escapeICS s2 -> s1 = s2).
Proof.
  split; [exact escapeICS_pass|]. split.
  - intros s. rewrite escapeICS_pass. apply escape_pass_no_LF.
  - intros s1 s2 H. rewrite !escapeICS_pass in H.
    apply (f_equal unescapeICS) in H. now rewrite !unescape_escape_pass in H.
Qed.

Lemma escapeICS_append (s1 s2 : string) :
  escapeICS (s1 ++ s2) = escapeICS s1 ++ escapeICS s2.
Proof. rewrite !escapeICS_pass. apply escape_pass_append. Qed.

(** X19. Escaping a description distributes over its lines, and the
    separator backslash-n with which [generateICS] joins the lines comes out
    as two backslashes followed by n. *)
Theorem escapeICS_of_joined_lines (lines : list string) :
  escapeICS (String.concat (backslash ++ "n") lines)
  = String.concat (backslash ++ backslash ++ "n") (map escapeICS lines).
Proof.
  induction lines as [|l lines IH]; [reflexivity|].
  destruct lines as [|l' lines]; [reflexivity|].
  change (String.concat (backslash ++ "n") (l :: l' :: lines))
    with (l ++ (backslash ++ "n") ++ String.concat (backslash ++ "n") (l' :: lines)).
  rewrite !escapeICS_append, IH. reflexivity.
Qed.

(** *** pad and formatDate *)

Definition digits_ok (lo hi : Z) (len : nat) : bool :=
  forallb (fun k => Nat.eqb (String.length (toString (lo + Z.of_nat k))) len)
    (seq 0 (Z.to_nat (hi - lo))).

Lemma toString_length (lo hi : Z) (len : nat) (z : Z) :
  digits_ok lo hi len = true ->
  (lo <= z < hi)%Z ->
  String.length (toString z) = len.
Proof.
  intros H Hz. unfold digits_ok in H. rewrite forallb_forall in H.
  specialize (H (Z.to_nat (z - lo))).
  replace (lo + Z.of_nat (Z.to_nat (z - lo)))%Z with z in H by lia.
  apply Nat.eqb_eq, H, in_seq. lia.
Qed.

Lemma pad_length (z : Z) : (0 <= z <= 99)%Z -> String.length (pad z) = 2%nat.
Proof.
  intros Hz. unfold pad, padStart2.
  destruct (Z_lt_le_dec z 10) as [L|G].
  - rewrite (toString_length 0 10 1 z); [|vm_compute; reflexivity|lia].
    rewrite length_append, (toString_length 0 10 1 z); [|vm_compute; reflexivity|lia].
    reflexivity.
  - rewrite (toString_length 10 100 2 z); [|vm_compute; reflexivity|lia].
    apply (toString_length 10 100 2 z); [vm_compute; reflexivity|lia].
Qed.

(** X20. For a number from 0 to 99, [pad] gives exactly two characters, and
    they read back as the number. *)
Theorem pad_two_digits (z : Z) (Hz : (0 <= z <= 99)%Z) :
  String.length (pad z) = 2%nat /\
  option_map Z.of_int (NilZero.int_of_string (pad z)) = Some z.
Proof.
  split; [now apply pad_length|].
  assert (H : forallb (fun k =>
              match option_map Z.of_int (NilZero.int_of_string (pad (Z.of_nat k))) with
              | Some v => Z.eqb v (Z.of_nat k)
              | None => false
              end) (seq 0 100) = true) by (vm_compute; reflexivity).
  rewrite forallb_forall in H. specialize (H (Z.to_nat z)).
  rewrite Z2Nat.id in H by lia.
  destruct (option_map Z.of_int (NilZero.int_of_string (pad z))) as [v|].
  - f_equal. apply Z.eqb_eq, H, in_seq. lia.
  - discriminate H. apply in_seq. lia.
Qed.

Lemma pad_two_digits_witness :
  String.length (pad 7) = 2%nat /\
  option_map Z.of_int (NilZero.int_of_string (pad 7)) = Some 7%Z.
Proof. apply (pad_two_digits 7). lia. Defined.

Section Dates.

Variables getFullYear getMonth getDate getHours getMinutes : Z -> Z.

Local Abbreviation formatDate :=
  (Calendar.formatDate getFullYear getMonth getDate getHours getMinutes).

(** X21. For a date whose year has four digits, [formatDate] gives fifteen
    characters with the letter T at index 8. *)
Theorem formatDate_shape (date : Z)
    (Hyear : (1000 <= getFullYear date <= 9999)%Z)
    (Hmonth : (0 <= getMonth date <= 11)%Z)
    (Hday : (1 <= getDate date <= 31)%Z)
    (Hhours : (0 <= getHours date <= 23)%Z)
    (Hminutes : (0 <= getMinutes date <= 59)%Z) :
  String.length (formatDate date) = 15%nat /\
  String.get 8 (formatDate date) = Some "T"%char.
Proof.
  assert (Ly : String.length (toString (getFullYear date)) = 4%nat)
    by (apply (toString_length 1000 10000 4); [vm_compute; reflexivity|lia]).
  assert (Lm : String.length (pad (getMonth date + 1)) = 2%nat) by (apply pad_length; lia).
  assert (Ld : String.length (pad (getDate date)) = 2%nat) by (apply pad_length; lia).
  assert (Lh : String.length (pad (getHours date)) = 2%nat) by (apply pad_length; lia).
  assert (Ln : String.length (pad (getMinutes date)) = 2%nat) by (apply pad_length; lia).
  unfold Calendar.formatDate. split.
  - rewrite !length_append, Ly, Lm, Ld, Lh, Ln. reflexivity.
  - set (pre := (toString (getFullYear date) ++ pad (getMonth date + 1))
                  ++ pad (getDate date)).
    assert (Lp : String.length pre = 8%nat)
      by (unfold pre; rewrite !length_append, Ly, Lm, Ld; reflexivity).
    set (post := "T" ++ pad (getHours date) ++ pad (getMinutes date) ++ "00").
    transitivity (String.get (0 + String.length pre) (pre ++ post)).
    + rewrite Lp. unfold pre. rewrite !append_assoc. reflexivity.
    + rewrite <- append_correct2. reflexivity.
Qed.

End Dates.

Lemma formatDate_shape_witness :
  String.length
    (Calendar.formatDate (fun _ => 2026%Z) (fun _ => 10%Z) (fun _ => 2%Z)
       (fun _ => 9%Z) (fun _ => 5%Z) 0%Z) = 15%nat /\
  String.get 8
    (Calendar.formatDate (fun _ => 2026%Z) (fun _ => 10%Z) (fun _ => 2%Z)
       (fun _ => 9%Z) (fun _ => 5%Z) 0%Z) = Some "T"%char.
Proof.
  apply (formatDate_shape (fun _ => 2026%Z) (fun _ => 10%Z) (fun _ => 2%Z)
           (fun _ => 9%Z) (fun _ => 5%Z) 0%Z); lia.
Defined.

(** *** generateICS *)

Section Schedule.

Variables getFullYear getMonth getDate getHours getMinutes : Z -> Z.
Variable uid : nat -> string.
Variable render : Text -> string.

Local Abbreviation makeEvent :=
  (Calendar.makeEvent getFullYear getMonth getDate getHours getMinutes).
Local Abbreviation event_turn :=
  (Calendar.event_turn getFullYear getMonth getDate getHours getMinutes uid render).
Local Abbreviation generateICS_events :=
  (Calendar.generateICS_events getFullYear getMonth getDate getHours getMinutes
     uid render).

(** The milliseconds of waiting that a list of corrections asks for. *)
Definition elapsed (cs : list Correction) : Z :=
  fold_right (fun c t => waitMinutes c * 60000 + t)%Z 0%Z cs.

Definition retestEvent (u : string) (t : Z) : string :=
  makeEvent u "Spa: Retest Water" t 15
    "All chemicals have been added. Retest your spa water to verify levels are in range."
    15.

Definition correctionEvent (start : Z) (cs : list Correction) (j : nat)
    (c : Correction) : string :=
  makeEvent (uid j) (correctionTitle render c)
    (start + elapsed (firstn j cs)) (waitMinutes c)
    (correctionDescription render c j) 15.

Lemma event_turn_loop (cs : list Correction) :
  forall t i evs,
    exists evs',
      fold_left event_turn cs (t, i, evs)
      = ((t + elapsed cs)%Z, (i + length cs)%nat, (evs ++ evs')%list) /\
      length evs' = length cs /\
      forall j c, nth_error cs j = Some c ->
        nth_error evs' j
        = Some (makeEvent (uid (i + j)) (correctionTitle render c)
                  (t + elapsed (firstn j cs)) (waitMinutes c)
                  (correctionDescription render c (i + j)) 15).
Proof.
  induction cs as [|c0 cs IH]; intros t i evs.
  - exists []. cbn. rewrite app_nil_r, Nat.add_0_r, Z.add_0_r.
    split; [reflexivity|]. split; [reflexivity|]. intros [|j] c; discriminate.
  - cbn [fold_left Calendar.event_turn].
    destruct (IH (t + waitMinutes c0 * 60000)%Z (S i)
                (evs ++ [makeEvent (uid i) (correctionTitle render c0) t
                           (waitMinutes c0) (correctionDescription render c0 i) 15])%list)
      as (evs' & E & L & N).
    eexists (_ :: evs'). split; [|split].
    + rewrite E. cbn [elapsed fold_right length]. fold (elapsed cs).
      rewrite <- app_assoc. cbn [app].
      repeat first [reflexivity | lia | f_equal].
    + cbn [length]. now rewrite L.
    + intros [|j] c H.
      * cbn in H. injection H as <-. cbn [nth_error firstn elapsed fold_right].
        now rewrite Nat.add_0_r, Z.add_0_r.
      * cbn [nth_error] in H |- *. rewrite (N j c H).
        cbn [firstn elapsed fold_right]. fold (elapsed (firstn j cs)).
        replace (S i + j)%nat with (i + S j)%nat by lia.
        now rewrite Z.add_assoc.
Qed.

(** X22. The event of the correction at index [j] is at index [j] of the
    calendar.  It starts after the waits of all earlier corrections, counted
    from the start time, lasts for the wait of its own correction, and is
    numbered [j + 1] in its description. *)
Theorem correction_event_schedule (cs : list Correction) (startTime : option Z)
    (now : Z) (j : nat) (c : Correction) (Hj : nth_error cs j = Some c) :
  nth_error (generateICS_events cs startTime now) j
  = Some (correctionEvent (startOf startTime now) cs j c).
Proof.
  unfold Calendar.generateICS_events.
  destruct (event_turn_loop cs (startOf startTime now) 0%nat [])
    as (evs' & E & L & N).
  rewrite E. cbn [app].
  rewrite nth_error_app1 by (rewrite L; apply nth_error_Some; congruence).
  rewrite (N j c Hj). reflexivity.
Qed.

(** X23. The calendar holds one event more than there are corrections.  The
    last one asks to retest the water; it starts when every wait has passed
    and lasts fifteen minutes. *)
Theorem retest_event_is_last (cs : list Correction) (startTime : option Z)
    (now : Z) :
  length (generateICS_events cs startTime now) = S (length cs) /\
  nth_error (generateICS_events cs startTime now) (length cs)
  = Some (retestEvent (uid (length cs)) (startOf startTime now + elapsed cs)).
Proof.
  unfold Calendar.generateICS_events.
  destruct (event_turn_loop cs (startOf startTime now) 0%nat [])
    as (evs' & E & L & _).
  rewrite E. cbn [app]. split.
  - rewrite length_app, L. cbn. lia.
  - rewrite nth_error_app2 by lia. rewrite L, Nat.sub_diag. reflexivity.
Qed.

End Schedule.

Definition sample_correction (wait : Z) : Correction :=
  {| order := 1; parameter := "pH"; action := [Lit "Lower pH"];
     chemical := "Dry Acid"; amount := [Lit "1 oz"]; waitMinutes := wait;
     reason := []; calcBreakdown := []; notes := [Lit "Retest"]; amt := None |}.

Definition sample_plan : list Correction :=
  [sample_correction 20; sample_correction 15].

Definition sample_getter (_ : Z) : Z := 1%Z.
Definition sample_uid (_ : nat) : string := "sparobot".
Definition sample_render (_ : Text) : string := "text".

Lemma correction_event_schedule_witness :
  nth_error
    (Calendar.generateICS_events sample_getter sample_getter sample_getter
       sample_getter sample_getter sample_uid sample_render
       sample_plan (Some 0%Z) 0%Z) 1
  = Some (correctionEvent sample_getter sample_getter sample_getter sample_getter
            sample_getter sample_uid sample_render 0%Z sample_plan 1
            (sample_correction 15)).
Proof.
  apply (correction_event_schedule sample_getter sample_getter sample_getter
           sample_getter sample_getter sample_uid sample_render
           sample_plan (Some 0%Z) 0%Z 1 (sample_correction 15)).
  reflexivity.
Defined.

End CalendarFacts.
